(** * HCI extended-advertising-report filter (RSSI and UUID)

    A shallow embedding of
    [app/bluetooth/common/hci_ext_adv_filter_rssi_uuid/src/sl_bt_hci_ext_adv_filter.c]
    together with the constants of its two headers, and the properties of
    the filter that the design document states about it.

    Conventions.
    - A byte is a [Z]; every read reduces it modulo 256, so a list of
      arbitrary integers is a legal memory image.
    - A C object (the report buffer, the work filter) is the list of its
      bytes.  A read outside the list is undefined behaviour in C and is
      the outcome [Fault] here.
    - The [uint8_t] counters of the source wrap modulo 256, as written.
    - Loops carry a fuel argument; [Timeout] is "not finished yet". *)

From Stdlib Require Import ZArith List Bool Lia.
Import ListNotations.
Open Scope Z_scope.

(* ------------------------------------------------------------------ *)
(** ** Machine integers and byte objects *)

Definition to_uint8 (z : Z) : Z := z mod 256.

Definition to_int8 (z : Z) : Z :=
  let b := z mod 256 in if b <? 128 then b else b - 256.

(** A checked read of one byte of an object. *)
Definition load (obj : list Z) (i : Z) : option Z :=
  if i <? 0 then None else option_map to_uint8 (nth_error obj (Z.to_nat i)).

(** A read at a constant offset of an object that is known to be large
    enough (a field of a struct). *)
Definition byte_at (obj : list Z) (i : nat) : Z := to_uint8 (nth i obj 0).

(** Little-endian fields, as on the Cortex-M targets of the SDK. *)
Definition uint16_at (obj : list Z) (i : nat) : Z :=
  byte_at obj i + 256 * byte_at obj (i + 1).

Definition uint32_at (obj : list Z) (i : nat) : Z :=
  byte_at obj i + 256 * byte_at obj (i + 1)
  + 65536 * byte_at obj (i + 2) + 16777216 * byte_at obj (i + 3).

Definition zeros (n : nat) : list Z := repeat 0 n.

(* ------------------------------------------------------------------ *)
(** ** Constants of [sl_bt_hci_ext_adv_filter.h] and of the source *)

Definition BT_OK : Z := 0.
Definition BT_ERR_INVALID : Z := 0x12.

Definition HCI_EVENT_LE_META_EVENT : Z := 0x3e.
Definition HCI_EVENT_LE_EXTENDED_ADVERTISING_REPORT : Z := 0x0d.

Definition SL_BT_HCI_AD_TYPE_INCOMPLETE_SERVICE_CLASS_UUID_16_BIT : Z := 0x02.
Definition SL_BT_HCI_AD_TYPE_COMPLETE_SERVICE_CLASS_UUID_16_BIT : Z := 0x03.
Definition SL_BT_HCI_AD_TYPE_INCOMPLETE_SERVICE_CLASS_UUID_32_BIT : Z := 0x04.
Definition SL_BT_HCI_AD_TYPE_COMPLETE_SERVICE_CLASS_UUID_32_BIT : Z := 0x05.
Definition SL_BT_HCI_AD_TYPE_SERVICE_DATA_UUID_16_BIT : Z := 0x16.
Definition SL_BT_HCI_AD_TYPE_SERVICE_DATA_UUID_32_BIT : Z := 0x20.

Definition SL_BT_HCI_FILTER_CONFIG_RSSI_ENABLE : Z := 0.
Definition SL_BT_HCI_FILTER_CONFIG_SERVICE_DATA_UUID_16_BIT_ENABLE : Z := 1.
Definition SL_BT_HCI_FILTER_CONFIG_INCOMPLETE_UUID_16_BIT_ENABLE : Z := 2.
Definition SL_BT_HCI_FILTER_CONFIG_COMPLETE_UUID_16_BIT_ENABLE : Z := 3.
Definition SL_BT_HCI_FILTER_CONFIG_SERVICE_DATA_UUID_32_BIT_ENABLE : Z := 4.
Definition SL_BT_HCI_FILTER_CONFIG_INCOMPLETE_UUID_32_BIT_ENABLE : Z := 5.
Definition SL_BT_HCI_FILTER_CONFIG_COMPLETE_UUID_32_BIT_ENABLE : Z := 6.

Definition SL_BT_HCI_FILTER_CONFIG_RSSI_ENABLE_MASK : Z :=
  Z.shiftl 1 SL_BT_HCI_FILTER_CONFIG_RSSI_ENABLE.

Definition SL_BT_HCI_FILTER_CONFIG_MASK : Z :=
  Z.lor SL_BT_HCI_FILTER_CONFIG_RSSI_ENABLE_MASK
 (Z.lor (Z.shiftl 1 SL_BT_HCI_FILTER_CONFIG_SERVICE_DATA_UUID_16_BIT_ENABLE)
 (Z.lor (Z.shiftl 1 SL_BT_HCI_FILTER_CONFIG_INCOMPLETE_UUID_16_BIT_ENABLE)
 (Z.lor (Z.shiftl 1 SL_BT_HCI_FILTER_CONFIG_COMPLETE_UUID_16_BIT_ENABLE)
 (Z.lor (Z.shiftl 1 SL_BT_HCI_FILTER_CONFIG_SERVICE_DATA_UUID_32_BIT_ENABLE)
 (Z.lor (Z.shiftl 1 SL_BT_HCI_FILTER_CONFIG_INCOMPLETE_UUID_32_BIT_ENABLE)
        (Z.shiftl 1 SL_BT_HCI_FILTER_CONFIG_COMPLETE_UUID_32_BIT_ENABLE)))))).

Definition SL_BT_HCI_FILTER_RSSI_MAX : Z := -30.
Definition SL_BT_HCI_FILTER_RSSI_MIN : Z := -120.

(** Values of [sl_bt_hci_ext_adv_filter_config.h] that do not size
    anything. *)
Definition SL_BT_HCI_CONFIGURE_FILTERING_OPCODE : Z := 0xff11.
Definition SL_BT_HCI_FILTER_CONFIG : Z := 1.
Definition SL_BT_HCI_FILTER_RSSI_THRESHOLD : Z := -80.

(** Layout of the packed [hci_le_extended_advertising_report_t]. *)
Definition OFFSET_event_type : nat := 4.
Definition OFFSET_rssi : nat := 17.
Definition OFFSET_periodic_advertising_interval : nat := 18.
Definition OFFSET_data_length : nat := 27.
Definition OFFSET_data : nat := 28.
Definition SIZEOF_hci_le_extended_advertising_report_t : nat := 257.

Definition HCI_ADV_REPORT_MAX_LEN : nat :=
  SIZEOF_hci_le_extended_advertising_report_t + 2.

Definition RSSI_OFFSET : Z :=
  Z.of_nat OFFSET_periodic_advertising_interval + 2.

(* ------------------------------------------------------------------ *)
(** ** Status codes and the filter's state *)

Inductive sl_status_t :=
| SL_STATUS_OK
| SL_STATUS_NULL_POINTER
| SL_STATUS_INVALID_PARAMETER.

Inductive sl_btctrl_hci_event_filter_status :=
| SL_BTCTRL_HCI_EVENT_FILTER_STATUS_EVENT_ACCEPT
| SL_BTCTRL_HCI_EVENT_FILTER_STATUS_EVENT_DISCARD.

Notation "'ACCEPT'" := SL_BTCTRL_HCI_EVENT_FILTER_STATUS_EVENT_ACCEPT.
Notation "'DISCARD'" := SL_BTCTRL_HCI_EVENT_FILTER_STATUS_EVENT_DISCARD.

(** The object a filter pointer points into: the file's own
    [work_filter], which the command handler overwrites in place, or
    storage owned by a caller of the public function, which the caller
    keeps unchanged while the configuration is active. *)
Inductive filter_object :=
| WORK_FILTER
| CALLER_FILTER (bytes : list Z).

(** A non-null [uint8_t *] into a filter object: object and byte offset
    from its start. *)
Definition filter_pointer : Type := filter_object * Z.

Record sli_btctrl_hci_event_uuid := {
  uuid_array_length : Z;
  uuid_array : option filter_pointer      (* [None] is [NULL] *)
}.

Record sli_btctrl_hci_event_filter := {
  filter_config : Z;
  rssi_threshold : Z;
  uuids_16bit : sli_btctrl_hci_event_uuid;
  uuids_32bit : sli_btctrl_hci_event_uuid
}.

(** The file's static variables. *)
Record filter_state := {
  hci_event_filter : sli_btctrl_hci_event_filter;
  work_filter : list Z;
  advertisment_report_incomplete : bool
}.

Definition object_bytes (st : filter_state) (o : filter_object) : list Z :=
  match o with
  | WORK_FILTER => work_filter st
  | CALLER_FILTER bytes => bytes
  end.

(** Fields of the packed [struct sli_work_filter]:
    [config] at 0, [rssi_threshold] at 4, [data] from 5. *)
Definition OFFSET_work_data : nat := 5.

Definition user_config (user_filter : list Z) : Z := uint32_at user_filter 0.

Definition user_rssi_threshold (user_filter : list Z) : Z :=
  to_int8 (byte_at user_filter 4).

Definition user_data (user_filter : list Z) (k : Z) : Z :=
  byte_at user_filter (OFFSET_work_data + Z.to_nat k).

(* ------------------------------------------------------------------ *)
(** ** Boundary of the command transport *)

(** Modelled from the spec: the command-response framing of
    [sl_btctrl_hci_handler.h] is an external collaborator that is not in
    the sources.  A message is what its three accessors yield:
    [sl_btctrl_hci_message_get_opcode], [sl_btctrl_hci_message_get_length]
    ([None] when the status is not [SL_STATUS_OK]) and the parameter bytes
    that [sl_btctrl_hci_message_get_parameters] copies out. *)
Record sl_btctrl_hci_message := {
  message_opcode : option Z;
  message_length : option Z;
  message_parameters : option (list Z)
}.

(** Modelled from the spec: [sl_btctrl_hci_message_get_parameters] writes
    the first [length] parameter bytes over the start of the destination
    object and leaves the rest of the object as it was. *)
Definition sl_btctrl_hci_message_get_parameters
    (hcimsg : sl_btctrl_hci_message) (dst : list Z) (length : Z)
  : option (list Z) :=
  match message_parameters hcimsg with
  | None => None
  | Some params =>
      let copied := firstn (Z.to_nat length) params in
      Some (copied ++ skipn (List.length copied) dst)
  end.

(* ------------------------------------------------------------------ *)
(** ** Configuration: the validator and the command handler *)

Section Configuration.

(** The two capacities of [sl_bt_hci_ext_adv_filter_config.h].  They are
    set per deployment (the shipped template has 0 and 0) and are byte
    counts: the configuration wizard stores the number of UUIDs times
    2, respectively times 4. *)
Variable SL_BT_HCI_FILTER_16BIT_UUID_ARRAY_LEN : Z.
Variable SL_BT_HCI_FILTER_32BIT_UUID_ARRAY_LEN : Z.

Definition WORK_MEMORY : Z :=
  SL_BT_HCI_FILTER_16BIT_UUID_ARRAY_LEN
  + SL_BT_HCI_FILTER_32BIT_UUID_ARRAY_LEN + 2.

Definition SIZEOF_sli_work_filter : Z := 4 + 1 + WORK_MEMORY.

(** The statics before any call, then [sli_bt_hci_filter_init]. *)
Definition static_state : filter_state :=
  {| hci_event_filter :=
       {| filter_config := 0;
          rssi_threshold := 0;
          uuids_16bit := {| uuid_array_length := 0; uuid_array := None |};
          uuids_32bit := {| uuid_array_length := 0; uuid_array := None |} |};
     work_filter := zeros (Z.to_nat SIZEOF_sli_work_filter);
     advertisment_report_incomplete := false |}.

Definition sli_bt_hci_filter_init (st : filter_state) : filter_state :=
  {| hci_event_filter :=
       {| filter_config := SL_BT_HCI_FILTER_CONFIG;
          rssi_threshold := SL_BT_HCI_FILTER_RSSI_THRESHOLD;
          uuids_16bit := uuids_16bit (hci_event_filter st);
          uuids_32bit := uuids_32bit (hci_event_filter st) |};
     work_filter := work_filter st;
     advertisment_report_incomplete := advertisment_report_incomplete st |}.

Definition sl_btctrl_hci_event_configure_filtering
    (st : filter_state) (filter : option filter_object)
  : sl_status_t * filter_state :=
  match filter with
  | None => (SL_STATUS_NULL_POINTER, st)
  | Some o =>
    let user_filter := object_bytes st o in
    if negb (Z.land (user_config user_filter)
                    (Z.lnot SL_BT_HCI_FILTER_CONFIG_MASK) =? 0)
    then (SL_STATUS_INVALID_PARAMETER, st)
    else if negb (Z.land (user_config user_filter)
                         SL_BT_HCI_FILTER_CONFIG_RSSI_ENABLE_MASK =? 0)
            && ((user_rssi_threshold user_filter <? SL_BT_HCI_FILTER_RSSI_MIN)
                || (user_rssi_threshold user_filter >? SL_BT_HCI_FILTER_RSSI_MAX))
    then (SL_STATUS_INVALID_PARAMETER, st)
    else
      let uuid16_list_length := user_data user_filter 0 in
      if uuid16_list_length >? SL_BT_HCI_FILTER_16BIT_UUID_ARRAY_LEN
      then (SL_STATUS_INVALID_PARAMETER, st)
      else
        let uuid32_list_length :=
          user_data user_filter (uuid16_list_length + 1) in
        if uuid32_list_length >? SL_BT_HCI_FILTER_32BIT_UUID_ARRAY_LEN
        then (SL_STATUS_INVALID_PARAMETER, st)
        else
          (SL_STATUS_OK,
           {| hci_event_filter :=
                {| filter_config := user_config user_filter;
                   rssi_threshold := user_rssi_threshold user_filter;
                   uuids_16bit :=
                     {| uuid_array_length := uuid16_list_length;
                        uuid_array :=
                          if uuid16_list_length >? 0
                          then Some (o, Z.of_nat OFFSET_work_data + 1)
                          else None |};
                   uuids_32bit :=
                     {| uuid_array_length := uuid32_list_length;
                        uuid_array :=
                          if uuid32_list_length >? 0
                          then Some (o, Z.of_nat OFFSET_work_data
                                        + (uuid16_list_length + 2))
                          else None |} |};
              work_filter := work_filter st;
              advertisment_report_incomplete :=
                advertisment_report_incomplete st |})
  end.

(** [hci_configure_filter_command]: the result is the returned [bool],
    the response code handed to [sl_btctrl_hci_message_set_response]
    (when one is set) and the statics afterwards.  A failure of
    [sl_btctrl_hci_message_get_length] leaves [status] different from
    [SL_STATUS_OK] to the end, so nothing is copied or validated and the
    error code is answered. *)
Definition hci_configure_filter_command
    (st : filter_state) (hcimsg : sl_btctrl_hci_message)
  : bool * option Z * filter_state :=
  match message_opcode hcimsg with
  | None => (false, None, st)
  | Some opcode =>
    if negb (opcode =? SL_BT_HCI_CONFIGURE_FILTERING_OPCODE)
    then (false, None, st)
    else
      match message_length hcimsg with
      | None => (true, Some BT_ERR_INVALID, st)
      | Some length =>
        let min_length := to_uint8 (4 + 1) in
        let max_length := to_uint8 SIZEOF_sli_work_filter in
        if (length <? min_length) || (length >? max_length)
        then (true, Some BT_ERR_INVALID, st)
        else
          match sl_btctrl_hci_message_get_parameters
                  hcimsg (work_filter st) length with
          | None => (true, Some BT_ERR_INVALID, st)
          | Some work_filter' =>
            let st1 :=
              {| hci_event_filter := hci_event_filter st;
                 work_filter := work_filter';
                 advertisment_report_incomplete :=
                   advertisment_report_incomplete st |} in
            let '(status, st2) :=
              sl_btctrl_hci_event_configure_filtering st1 (Some WORK_FILTER) in
            (true,
             Some (match status with
                   | SL_STATUS_OK => BT_OK
                   | _ => BT_ERR_INVALID
                   end),
             st2)
          end
      end
  end.

End Configuration.

(* ------------------------------------------------------------------ *)
(** ** Outcomes of code that reads memory and loops *)

Inductive outcome (A : Type) : Type :=
| Done (a : A)      (* the code returned [a] *)
| Fault             (* a read outside an object *)
| Timeout.          (* the fuel ran out before the code returned *)

Arguments Done {A} a.
Arguments Fault {A}.
Arguments Timeout {A}.

Definition bind {A B : Type} (m : outcome A) (k : A -> outcome B) : outcome B :=
  match m with
  | Done a => k a
  | Fault => Fault
  | Timeout => Timeout
  end.

Notation "x <- m ;; k" := (bind m (fun x => k))
  (at level 61, m at next level, right associativity).

Definition of_option {A : Type} (o : option A) : outcome A :=
  match o with
  | Some a => Done a
  | None => Fault
  end.

(** A [uint8_t *] as the callees receive it: [None] is [NULL], otherwise
    the bytes of the object pointed into and the offset inside it. *)
Definition pointer : Type := option (list Z * Z).

Definition ptr_add (p : pointer) (i : Z) : pointer :=
  match p with
  | None => None
  | Some (obj, off) => Some (obj, off + i)
  end.

Fixpoint load_bytes (obj : list Z) (off : Z) (n : nat) : option (list Z) :=
  match n with
  | O => Some []
  | S n' =>
      match load obj off, load_bytes obj (off + 1) n' with
      | Some b, Some bs => Some (b :: bs)
      | _, _ => None
      end
  end.

Definition deref_bytes (p : pointer) (n : Z) : option (list Z) :=
  match p with
  | None => None
  | Some (obj, off) => load_bytes obj off (Z.to_nat n)
  end.

Definition bytes_eqb (a b : list Z) : bool :=
  if list_eq_dec Z.eq_dec a b then true else false.

(** [memcmp (p, q, n) == 0].  Both operands must be [n] readable bytes. *)
Definition memcmp_eq0 (p q : pointer) (n : Z) : outcome bool :=
  a <- of_option (deref_bytes p n) ;;
  b <- of_option (deref_bytes q n) ;;
  Done (bytes_eqb a b).

(** [for (uint8_t i = i0; i < bound; i += step) if (body i) return true;]
    followed by [return false]: the shape of all three matcher loops.
    The comparison is on [int]; the increment wraps to eight bits. *)
Fixpoint for_uint8 (fuel : nat) (i bound step : Z)
    (body : Z -> outcome bool) : outcome bool :=
  match fuel with
  | O => Timeout
  | S fuel' =>
      if i <? bound then
        found <- body i ;;
        if found : bool then Done true
        else for_uint8 fuel' (to_uint8 (i + step)) bound step body
      else Done false
  end.

(* ------------------------------------------------------------------ *)
(** ** The UUID matchers *)

Definition filter_service_data_uuid (fuel : nat) (uuid_size : Z)
    (ad_data : pointer) (uuid_array_length : Z) (uuid_array : pointer)
  : outcome bool :=
  for_uint8 fuel 0 uuid_array_length uuid_size
    (fun i => memcmp_eq0 ad_data (ptr_add uuid_array i) uuid_size).

Definition sl_filter_list_of_service_class_uuids (fuel : nat) (uuid_size : Z)
    (ad_len : Z) (ad_data : pointer)
    (uuid_array_length : Z) (uuid_array : pointer)
  : outcome bool :=
  for_uint8 fuel 0 (ad_len - 1) uuid_size
    (fun i =>
       for_uint8 fuel 0 uuid_array_length uuid_size
         (fun j => memcmp_eq0 (ptr_add ad_data i) (ptr_add uuid_array j)
                              uuid_size)).

Definition resolve (st : filter_state) (p : option filter_pointer) : pointer :=
  match p with
  | None => None
  | Some (o, off) => Some (object_bytes st o, off)
  end.

Definition accepted_status (accepted : bool)
  : sl_btctrl_hci_event_filter_status :=
  if accepted then ACCEPT else DISCARD.

Definition filter_16bit_service (st : filter_state) (fuel : nat)
    (ad_data : pointer) : outcome sl_btctrl_hci_event_filter_status :=
  let uuid_array_length :=
    uuid_array_length (uuids_16bit (hci_event_filter st)) in
  let uuid_array := resolve st (uuid_array (uuids_16bit (hci_event_filter st))) in
  accepted <- filter_service_data_uuid fuel 2 ad_data
                uuid_array_length uuid_array ;;
  Done (accepted_status accepted).

Definition filter_32bit_service (st : filter_state) (fuel : nat)
    (ad_data : pointer) : outcome sl_btctrl_hci_event_filter_status :=
  let uuid_array_length :=
    uuid_array_length (uuids_32bit (hci_event_filter st)) in
  let uuid_array := resolve st (uuid_array (uuids_32bit (hci_event_filter st))) in
  accepted <- filter_service_data_uuid fuel 4 ad_data
                uuid_array_length uuid_array ;;
  Done (accepted_status accepted).

Definition filter_16bit_list (st : filter_state) (fuel : nat)
    (ad_len : Z) (ad_data : pointer)
  : outcome sl_btctrl_hci_event_filter_status :=
  let uuid_array_length :=
    uuid_array_length (uuids_16bit (hci_event_filter st)) in
  let uuid_array := resolve st (uuid_array (uuids_16bit (hci_event_filter st))) in
  accepted <- sl_filter_list_of_service_class_uuids fuel 2 ad_len ad_data
                uuid_array_length uuid_array ;;
  Done (accepted_status accepted).

Definition filter_32bit_list (st : filter_state) (fuel : nat)
    (ad_len : Z) (ad_data : pointer)
  : outcome sl_btctrl_hci_event_filter_status :=
  let uuid_array_length :=
    uuid_array_length (uuids_32bit (hci_event_filter st)) in
  let uuid_array := resolve st (uuid_array (uuids_32bit (hci_event_filter st))) in
  accepted <- sl_filter_list_of_service_class_uuids fuel 4 ad_len ad_data
                uuid_array_length uuid_array ;;
  Done (accepted_status accepted).

(** [config & (1 << bit)] as a C condition. *)
Definition config_bit (config bit : Z) : bool :=
  negb (Z.land config (Z.shiftl 1 bit) =? 0).

Definition filter_ad_structure (st : filter_state) (fuel : nat)
    (uuid_16bit_service uuid_32bit_service
     uuid_16bit_incomplete uuid_16bit_complete
     uuid_32bit_incomplete uuid_32bit_complete : bool)
    (ad_len : Z) (ad_data : pointer)
  : outcome sl_btctrl_hci_event_filter_status :=
  let config := filter_config (hci_event_filter st) in
  if config_bit config SL_BT_HCI_FILTER_CONFIG_SERVICE_DATA_UUID_16_BIT_ENABLE
     && uuid_16bit_service
  then filter_16bit_service st fuel ad_data
  else if config_bit config SL_BT_HCI_FILTER_CONFIG_SERVICE_DATA_UUID_32_BIT_ENABLE
          && uuid_32bit_service
  then filter_32bit_service st fuel ad_data
  else if config_bit config SL_BT_HCI_FILTER_CONFIG_INCOMPLETE_UUID_16_BIT_ENABLE
          && uuid_16bit_incomplete
  then filter_16bit_list st fuel ad_len ad_data
  else if config_bit config SL_BT_HCI_FILTER_CONFIG_COMPLETE_UUID_16_BIT_ENABLE
          && uuid_16bit_complete
  then filter_16bit_list st fuel ad_len ad_data
  else if config_bit config SL_BT_HCI_FILTER_CONFIG_INCOMPLETE_UUID_32_BIT_ENABLE
          && uuid_32bit_incomplete
  then filter_32bit_list st fuel ad_len ad_data
  else if config_bit config SL_BT_HCI_FILTER_CONFIG_COMPLETE_UUID_32_BIT_ENABLE
          && uuid_32bit_complete
  then filter_32bit_list st fuel ad_len ad_data
  else Done DISCARD.

(* ------------------------------------------------------------------ *)
(** ** Boundary of the event transport *)

(** Modelled from the spec: the event-transport layer of
    [sl_btctrl_hci_event.h] "delivers raw event bytes and opcode/length
    metadata" and is not in the sources.  An event is what its accessors
    yield: the opcode pair of [sl_btctrl_hci_event_get_opcode], the
    parameter length of [sl_btctrl_hci_event_get_length] ([None] when the
    status is not [SL_STATUS_OK]) and the packet bytes, event code first,
    that [sl_btctrl_hci_event_get_parameters] copies out.  The three are
    independent, so an event may announce any length over any bytes. *)
Record sl_btctrl_hci_event := {
  event_opcode : option (Z * Z);
  event_length : option Z;
  event_parameters : option (list Z)
}.

(** Modelled from the spec: [sl_btctrl_hci_event_get_parameters] at offset
    0 copies at most [buffer_size] bytes of the packet; the result is the
    copied bytes, whose number is [bytes_copied]. *)
Definition sl_btctrl_hci_event_get_parameters
    (event : sl_btctrl_hci_event) (buffer_size : Z) : option (list Z) :=
  option_map (firstn (Z.to_nat buffer_size)) (event_parameters event).

(** The local [buffer], zero-initialised, after [copied] was written to
    its start. *)
Definition buffer_after_copy (copied : list Z) : list Z :=
  copied ++ zeros (HCI_ADV_REPORT_MAX_LEN - List.length copied).

(** The same when the number of bytes to copy was not limited to the
    size of the buffer: a longer copy overruns it. *)
Definition fill_buffer (copied : list Z) : outcome (list Z) :=
  if (HCI_ADV_REPORT_MAX_LEN <? List.length copied)%nat then Fault
  else Done (buffer_after_copy copied).

(** [ext_adv_report->event_type & (1 << 5)]. *)
Definition incomplete_flag (buffer : list Z) : bool :=
  negb (Z.land (uint16_at buffer OFFSET_event_type) (Z.shiftl 1 5) =? 0).

Definition report_rssi (buffer : list Z) : Z :=
  to_int8 (byte_at buffer OFFSET_rssi).

Definition report_data_length (buffer : list Z) : Z :=
  byte_at buffer OFFSET_data_length.

Definition report_data (buffer : list Z) : list Z := skipn OFFSET_data buffer.

Definition is_extended_advertising_report (opcode subevent_opcode : Z) : bool :=
  (opcode =? HCI_EVENT_LE_META_EVENT)
  && (subevent_opcode =? HCI_EVENT_LE_EXTENDED_ADVERTISING_REPORT).

(* ------------------------------------------------------------------ *)
(** ** The RSSI stage *)

Definition filter_by_rssi (st : filter_state) (event : sl_btctrl_hci_event)
  : sl_btctrl_hci_event_filter_status :=
  if Z.land (filter_config (hci_event_filter st))
            SL_BT_HCI_FILTER_CONFIG_RSSI_ENABLE_MASK =? 0
  then ACCEPT
  else
    match event_opcode event with
    | None => DISCARD
    | Some (opcode, subevent_opcode) =>
      if negb (is_extended_advertising_report opcode subevent_opcode)
      then ACCEPT
      else
        match event_length event with
        | None => DISCARD
        | Some len =>
          if len <? RSSI_OFFSET then DISCARD
          else
            match sl_btctrl_hci_event_get_parameters
                    event (Z.of_nat HCI_ADV_REPORT_MAX_LEN) with
            | None => DISCARD
            | Some copied =>
              let buffer := buffer_after_copy copied in
              if Z.of_nat (List.length copied) <? RSSI_OFFSET
              then DISCARD
              else if report_rssi buffer
                      <? rssi_threshold (hci_event_filter st)
              then DISCARD
              else ACCEPT
            end
        end
    end.

(* ------------------------------------------------------------------ *)
(** ** The UUID stage *)

Definition is_ad_type (ad_type t : Z) : bool := ad_type =? t.

(** The [while (data_len != 0)] loop of [filter_by_uuid].  [fuel] bounds
    this loop, [mfuel] the loops of the matchers it calls. *)
Fixpoint scan_ad_structures (fuel mfuel : nat) (st : filter_state)
    (data : list Z) (data_len current_idx : Z)
  : outcome sl_btctrl_hci_event_filter_status :=
  match fuel with
  | O => Timeout
  | S fuel' =>
    if data_len =? 0 then Done DISCARD
    else
      ad_len <- of_option (load data current_idx) ;;
      ad_type <- of_option (load data (current_idx + 1)) ;;
      let ad_data : pointer := Some (data, current_idx + 2) in
      if ad_len >? data_len then Done DISCARD
      else
        let uuid_16bit_service :=
          is_ad_type ad_type SL_BT_HCI_AD_TYPE_SERVICE_DATA_UUID_16_BIT in
        let uuid_32bit_service :=
          is_ad_type ad_type SL_BT_HCI_AD_TYPE_SERVICE_DATA_UUID_32_BIT in
        let uuid_16bit_incomplete :=
          is_ad_type ad_type
            SL_BT_HCI_AD_TYPE_INCOMPLETE_SERVICE_CLASS_UUID_16_BIT in
        let uuid_16bit_complete :=
          is_ad_type ad_type
            SL_BT_HCI_AD_TYPE_COMPLETE_SERVICE_CLASS_UUID_16_BIT in
        let uuid_32bit_incomplete :=
          is_ad_type ad_type
            SL_BT_HCI_AD_TYPE_INCOMPLETE_SERVICE_CLASS_UUID_32_BIT in
        let uuid_32bit_complete :=
          is_ad_type ad_type
            SL_BT_HCI_AD_TYPE_COMPLETE_SERVICE_CLASS_UUID_32_BIT in
        let apply_filter :=
          uuid_16bit_service || uuid_32bit_service
          || uuid_16bit_incomplete || uuid_16bit_complete
          || uuid_32bit_incomplete || uuid_32bit_complete in
        status <-
          (if apply_filter
           then filter_ad_structure st mfuel
                  uuid_16bit_service uuid_32bit_service
                  uuid_16bit_incomplete uuid_16bit_complete
                  uuid_32bit_incomplete uuid_32bit_complete
                  ad_len ad_data
           else Done DISCARD) ;;
        match status with
        | ACCEPT => Done ACCEPT
        | DISCARD =>
            scan_ad_structures fuel' mfuel st data
              (to_uint8 (data_len - (ad_len + 1)))
              (to_uint8 (current_idx + (ad_len + 1)))
        end
  end.

Definition set_incomplete (st : filter_state) (b : bool) : filter_state :=
  {| hci_event_filter := hci_event_filter st;
     work_filter := work_filter st;
     advertisment_report_incomplete := b |}.

(** The part of [filter_by_uuid] that follows the copy into [buffer]:
    the fragment tracker, then the scan. *)
Definition filter_report_by_uuid (fuel : nat) (st : filter_state)
    (buffer : list Z)
  : outcome (sl_btctrl_hci_event_filter_status * filter_state) :=
  if negb (advertisment_report_incomplete st) && incomplete_flag buffer
  then Done (ACCEPT, set_incomplete st true)
  else if advertisment_report_incomplete st && negb (incomplete_flag buffer)
  then Done (ACCEPT, set_incomplete st false)
  else
    status <- scan_ad_structures fuel fuel st (report_data buffer)
                (report_data_length buffer) 0 ;;
    Done (status, st).

Definition filter_by_uuid (fuel : nat) (st : filter_state)
    (event : sl_btctrl_hci_event)
  : outcome (sl_btctrl_hci_event_filter_status * filter_state) :=
  let mask := Z.land SL_BT_HCI_FILTER_CONFIG_MASK
                     (Z.lnot SL_BT_HCI_FILTER_CONFIG_RSSI_ENABLE_MASK) in
  if Z.land (filter_config (hci_event_filter st)) mask =? 0
  then Done (ACCEPT, st)
  else
    match event_opcode event with
    | None => Done (DISCARD, st)
    | Some (opcode, subevent_opcode) =>
      if negb (is_extended_advertising_report opcode subevent_opcode)
      then Done (ACCEPT, st)
      else
        match event_length event with
        | None => Done (DISCARD, st)
        | Some len =>
          match sl_btctrl_hci_event_get_parameters event (len + 2) with
          | None => Done (DISCARD, st)
          | Some copied =>
            buffer <- fill_buffer copied ;;
            if negb (Z.of_nat (List.length copied) =? len + 2)
            then Done (DISCARD, st)
            else filter_report_by_uuid fuel st buffer
          end
        end
    end.

(** Modelled from the spec: the host's event-filter-chain framework is
    external; it "is responsible for invoking all registered stages and
    propagating the event only if every stage accepts".  The stages are
    run in their registration order, RSSI first. *)
Definition filter_event (fuel : nat) (st : filter_state)
    (event : sl_btctrl_hci_event)
  : outcome (sl_btctrl_hci_event_filter_status * filter_state) :=
  r <- filter_by_uuid fuel st event ;;
  Done (match filter_by_rssi st event, fst r with
        | ACCEPT, ACCEPT => ACCEPT
        | _, _ => DISCARD
        end, snd r).

(* ------------------------------------------------------------------ *)
(** ** Vocabulary of the statements *)

(** The bytes of an active UUID list, read through its pointer. *)
Definition uuid_list_bytes (st : filter_state) (u : sli_btctrl_hci_event_uuid)
  : option (list Z) :=
  if uuid_array_length u =? 0 then Some []
  else deref_bytes (resolve st (uuid_array u)) (uuid_array_length u).


(** The configuration command layout as the design document words it:
    byte 5 counts 16-bit UUIDs, the list takes twice that many bytes from
    offset 6, and the 32-bit count follows it. *)
Definition layout_as_documented (cap16 cap32 : Z) (b : list Z) : Prop :=
  forall st st',
    sl_btctrl_hci_event_configure_filtering cap16 cap32 st
      (Some (CALLER_FILTER b)) = (SL_STATUS_OK, st') ->
    let uuid16_count := byte_at b 5 in
    uuid_array_length (uuids_16bit (hci_event_filter st')) = 2 * uuid16_count
    /\ uuid_array_length (uuids_32bit (hci_event_filter st'))
       = byte_at b (6 + 2 * Z.to_nat uuid16_count).

(** A command laid out as documented, for a build with room for two
    16-bit and four 32-bit UUIDs: rules 1 and 4, two 16-bit UUIDs
    (0x180F, 0x180A), one 32-bit UUID (0x0000180A). *)
Definition documented_command : list Z :=
  [0x12; 0; 0; 0;  0;  2; 0x0F; 0x18; 0x0A; 0x18;  1; 0x0A; 0x18; 0; 0]
  ++ zeros 12.

(** The rejection of short commands as the design document words it: a
    command with fewer bytes than the two length bytes it is parsed with
    announce is answered with the error code. *)
Definition short_commands_rejected (cap16 cap32 : Z) : Prop :=
  forall st hcimsg length work_filter',
    message_opcode hcimsg = Some SL_BT_HCI_CONFIGURE_FILTERING_OPCODE ->
    message_length hcimsg = Some length ->
    sl_btctrl_hci_message_get_parameters hcimsg (work_filter st) length
    = Some work_filter' ->
    length < 5 + 1 + user_data work_filter' 0
             + 1 + user_data work_filter' (user_data work_filter' 0 + 1) ->
    snd (fst (hci_configure_filter_command cap16 cap32 st hcimsg))
    = Some BT_ERR_INVALID.

(** A six-byte command: rule 1, threshold 0, a 16-bit list length of 2,
    and nothing after it. *)
Definition short_command : sl_btctrl_hci_message :=
  {| message_opcode := Some SL_BT_HCI_CONFIGURE_FILTERING_OPCODE;
     message_length := Some 6;
     message_parameters := Some [2; 0; 0; 0; 0; 2] |}.

(** Some rule other than the RSSI rule is enabled. *)
Definition uuid_rules_enabled (st : filter_state) : bool :=
  negb (Z.land (filter_config (hci_event_filter st))
               (Z.land SL_BT_HCI_FILTER_CONFIG_MASK
                       (Z.lnot SL_BT_HCI_FILTER_CONFIG_RSSI_ENABLE_MASK)) =? 0).

(** [event] is an Extended Advertising Report that the UUID stage decodes
    into [buffer]: both opcodes fit, and the transport hands over exactly
    the [len + 2] bytes it announced, which fit into the local buffer. *)
Definition decoded_report (event : sl_btctrl_hci_event) (buffer : list Z)
  : Prop :=
  exists len pkt,
    event_opcode event
    = Some (HCI_EVENT_LE_META_EVENT, HCI_EVENT_LE_EXTENDED_ADVERTISING_REPORT)
    /\ event_length event = Some len
    /\ event_parameters event = Some pkt
    /\ 0 <= len + 2 <= Z.of_nat (length pkt)
    /\ len + 2 <= Z.of_nat HCI_ADV_REPORT_MAX_LEN
    /\ buffer = buffer_after_copy (firstn (Z.to_nat (len + 2)) pkt).

(** An AD structure as the scanner yields it; the payload is borrowed
    from the blob, so it is named by the index of its first byte. *)
Record AdStructure := {
  ad_length : Z;
  ad_type : Z;
  ad_payload : Z
}.

(** The two shapes of matching and the rule table of the design
    document: AD type, rule bit, UUID width in bytes, shape. *)
Inductive matcher_shape := ServiceData | ServiceClassList.

Definition rule_of_ad_type (ty : Z) : option (Z * Z * matcher_shape) :=
  if ty =? 0x16 then Some (1, 2, ServiceData)
  else if ty =? 0x02 then Some (2, 2, ServiceClassList)
  else if ty =? 0x03 then Some (3, 2, ServiceClassList)
  else if ty =? 0x20 then Some (4, 4, ServiceData)
  else if ty =? 0x04 then Some (5, 4, ServiceClassList)
  else if ty =? 0x05 then Some (6, 4, ServiceClassList)
  else None.

Definition configured_list (st : filter_state) (width : Z)
  : sli_btctrl_hci_event_uuid :=
  if width =? 2 then uuids_16bit (hci_event_filter st)
  else uuids_32bit (hci_event_filter st).

(** "The AD structure falls under an enabled rule and its matcher
    reports a match." *)
Definition ad_structure_matches (st : filter_state) (fuel : nat)
    (data : list Z) (ad : AdStructure) : outcome bool :=
  match rule_of_ad_type (ad_type ad) with
  | None => Done false
  | Some (bit, width, shape) =>
      if config_bit (filter_config (hci_event_filter st)) bit then
        let u := configured_list st width in
        match shape with
        | ServiceData =>
            filter_service_data_uuid fuel width
              (Some (data, ad_payload ad))
              (uuid_array_length u) (resolve st (uuid_array u))
        | ServiceClassList =>
            sl_filter_list_of_service_class_uuids fuel width
              (ad_length ad) (Some (data, ad_payload ad))
              (uuid_array_length u) (resolve st (uuid_array u))
        end
      else Done false
  end.

(** The AD structure falls under an enabled rule whose configured list
    is empty, or under no enabled rule at all. *)
Definition under_empty_list_rule (st : filter_state) (ad : AdStructure)
  : Prop :=
  match rule_of_ad_type (ad_type ad) with
  | None => True
  | Some (bit, width, _) =>
      config_bit (filter_config (hci_event_filter st)) bit = true ->
      uuid_array_length (configured_list st width) = 0
  end.

(** ** Example reports *)

(** The 28 bytes that precede the AD data of a single report: event code
    0x3e, length, sub-event 0x0d, one report, then the report's fields. *)
Definition report_header (length event_type_low rssi data_length : Z)
  : list Z :=
  [0x3e; length; 0x0d; 1; event_type_low; 0; 0; 1; 2; 3; 4; 5; 6; 1; 1; 0;
   0; rssi; 0; 0; 0; 0; 0; 0; 0; 0; 0; data_length].

(** The event whose packet is [header ++ data], announced truthfully. *)
Definition report_event (event_type_low rssi data_length : Z)
    (data : list Z) : sl_btctrl_hci_event :=
  let length := 26 + Z.of_nat (List.length data) in
  {| event_opcode :=
       Some (HCI_EVENT_LE_META_EVENT, HCI_EVENT_LE_EXTENDED_ADVERTISING_REPORT);
     event_length := Some length;
     event_parameters :=
       Some (report_header length event_type_low rssi data_length ++ data) |}.

(** A configuration with the 16-bit service-data rule enabled and the
    single UUID 0x180F in caller-owned storage. *)
Definition battery_filter : list Z := [2; 0; 0; 0; 0; 2; 0x0F; 0x18; 0].

Definition battery_state : filter_state :=
  {| hci_event_filter :=
       {| filter_config := 2;
          rssi_threshold := 0;
          uuids_16bit :=
            {| uuid_array_length := 2;
               uuid_array := Some (CALLER_FILTER battery_filter, 6) |};
          uuids_32bit := {| uuid_array_length := 0; uuid_array := None |} |};
     work_filter := zeros 9;
     advertisment_report_incomplete := false |}.

(** A configuration with the 16-bit service-data rule enabled and both
    lists empty. *)
Definition empty_list_state : filter_state :=
  {| hci_event_filter :=
       {| filter_config := 2;
          rssi_threshold := 0;
          uuids_16bit := {| uuid_array_length := 0; uuid_array := None |};
          uuids_32bit := {| uuid_array_length := 0; uuid_array := None |} |};
     work_filter := zeros 7;
     advertisment_report_incomplete := false |}.

(** Idempotence as the design document words it: two runs of both
    stages on one report give one verdict. *)
Definition stages_idempotent : Prop :=
  forall fuel st event v1 st1 v2 st2,
    filter_event fuel st event = Done (v1, st1) ->
    filter_event fuel st1 event = Done (v2, st2) ->
    v2 = v1.

(** The first fragment of a chain, carrying an unrelated UUID. *)
Definition first_fragment_event : sl_btctrl_hci_event :=
  report_event 32 0 4 [3; 0x16; 0x0A; 0x18].

(** Reports whose AD data is declared one byte long and holds the length
    byte 1: the structure announces a type byte that the blob does not
    have.  They differ only in what the packet carries after the blob. *)
Definition overrun_event : sl_btctrl_hci_event :=
  report_event 0 0 1 [1].

Definition overrun_accept_event : sl_btctrl_hci_event :=
  report_event 0 0 1 [1; 0; 3; 0x16; 0x0F; 0x18].

Definition overrun_discard_event : sl_btctrl_hci_event :=
  report_event 0 0 1 [1; 0; 254; 0].

Definition overrun_spin_event : sl_btctrl_hci_event :=
  report_event 0 0 1 [1; 0; 255; 0].

(** A report that declares 255 bytes of AD data, the first of which is
    the length byte 255. *)
Definition full_length_spin_event : sl_btctrl_hci_event :=
  report_event 0 0 255 [255; 0].

(* ------------------------------------------------------------------ *)
(** ** Vocabulary of the further properties *)

(** What the validator checks before it installs a buffer. *)
Definition acceptable_filter (cap16 cap32 : Z) (b : list Z) : Prop :=
  Z.land (user_config b) (Z.lnot SL_BT_HCI_FILTER_CONFIG_MASK) = 0
  /\ (Z.land (user_config b) SL_BT_HCI_FILTER_CONFIG_RSSI_ENABLE_MASK <> 0 ->
      SL_BT_HCI_FILTER_RSSI_MIN <= user_rssi_threshold b
      <= SL_BT_HCI_FILTER_RSSI_MAX)
  /\ byte_at b 5 <= cap16
  /\ byte_at b (6 + Z.to_nat (byte_at b 5)) <= cap32.

(** The buffer holds every byte the validator may read: the mask, the
    threshold, the first length byte, the first list and the second
    length byte behind it. *)
Definition filter_readable (b : list Z) : Prop :=
  7 + byte_at b 5 <= Z.of_nat (length b).

(** A list view is either empty with a null pointer, or non-empty and
    pointing at [offset] of some filter object. *)
Definition list_view_at (u : sli_btctrl_hci_event_uuid) (offset : Z) : Prop :=
  (uuid_array_length u = 0 /\ uuid_array u = None)
  \/ (0 < uuid_array_length u /\ exists o, uuid_array u = Some (o, offset)).

(** The shape every installed filter record has. *)
Definition filter_valid (cap16 cap32 : Z) (flt : sli_btctrl_hci_event_filter)
  : Prop :=
  0 <= filter_config flt <= SL_BT_HCI_FILTER_CONFIG_MASK
  /\ (Z.land (filter_config flt) SL_BT_HCI_FILTER_CONFIG_RSSI_ENABLE_MASK
      <> 0 ->
      SL_BT_HCI_FILTER_RSSI_MIN <= rssi_threshold flt
      <= SL_BT_HCI_FILTER_RSSI_MAX)
  /\ 0 <= uuid_array_length (uuids_16bit flt) <= cap16
  /\ 0 <= uuid_array_length (uuids_32bit flt) <= cap32
  /\ list_view_at (uuids_16bit flt) 6
  /\ list_view_at (uuids_32bit flt)
       (7 + uuid_array_length (uuids_16bit flt))
  /\ 7 + uuid_array_length (uuids_16bit flt)
       + uuid_array_length (uuids_32bit flt)
     <= SIZEOF_sli_work_filter cap16 cap32.

(** The entry points of the file that touch the statics, and the states
    they can lead to from start-up. *)
Inductive operation :=
| Configure (filter : option filter_object)
| Command (hcimsg : sl_btctrl_hci_message)
| Report (fuel : nat) (event : sl_btctrl_hci_event).

Inductive step (cap16 cap32 : Z) (st : filter_state)
  : operation -> filter_state -> Prop :=
| step_configure filter :
    step cap16 cap32 st (Configure filter)
      (snd (sl_btctrl_hci_event_configure_filtering cap16 cap32 st filter))
| step_command hcimsg :
    step cap16 cap32 st (Command hcimsg)
      (snd (hci_configure_filter_command cap16 cap32 st hcimsg))
| step_report fuel event verdict st' :
    filter_by_uuid fuel st event = Done (verdict, st') ->
    step cap16 cap32 st (Report fuel event) st'.

Inductive reachable (cap16 cap32 : Z) : filter_state -> Prop :=
| reachable_init :
    reachable cap16 cap32 (sli_bt_hci_filter_init (static_state cap16 cap32))
| reachable_step st op st' :
    reachable cap16 cap32 st ->
    step cap16 cap32 st op st' ->
    reachable cap16 cap32 st'.

(** The [j]-th UUID of width [uuid_size] behind a pointer. *)
Definition uuid_at (p : pointer) (uuid_size j : Z) : option (list Z) :=
  deref_bytes (ptr_add p (j * uuid_size)) uuid_size.

(** The leading AD structures of a blob: [ads] lie one after the other
    from [pos], each inside what remains, and end at [pos'] with
    [remaining'] bytes left. *)
Inductive ad_prefix (data : list Z)
  : Z -> Z -> list AdStructure -> Z -> Z -> Prop :=
| ad_prefix_nil pos remaining :
    ad_prefix data pos remaining [] pos remaining
| ad_prefix_cons pos remaining len ty rest pos' remaining' :
    0 < remaining ->
    load data pos = Some len ->
    load data (pos + 1) = Some ty ->
    len + 1 <= remaining ->
    ad_prefix data (pos + (len + 1)) (remaining - (len + 1)) rest
      pos' remaining' ->
    ad_prefix data pos remaining
      ({| ad_length := len; ad_type := ty; ad_payload := pos + 2 |} :: rest)
      pos' remaining'.

(** The report cannot be decoded by the RSSI stage. *)
Definition rssi_undecodable (event : sl_btctrl_hci_event) : Prop :=
  event_length event = None
  \/ (exists len, event_length event = Some len /\ len < RSSI_OFFSET)
  \/ event_parameters event = None
  \/ (exists pkt, event_parameters event = Some pkt
                  /\ Z.of_nat (length pkt) < RSSI_OFFSET).

(** The report cannot be decoded by the UUID stage: the length or the
    bytes are unavailable, or fewer bytes than announced are handed
    over. *)
Definition uuid_undecodable (event : sl_btctrl_hci_event) : Prop :=
  event_length event = None
  \/ (exists len, event_length event = Some len
                  /\ event_parameters event = None)
  \/ (exists len pkt,
         event_length event = Some len
         /\ event_parameters event = Some pkt
         /\ (len + 2 < 0
             \/ (Z.of_nat (length pkt) < len + 2
                 /\ (length pkt <= HCI_ADV_REPORT_MAX_LEN)%nat))).

(** A configuration with the rule for complete lists of 32-bit UUIDs
    enabled and the single UUID 0x0000180A in caller-owned storage. *)
Definition device_information_filter : list Z :=
  [0x40; 0; 0; 0; 0; 0; 4; 0x0A; 0x18; 0; 0; 0; 0].

Definition device_information_state : filter_state :=
  snd (sl_btctrl_hci_event_configure_filtering 2 4 (static_state 2 4)
         (Some (CALLER_FILTER device_information_filter))).

(* ------------------------------------------------------------------ *)
(** ** The circular queue of [circular_queue_manager.c]

    The queue manages indices only; the slots are the caller's.  Every
    function asserts a non-null handle, so the handle is the record
    itself here, and each function body runs inside a critical section,
    so one call is one step. *)

Definition EFR32_INVALID_QUEUE_INDEX : Z := 0xFF.
Definition CIRCULAR_QUEUE_SIZE_MIN : Z := 2.

Record efr32CircularQueue_t := {
  maxSize : Z;
  head : Z;
  tail : Z;
  isFull : bool
}.

(** [None] is a failed [OT_ASSERT]. *)
Definition efr32CircularQueueInit (aQueueSize : Z)
  : option efr32CircularQueue_t :=
  if to_uint8 aQueueSize <? CIRCULAR_QUEUE_SIZE_MIN then None
  else Some {| maxSize := to_uint8 aQueueSize;
               head := 0;
               tail := 0;
               isFull := false |}.

Definition efr32CircularQueueIsFull (q : efr32CircularQueue_t) : bool :=
  isFull q.

Definition efr32CircularQueueIsEmpty (q : efr32CircularQueue_t) : bool :=
  (head q =? tail q) && negb (efr32CircularQueueIsFull q).

(** The returned index and the queue afterwards.  [otEXPECT] leaves
    through [exit] without touching the queue. *)
Definition efr32CircularQueueGetFreeIndex (q : efr32CircularQueue_t)
  : Z * efr32CircularQueue_t :=
  let freeIndex :=
    if efr32CircularQueueIsFull q then EFR32_INVALID_QUEUE_INDEX
    else head q in
  if freeIndex <? maxSize q then
    let head' := to_uint8 ((head q + 1) mod maxSize q) in
    (freeIndex,
     {| maxSize := maxSize q;
        head := head';
        tail := tail q;
        isFull := head' =? tail q |})
  else (freeIndex, q).

Definition efr32CircularQueueGetNextInuseIndex (q : efr32CircularQueue_t)
  : Z :=
  if efr32CircularQueueIsEmpty q then EFR32_INVALID_QUEUE_INDEX
  else tail q.

(** [None] is the division by a [maxSize] of zero. *)
Definition efr32CircularQueueFreeIndex (q : efr32CircularQueue_t)
  : option efr32CircularQueue_t :=
  if maxSize q =? 0 then None
  else Some {| maxSize := maxSize q;
               head := head q;
               tail := to_uint8 ((tail q + 1) mod maxSize q);
               isFull := false |}.

(** What an initialised queue looks like. *)
Definition queue_wf (q : efr32CircularQueue_t) : Prop :=
  CIRCULAR_QUEUE_SIZE_MIN <= maxSize q <= 255
  /\ 0 <= head q < maxSize q
  /\ 0 <= tail q < maxSize q
  /\ (isFull q = true -> head q = tail q).

(** The indices handed out and not yet released, oldest first. *)
Definition in_use_count (q : efr32CircularQueue_t) : Z :=
  if isFull q then maxSize q else (head q - tail q) mod maxSize q.

Definition in_use (q : efr32CircularQueue_t) : list Z :=
  map (fun k => (tail q + Z.of_nat k) mod maxSize q)
      (seq 0 (Z.to_nat (in_use_count q))).

(* ------------------------------------------------------------------ *)
(** ** The millisecond ticks of [system-timer.c]

    The reading of [clock_gettime (CLOCK_MONOTONIC, ...)] is the
    argument: [None] when the call fails, which the assertion turns into
    an abort.  The sum is computed in [time_t], taken as a 64-bit
    integer, and cast to [uint32_t]. *)

Record timespec := {
  tv_sec : Z;
  tv_nsec : Z
}.

Definition to_uint16 (z : Z) : Z := z mod 65536.
Definition to_uint32 (z : Z) : Z := z mod 4294967296.

Definition halCommonGetInt32uMillisecondTick (clock : option timespec)
  : option Z :=
  match clock with
  | None => None
  | Some ts =>
      Some (to_uint32 (tv_sec ts * 1000 + Z.quot (tv_nsec ts) 1000000))
  end.

Definition halCommonGetInt16uMillisecondTick (clock : option timespec)
  : option Z :=
  option_map to_uint16 (halCommonGetInt32uMillisecondTick clock).

Definition halCommonGetInt16uQuarterSecondTick (clock : option timespec)
  : option Z :=
  option_map (fun now => to_uint16 (Z.shiftr now 8))
             (halCommonGetInt32uMillisecondTick clock).

(** The milliseconds a clock reading stands for. *)
Definition milliseconds (ts : timespec) : Z :=
  tv_sec ts * 1000 + tv_nsec ts / 1000000.

(** A reading of the monotonic clock: seconds not negative and small
    enough for the product with 1000 to fit the 64-bit [time_t] in which
    the source computes it, nanoseconds below one second. *)
Definition timespec_wf (ts : timespec) : Prop :=
  0 <= tv_sec ts < 9223372036854775 /\ 0 <= tv_nsec ts < 1000000000.

(* ------------------------------------------------------------------ *)
(** ** The identify feedback plugin ([identify-feedback.c])

    The state is the table of identifying endpoints together with the
    calls the plugin has issued on its event, newest first.  The event
    framework and the endpoint lookup are outside the file: the
    callbacks take the index that
    [emberAfFindClusterServerEndpointIndex] returned, and the calls on
    the event are recorded, not interpreted.  The LED toggles of the
    handler are configuration dependent and are left out. *)

Section IdentifyFeedback.

Variable MILLISECOND_TICKS_PER_SECOND : Z.

Inductive event_call :=
| sl_zigbee_event_set_delay_ms (delay : Z)
| sl_zigbee_event_set_inactive.

Record feedback_state := {
  identifyTable : list bool;
  event_calls : list event_call
}.

Fixpoint haveIdentifyingEndpoint (table : list bool) : bool :=
  match table with
  | [] => false
  | b :: rest => if b then true else haveIdentifyingEndpoint rest
  end.

(** [identifyTable[ep] = v]; a write outside the table has no defined
    result. *)
Definition identifyTable_store (table : list bool) (ep : Z) (v : bool)
  : option (list bool) :=
  if (0 <=? ep) && (ep <? Z.of_nat (length table))
  then Some (firstn (Z.to_nat ep) table ++ v :: skipn (S (Z.to_nat ep)) table)
  else None.

Definition emberAfPluginIdentifyFeedbackProvideFeedbackEventHandler
  (st : feedback_state) : feedback_state :=
  {| identifyTable := identifyTable st;
     event_calls :=
       sl_zigbee_event_set_delay_ms MILLISECOND_TICKS_PER_SECOND
       :: event_calls st |}.

Definition emberAfPluginIdentifyStartFeedbackCallback
  (ep : Z) (st : feedback_state) : option feedback_state :=
  if ep =? 255 then Some st
  else
    let calls :=
      if negb (haveIdentifyingEndpoint (identifyTable st))
      then sl_zigbee_event_set_delay_ms MILLISECOND_TICKS_PER_SECOND
           :: event_calls st
      else event_calls st in
    match identifyTable_store (identifyTable st) ep true with
    | Some table => Some {| identifyTable := table; event_calls := calls |}
    | None => None
    end.

Definition emberAfPluginIdentifyStopFeedbackCallback
  (ep : Z) (st : feedback_state) : option feedback_state :=
  if ep =? 255 then Some st
  else
    match identifyTable_store (identifyTable st) ep false with
    | Some table =>
        if haveIdentifyingEndpoint table
        then Some {| identifyTable := table; event_calls := event_calls st |}
        else Some {| identifyTable := table;
                     event_calls :=
                       sl_zigbee_event_set_inactive :: event_calls st |}
    | None => None
    end.

(** The last call on the event armed it. *)
Definition armed (calls : list event_call) : bool :=
  match calls with
  | sl_zigbee_event_set_delay_ms _ :: _ => true
  | _ => false
  end.

(** The table at start-up ([{ false }]) with no call issued yet. *)
Definition feedback_init (count : nat) : feedback_state :=
  {| identifyTable := repeat false count; event_calls := [] |}.

(** The states the plugin goes through: the two callbacks at any index
    the lookup may return, and the handler, which the framework runs
    only for an armed event. *)
Inductive feedback_reachable (count : nat) : feedback_state -> Prop :=
| feedback_reachable_init :
    feedback_reachable count (feedback_init count)
| feedback_reachable_start st ep st' :
    feedback_reachable count st ->
    emberAfPluginIdentifyStartFeedbackCallback ep st = Some st' ->
    feedback_reachable count st'
| feedback_reachable_stop st ep st' :
    feedback_reachable count st ->
    emberAfPluginIdentifyStopFeedbackCallback ep st = Some st' ->
    feedback_reachable count st'
| feedback_reachable_handler st :
    feedback_reachable count st ->
    armed (event_calls st) = true ->
    feedback_reachable count
      (emberAfPluginIdentifyFeedbackProvideFeedbackEventHandler st).

(** What the lookup returns for a table of [count] endpoints: an index
    into it, or 0xFF. *)
Definition endpoint_index (count : nat) (ep : Z) : Prop :=
  ep = 255 \/ 0 <= ep < Z.of_nat count.

End IdentifyFeedback.
(* ================================================================== *)
(** * Properties of the configuration path *)

Lemma to_uint8_range z : 0 <= to_uint8 z < 256.
Proof. unfold to_uint8. apply Z.mod_pos_bound. lia. Qed.

Lemma byte_at_range obj i : 0 <= byte_at obj i < 256.
Proof. apply to_uint8_range. Qed.

Lemma to_uint8_small z : 0 <= z < 256 -> to_uint8 z = z.
Proof. intro H. unfold to_uint8. apply Z.mod_small. exact H. Qed.

Lemma load_in_range obj i :
  (i < length obj)%nat -> load obj (Z.of_nat i) = Some (byte_at obj i).
Proof.
  intro H. unfold load, byte_at.
  destruct (Z.ltb_spec (Z.of_nat i) 0) as [Hneg | _]; [lia |].
  rewrite Nat2Z.id.
  destruct (nth_error obj i) as [b |] eqn:E.
  - simpl. f_equal. f_equal. symmetry. apply nth_error_nth with (d := 0) in E.
    exact E.
  - apply nth_error_None in E. lia.
Qed.

Lemma load_bytes_in_range obj n : forall off,
  (off + n <= length obj)%nat ->
  load_bytes obj (Z.of_nat off) n
  = Some (map to_uint8 (firstn n (skipn off obj))).
Proof.
  induction n as [| n IH]; intros off H.
  - reflexivity.
  - simpl load_bytes. rewrite load_in_range by lia.
    replace (Z.of_nat off + 1) with (Z.of_nat (S off)) by lia.
    rewrite IH by lia.
    assert (Hlt : (off < length obj)%nat) by lia.
    destruct (nth_error obj off) as [b |] eqn:E;
      [| apply nth_error_None in E; lia].
    assert (Hs : skipn off obj = b :: skipn (S off) obj).
    { clear - E. revert off E. induction obj as [| x obj IHo]; intros off E.
      - destruct off; discriminate.
      - destruct off as [| off].
        + simpl in E. injection E as ->. reflexivity.
        + simpl in E. apply IHo in E. simpl. exact E. }
    rewrite Hs. simpl. unfold byte_at.
    rewrite (nth_error_nth obj off 0 E). reflexivity.
Qed.

(** What a successful run of the validator makes of the buffer. *)
Lemma configure_filtering_ok cap16 cap32 st o st' :
  sl_btctrl_hci_event_configure_filtering cap16 cap32 st (Some o)
  = (SL_STATUS_OK, st') ->
  let b := object_bytes st o in
  let n16 := byte_at b 5 in
  let n32 := byte_at b (6 + Z.to_nat n16) in
  n16 <= cap16 /\ n32 <= cap32 /\
  st' = {| hci_event_filter :=
             {| filter_config := uint32_at b 0;
                rssi_threshold := to_int8 (byte_at b 4);
                uuids_16bit :=
                  {| uuid_array_length := n16;
                     uuid_array := if n16 >? 0 then Some (o, 6) else None |};
                uuids_32bit :=
                  {| uuid_array_length := n32;
                     uuid_array :=
                       if n32 >? 0 then Some (o, 7 + n16) else None |} |};
           work_filter := work_filter st;
           advertisment_report_incomplete :=
             advertisment_report_incomplete st |}.
Proof.
  unfold sl_btctrl_hci_event_configure_filtering. cbv zeta.
  destruct (negb _); [discriminate |].
  destruct (negb _ && _); [discriminate |].
  unfold user_data, OFFSET_work_data.
  change (5 + Z.to_nat 0)%nat with 5%nat.
  pose proof (byte_at_range (object_bytes st o) 5) as R.
  replace (5 + Z.to_nat (byte_at (object_bytes st o) 5 + 1))%nat
    with (6 + Z.to_nat (byte_at (object_bytes st o) 5))%nat
    by (rewrite Z2Nat.inj_add by lia; simpl (Z.to_nat 1); lia).
  destruct (Z.gtb_spec (byte_at (object_bytes st o) 5) cap16) as [| H16];
    [discriminate |].
  destruct (Z.gtb_spec (byte_at (object_bytes st o)
              (6 + Z.to_nat (byte_at (object_bytes st o) 5))) cap32)
    as [| H32]; [discriminate |].
  intro E. apply pair_equal_spec in E. destruct E as [_ <-].
  split; [exact H16 | split; [exact H32 |]].
  unfold user_config, user_rssi_threshold.
  change (Z.of_nat 5 + 1) with 6.
  replace (Z.of_nat 5 + (byte_at (object_bytes st o) 5 + 2))
    with (7 + byte_at (object_bytes st o) 5) by lia.
  reflexivity.
Qed.

Lemma configure_filtering_failure cap16 cap32 st filter :
  fst (sl_btctrl_hci_event_configure_filtering cap16 cap32 st filter)
  <> SL_STATUS_OK ->
  snd (sl_btctrl_hci_event_configure_filtering cap16 cap32 st filter) = st.
Proof.
  unfold sl_btctrl_hci_event_configure_filtering.
  destruct filter as [o |]; [| reflexivity]. cbv zeta.
  destruct (negb _); [reflexivity |].
  destruct (negb _ && _); [reflexivity |].
  destruct (_ >? cap16); [reflexivity |].
  destruct (_ >? cap32); [reflexivity |].
  simpl. congruence.
Qed.

(** ** The command layout *)

(** C2, as stated, fails: the validator accepts [documented_command] in a
    build with capacities 4 and 16 bytes, takes the 16-bit list to be 2
    bytes long (not 2*2) and reads the 32-bit length at offset 8 (not at
    6 + 2*2 = 10). *)
Lemma documented_layout_is_not_the_parsed_one :
  ~ layout_as_documented 4 16 documented_command.
Proof.
  intro H.
  specialize (H (static_state 4 16) _ eq_refl).
  destruct H as [H _]. vm_compute in H. discriminate H.
Qed.

(** C2, amended: in every buffer the validator accepts, byte 5 is the
    length in bytes of the 16-bit UUID list, which starts at offset 6;
    the length in bytes of the 32-bit list is read at offset 6 + byte 5
    and that list starts at offset 7 + byte 5.  Both lengths are within
    the capacities, and the active lists are exactly those bytes. *)
Theorem configure_filtering_layout cap16 cap32 st o st' :
  sl_btctrl_hci_event_configure_filtering cap16 cap32 st (Some o)
  = (SL_STATUS_OK, st') ->
  let b := object_bytes st o in
  let n16 := byte_at b 5 in
  let n32 := byte_at b (6 + Z.to_nat n16) in
  uuids_16bit (hci_event_filter st')
  = {| uuid_array_length := n16;
       uuid_array := if n16 >? 0 then Some (o, 6) else None |}
  /\ uuids_32bit (hci_event_filter st')
     = {| uuid_array_length := n32;
          uuid_array := if n32 >? 0 then Some (o, 7 + n16) else None |}
  /\ n16 <= cap16 /\ n32 <= cap32
  /\ ((7 + Z.to_nat n16 + Z.to_nat n32 <= length b)%nat ->
      uuid_list_bytes st' (uuids_16bit (hci_event_filter st'))
      = Some (map to_uint8 (firstn (Z.to_nat n16) (skipn 6 b)))
      /\ uuid_list_bytes st' (uuids_32bit (hci_event_filter st'))
         = Some (map to_uint8
                   (firstn (Z.to_nat n32) (skipn (7 + Z.to_nat n16) b)))).
Proof.
  intros E b n16 n32.
  destruct (configure_filtering_ok _ _ _ _ _ E) as (H16 & H32 & ->).
  fold b n16 n32. cbn [hci_event_filter uuids_16bit uuids_32bit].
  repeat split; try assumption.
  - unfold uuid_list_bytes. cbn [uuid_array_length uuid_array].
    destruct (Z.eqb_spec n16 0) as [-> | Hn]; [reflexivity |].
    pose proof (byte_at_range b 5) as R. fold n16 in R.
    destruct (Z.gtb_spec n16 0) as [_ | Hle]; [| lia].
    unfold resolve, deref_bytes.
    replace (object_bytes _ o) with b
      by (destruct o; reflexivity).
    change 6 with (Z.of_nat 6).
    apply load_bytes_in_range. lia.
  - unfold uuid_list_bytes. cbn [uuid_array_length uuid_array].
    destruct (Z.eqb_spec n32 0) as [-> | Hn]; [reflexivity |].
    pose proof (byte_at_range b 5) as R. fold n16 in R.
    pose proof (byte_at_range b (6 + Z.to_nat n16)) as R'. fold n32 in R'.
    destruct (Z.gtb_spec n32 0) as [_ | Hle]; [| lia].
    unfold resolve, deref_bytes.
    replace (object_bytes _ o) with b
      by (destruct o; reflexivity).
    replace (7 + n16) with (Z.of_nat (7 + Z.to_nat n16)) by lia.
    apply load_bytes_in_range. lia.
Qed.

Lemma configure_filtering_layout_witness :
  uuids_16bit (hci_event_filter
                 (snd (sl_btctrl_hci_event_configure_filtering 4 16
                         (static_state 4 16)
                         (Some (CALLER_FILTER documented_command)))))
  = {| uuid_array_length := 2;
       uuid_array := Some (CALLER_FILTER documented_command, 6) |}.
Proof.
  exact (proj1 (configure_filtering_layout 4 16 (static_state 4 16)
                  (CALLER_FILTER documented_command) _ eq_refl)).
Defined.

(** ** Rejected configurations *)

(** C6, as stated, fails: in a build with capacities 2 and 4 the handler
    answers [BT_OK] to [short_command], whose six bytes announce a
    two-byte UUID list and hold neither it nor the 32-bit length. *)
Lemma short_command_is_accepted : ~ short_commands_rejected 2 4.
Proof.
  intro H.
  specialize (H (static_state 2 4) short_command 6
                ([2; 0; 0; 0; 0; 2] ++ zeros 7)
                eq_refl eq_refl eq_refl).
  assert (Hshort : 6 < 5 + 1 + 2 + 1 + 0) by lia.
  specialize (H Hshort).
  vm_compute in H. discriminate H.
Qed.

(** C6, amended: the validator fails with [SL_STATUS_INVALID_PARAMETER]
    whenever the 16-bit list length (byte 5) exceeds its capacity, or is
    within it while the 32-bit list length (the byte at 6 + byte 5)
    exceeds its capacity; the command handler answers [BT_ERR_INVALID] to
    every command shorter than 5 bytes or longer than the work filter.
    The length of the command is not compared with the list lengths it
    announces. *)
Theorem configure_filtering_rejects cap16 cap32 :
  (forall st o,
      let b := object_bytes st o in
      let n16 := byte_at b 5 in
      let n32 := byte_at b (6 + Z.to_nat n16) in
      n16 > cap16 \/ (n16 <= cap16 /\ n32 > cap32) ->
      sl_btctrl_hci_event_configure_filtering cap16 cap32 st (Some o)
      = (SL_STATUS_INVALID_PARAMETER, st))
  /\ (forall st hcimsg length,
         message_opcode hcimsg = Some SL_BT_HCI_CONFIGURE_FILTERING_OPCODE ->
         message_length hcimsg = Some length ->
         length < 5 \/ length > to_uint8 (SIZEOF_sli_work_filter cap16 cap32) ->
         hci_configure_filter_command cap16 cap32 st hcimsg
         = (true, Some BT_ERR_INVALID, st)).
Proof.
  split.
  - intros st o b n16 n32 H.
    unfold sl_btctrl_hci_event_configure_filtering. cbv zeta.
    destruct (negb _); [reflexivity |].
    destruct (negb _ && _); [reflexivity |].
    unfold user_data, OFFSET_work_data.
    change (5 + Z.to_nat 0)%nat with 5%nat.
    pose proof (byte_at_range (object_bytes st o) 5) as R.
    replace (5 + Z.to_nat (byte_at (object_bytes st o) 5 + 1))%nat
      with (6 + Z.to_nat (byte_at (object_bytes st o) 5))%nat
      by (rewrite Z2Nat.inj_add by lia; simpl (Z.to_nat 1); lia).
    fold b. fold n16. fold n32.
    destruct (Z.gtb_spec n16 cap16) as [| H16]; [reflexivity |].
    destruct (Z.gtb_spec n32 cap32) as [| H32]; [reflexivity |].
    lia.
  - intros st hcimsg len Hop Hlen H.
    unfold hci_configure_filter_command. rewrite Hop, Hlen.
    rewrite Z.eqb_refl. cbn [negb].
    change (to_uint8 (4 + 1)) with 5.
    destruct (Z.ltb_spec len 5) as [| H5]; [reflexivity |].
    destruct (Z.gtb_spec len (to_uint8 (SIZEOF_sli_work_filter cap16 cap32)))
      as [| Hmax]; [reflexivity |].
    lia.
Qed.

Lemma configure_filtering_rejects_witness :
  sl_btctrl_hci_event_configure_filtering 2 4 (static_state 2 4)
    (Some (CALLER_FILTER [2; 0; 0; 0; 0; 3; 1; 2; 3; 0; 0; 0; 0]))
  = (SL_STATUS_INVALID_PARAMETER, static_state 2 4)
  /\ hci_configure_filter_command 2 4 (static_state 2 4)
       {| message_opcode := Some SL_BT_HCI_CONFIGURE_FILTERING_OPCODE;
          message_length := Some 4;
          message_parameters := Some [2; 0; 0; 0] |}
     = (true, Some BT_ERR_INVALID, static_state 2 4).
Proof.
  split.
  - apply (proj1 (configure_filtering_rejects 2 4)).
    left. vm_compute. reflexivity.
  - apply (proj2 (configure_filtering_rejects 2 4)) with (length := 4).
    + reflexivity.
    + reflexivity.
    + left. lia.
Defined.

(** ** Failure leaves the configuration alone *)

(** C8: when the validator does not return [SL_STATUS_OK] (a null
    buffer, a bit outside the mask, a threshold out of range with the
    RSSI rule enabled, a list length over capacity) the statics are what
    they were before the call: the filter record with its bit mask,
    threshold, list lengths and list pointers, the tracker, and the bytes
    of every object a list pointer can point into. *)
Theorem configure_filtering_failure_keeps_configuration
    cap16 cap32 st filter status st' :
  sl_btctrl_hci_event_configure_filtering cap16 cap32 st filter
  = (status, st') ->
  status <> SL_STATUS_OK ->
  st' = st
  /\ hci_event_filter st' = hci_event_filter st
  /\ (forall o, object_bytes st' o = object_bytes st o)
  /\ uuid_list_bytes st' (uuids_16bit (hci_event_filter st'))
     = uuid_list_bytes st (uuids_16bit (hci_event_filter st))
  /\ uuid_list_bytes st' (uuids_32bit (hci_event_filter st'))
     = uuid_list_bytes st (uuids_32bit (hci_event_filter st)).
Proof.
  intros E Hs.
  assert (st' = st) as ->.
  { pose proof (configure_filtering_failure cap16 cap32 st filter) as F.
    rewrite E in F. apply F. exact Hs. }
  repeat split.
Qed.

Lemma configure_filtering_failure_keeps_configuration_witness :
  snd (sl_btctrl_hci_event_configure_filtering 2 4
         (sli_bt_hci_filter_init (static_state 2 4))
         (Some (CALLER_FILTER [0x80; 0; 0; 0; 0; 0; 0; 0; 0; 0; 0; 0; 0])))
  = sli_bt_hci_filter_init (static_state 2 4).
Proof.
  exact (proj1 (configure_filtering_failure_keeps_configuration 2 4
                  (sli_bt_hci_filter_init (static_state 2 4))
                  (Some (CALLER_FILTER [0x80; 0; 0; 0; 0; 0; 0; 0; 0; 0; 0; 0; 0]))
                  SL_STATUS_INVALID_PARAMETER _ eq_refl
                  ltac:(discriminate))).
Defined.

(** The same does not hold one level up.  The command handler copies a
    command into [work_filter] before it is validated, and the list
    pointers of a configuration that came in through the handler point
    into [work_filter]: a rejected command leaves the filter record as it
    was and replaces the bytes of the active list. *)
Lemma rejected_command_overwrites_active_list :
  let accepted :=
    {| message_opcode := Some SL_BT_HCI_CONFIGURE_FILTERING_OPCODE;
       message_length := Some 9;
       message_parameters := Some [2; 0; 0; 0; 0; 2; 0x0F; 0x18; 0] |} in
  let rejected :=
    {| message_opcode := Some SL_BT_HCI_CONFIGURE_FILTERING_OPCODE;
       message_length := Some 9;
       message_parameters := Some [0x80; 0; 0; 0; 0; 2; 0x0A; 0x18; 0] |} in
  let '(_, response1, st1) :=
    hci_configure_filter_command 2 0 (static_state 2 0) accepted in
  let '(_, response2, st2) :=
    hci_configure_filter_command 2 0 st1 rejected in
  response1 = Some BT_OK
  /\ response2 = Some BT_ERR_INVALID
  /\ hci_event_filter st2 = hci_event_filter st1
  /\ uuid_list_bytes st1 (uuids_16bit (hci_event_filter st1))
     = Some [0x0F; 0x18]
  /\ uuid_list_bytes st2 (uuids_16bit (hci_event_filter st2))
     = Some [0x0A; 0x18].
Proof. vm_compute. repeat split. Qed.

(* ================================================================== *)
(** * Properties of the two stages *)

Lemma battery_state_is_configured :
  sl_btctrl_hci_event_configure_filtering 2 0 (static_state 2 0)
    (Some (CALLER_FILTER battery_filter))
  = (SL_STATUS_OK, battery_state).
Proof. reflexivity. Qed.

(** ** The report buffer *)

Lemma length_buffer_after_copy copied :
  (length copied <= HCI_ADV_REPORT_MAX_LEN)%nat ->
  length (buffer_after_copy copied) = HCI_ADV_REPORT_MAX_LEN.
Proof.
  intro H. unfold buffer_after_copy, zeros.
  rewrite length_app, repeat_length. lia.
Qed.

Lemma byte_at_buffer_after_copy n pkt i :
  (i < n)%nat -> (i < length pkt)%nat ->
  byte_at (buffer_after_copy (firstn n pkt)) i = byte_at pkt i.
Proof.
  intros Hn Hp. unfold byte_at, buffer_after_copy. f_equal.
  rewrite app_nth1 by (rewrite length_firstn; lia).
  rewrite nth_firstn.
  destruct (Nat.ltb_spec i n); [reflexivity | lia].
Qed.

(** ** The RSSI stage *)

(** C7: with the RSSI rule enabled, an Extended Advertising Report whose
    announced length and copied bytes both reach [RSSI_OFFSET] is
    accepted exactly when its RSSI is at least the threshold; equality
    accepts, one dBm less discards. *)
Theorem filter_by_rssi_threshold st event len pkt :
  Z.land (filter_config (hci_event_filter st))
         SL_BT_HCI_FILTER_CONFIG_RSSI_ENABLE_MASK <> 0 ->
  event_opcode event
  = Some (HCI_EVENT_LE_META_EVENT, HCI_EVENT_LE_EXTENDED_ADVERTISING_REPORT) ->
  event_length event = Some len ->
  RSSI_OFFSET <= len ->
  event_parameters event = Some pkt ->
  RSSI_OFFSET <= Z.of_nat (length pkt) ->
  let rssi := to_int8 (byte_at pkt OFFSET_rssi) in
  let threshold := rssi_threshold (hci_event_filter st) in
  (filter_by_rssi st event = ACCEPT <-> threshold <= rssi)
  /\ (filter_by_rssi st event = DISCARD <-> rssi < threshold)
  /\ (rssi = threshold -> filter_by_rssi st event = ACCEPT)
  /\ (rssi = threshold - 1 -> filter_by_rssi st event = DISCARD).
Proof.
  intros Hen Hop Hlen Hl Hpar Hp rssi threshold.
  assert (E : filter_by_rssi st event
              = if rssi <? threshold then DISCARD else ACCEPT).
  { unfold filter_by_rssi.
    destruct (Z.eqb_spec (Z.land (filter_config (hci_event_filter st))
                SL_BT_HCI_FILTER_CONFIG_RSSI_ENABLE_MASK) 0) as [H0 | _];
      [contradiction |].
    rewrite Hop. change (is_extended_advertising_report _ _) with true.
    cbn [negb]. rewrite Hlen.
    destruct (Z.ltb_spec len RSSI_OFFSET) as [| _]; [lia |].
    unfold sl_btctrl_hci_event_get_parameters. rewrite Hpar.
    cbn [option_map]. rewrite Nat2Z.id.
    unfold RSSI_OFFSET, OFFSET_periodic_advertising_interval in *.
    destruct (Z.ltb_spec
                (Z.of_nat (length (firstn HCI_ADV_REPORT_MAX_LEN pkt)))
                (Z.of_nat 18 + 2)) as [Hshort | _].
    { rewrite length_firstn in Hshort. unfold HCI_ADV_REPORT_MAX_LEN,
        SIZEOF_hci_le_extended_advertising_report_t in Hshort. lia. }
    unfold report_rssi.
    rewrite byte_at_buffer_after_copy.
    - reflexivity.
    - unfold OFFSET_rssi, HCI_ADV_REPORT_MAX_LEN,
        SIZEOF_hci_le_extended_advertising_report_t. lia.
    - unfold OFFSET_rssi. lia. }
  rewrite E.
  destruct (Z.ltb_spec rssi threshold) as [Hlt | Hge].
  - repeat split; intros; try discriminate; try lia; reflexivity.
  - repeat split; intros; try discriminate; try lia; reflexivity.
Qed.

Lemma filter_by_rssi_threshold_witness :
  filter_by_rssi (sli_bt_hci_filter_init (static_state 0 0))
    (report_event 0 176 0 []) = ACCEPT
  /\ filter_by_rssi (sli_bt_hci_filter_init (static_state 0 0))
       (report_event 0 175 0 []) = DISCARD.
Proof.
  split.
  - apply (filter_by_rssi_threshold
             (sli_bt_hci_filter_init (static_state 0 0))
             (report_event 0 176 0 []) 26 _ ltac:(discriminate)
             eq_refl eq_refl ltac:(vm_compute; discriminate)
             eq_refl ltac:(vm_compute; discriminate)).
    reflexivity.
  - apply (filter_by_rssi_threshold
             (sli_bt_hci_filter_init (static_state 0 0))
             (report_event 0 175 0 []) 26 _ ltac:(discriminate)
             eq_refl eq_refl ltac:(vm_compute; discriminate)
             eq_refl ltac:(vm_compute; discriminate)).
    reflexivity.
Defined.

(** ** Decoding in the UUID stage *)

Lemma filter_by_uuid_disabled fuel st event :
  uuid_rules_enabled st = false ->
  filter_by_uuid fuel st event = Done (ACCEPT, st).
Proof.
  unfold uuid_rules_enabled, filter_by_uuid. cbv zeta.
  destruct (_ =? 0); [reflexivity | discriminate].
Qed.

Lemma filter_by_uuid_decoded fuel st event buffer :
  uuid_rules_enabled st = true ->
  decoded_report event buffer ->
  filter_by_uuid fuel st event = filter_report_by_uuid fuel st buffer.
Proof.
  intros Hen (len & pkt & Hop & Hlen & Hpar & Hrange & Hmax & ->).
  unfold uuid_rules_enabled in Hen. unfold filter_by_uuid. cbv zeta.
  destruct (_ =? 0); [discriminate |].
  rewrite Hop. change (is_extended_advertising_report _ _) with true.
  cbn [negb]. rewrite Hlen.
  unfold sl_btctrl_hci_event_get_parameters. rewrite Hpar. cbn [option_map].
  assert (Hc : length (firstn (Z.to_nat (len + 2)) pkt) = Z.to_nat (len + 2)).
  { rewrite length_firstn. lia. }
  unfold fill_buffer. rewrite Hc.
  destruct (Nat.ltb_spec HCI_ADV_REPORT_MAX_LEN (Z.to_nat (len + 2)));
    [lia |].
  cbn [bind].
  destruct (Z.eqb_spec (Z.of_nat (Z.to_nat (len + 2))) (len + 2));
    [reflexivity | lia].
Qed.

(** Every way out of [filter_by_uuid] that does not go through
    [filter_report_by_uuid] returns the state it was given. *)
Lemma filter_by_uuid_cases fuel st event :
  (exists v, filter_by_uuid fuel st event = Done (v, st))
  \/ filter_by_uuid fuel st event = Fault
  \/ (uuid_rules_enabled st = true
      /\ exists buffer,
           decoded_report event buffer
           /\ filter_by_uuid fuel st event
              = filter_report_by_uuid fuel st buffer).
Proof.
  destruct (uuid_rules_enabled st) eqn:Hen.
  2:{ left. exists ACCEPT. apply filter_by_uuid_disabled. exact Hen. }
  pose proof Hen as Hen'.
  unfold uuid_rules_enabled in Hen. unfold filter_by_uuid. cbv zeta.
  destruct (_ =? 0); [discriminate |].
  destruct (event_opcode event) as [[opcode sub] |] eqn:Hop;
    [| left; eexists; reflexivity].
  destruct (is_extended_advertising_report opcode sub) eqn:Hext;
    cbn [negb]; [| left; eexists; reflexivity].
  destruct (event_length event) as [len |] eqn:Hlen;
    [| left; eexists; reflexivity].
  unfold sl_btctrl_hci_event_get_parameters.
  destruct (event_parameters event) as [pkt |] eqn:Hpar; cbn [option_map];
    [| left; eexists; reflexivity].
  unfold fill_buffer.
  destruct (Nat.ltb_spec HCI_ADV_REPORT_MAX_LEN
              (length (firstn (Z.to_nat (len + 2)) pkt))) as [| Hfit];
    [right; left; reflexivity |].
  cbn [bind].
  destruct (Z.eqb_spec (Z.of_nat (length (firstn (Z.to_nat (len + 2)) pkt)))
              (len + 2)) as [Heq | Hne]; cbn [negb];
    [| left; eexists; reflexivity].
  right. right. split; [reflexivity |].
  exists (buffer_after_copy (firstn (Z.to_nat (len + 2)) pkt)).
  split; [| reflexivity].
  exists len, pkt.
  unfold is_extended_advertising_report in Hext.
  apply andb_prop in Hext. destruct Hext as [H1 H2].
  apply Z.eqb_eq in H1, H2. subst opcode sub.
  rewrite length_firstn in Heq, Hfit.
  repeat split; try assumption; lia.
Qed.

(** ** The fragment tracker *)

Lemma land_pow2_testbit a n :
  0 <= n -> (Z.land a (2 ^ n) =? 0) = negb (Z.testbit a n).
Proof.
  intro Hn. destruct (Z.testbit a n) eqn:T; cbn [negb].
  - apply Z.eqb_neq. intro H0.
    assert (B : Z.testbit (Z.land a (2 ^ n)) n = true).
    { rewrite Z.land_spec, T, Z.pow2_bits_true by exact Hn. reflexivity. }
    rewrite H0, Z.bits_0 in B. discriminate.
  - apply Z.eqb_eq. apply Z.bits_inj'. intros m Hm.
    rewrite Z.land_spec, Z.bits_0, Z.pow2_bits_eqb by exact Hn.
    destruct (Z.eqb_spec n m) as [<- | _].
    + rewrite T. reflexivity.
    + apply andb_false_r.
Qed.

Lemma incomplete_flag_is_bit_5 buffer :
  incomplete_flag buffer = Z.testbit (uint16_at buffer OFFSET_event_type) 5.
Proof.
  unfold incomplete_flag. change (Z.shiftl 1 5) with (2 ^ 5).
  rewrite land_pow2_testbit by lia. apply negb_involutive.
Qed.

Lemma filter_report_by_uuid_state fuel st buffer v st' :
  filter_report_by_uuid fuel st buffer = Done (v, st') ->
  st' = st
  \/ (v = ACCEPT
      /\ ((advertisment_report_incomplete st = false
           /\ incomplete_flag buffer = true
           /\ st' = set_incomplete st true)
          \/ (advertisment_report_incomplete st = true
              /\ incomplete_flag buffer = false
              /\ st' = set_incomplete st false))).
Proof.
  unfold filter_report_by_uuid.
  destruct (advertisment_report_incomplete st) eqn:T,
           (incomplete_flag buffer) eqn:F; cbn [negb andb].
  - destruct (scan_ad_structures _ _ _ _ _ _); cbn [bind]; intro E;
      [injection E as <- <-; left; reflexivity | discriminate | discriminate].
  - intro E. injection E as <- <-. right. split; [reflexivity |].
    right. repeat split.
  - intro E. injection E as <- <-. right. split; [reflexivity |].
    left. repeat split.
  - destruct (scan_ad_structures _ _ _ _ _ _); cbn [bind]; intro E;
      [injection E as <- <-; left; reflexivity | discriminate | discriminate].
Qed.

(** C4: the tracker starts Idle ([false]).  A decoded report with event
    type bit 5 set, met while Idle, is accepted whatever its AD data
    holds and leaves the tracker InChain ([true]); a decoded report with
    the bit clear, met while InChain, is accepted and leaves the tracker
    Idle ([false]); neither touches the configuration.  Whenever the
    state differs after a run of the UUID stage, one of these two
    transitions was made; the validator and the command handler never
    touch the tracker. *)
Theorem fragment_tracker_machine :
  (forall cap16 cap32,
      advertisment_report_incomplete (static_state cap16 cap32) = false
      /\ advertisment_report_incomplete
           (sli_bt_hci_filter_init (static_state cap16 cap32)) = false)
  /\ (forall fuel st event buffer,
         uuid_rules_enabled st = true ->
         decoded_report event buffer ->
         Z.testbit (uint16_at buffer OFFSET_event_type) 5 = true ->
         advertisment_report_incomplete st = false ->
         exists st',
           filter_by_uuid fuel st event = Done (ACCEPT, st')
           /\ advertisment_report_incomplete st' = true
           /\ hci_event_filter st' = hci_event_filter st
           /\ work_filter st' = work_filter st)
  /\ (forall fuel st event buffer,
         uuid_rules_enabled st = true ->
         decoded_report event buffer ->
         Z.testbit (uint16_at buffer OFFSET_event_type) 5 = false ->
         advertisment_report_incomplete st = true ->
         exists st',
           filter_by_uuid fuel st event = Done (ACCEPT, st')
           /\ advertisment_report_incomplete st' = false
           /\ hci_event_filter st' = hci_event_filter st
           /\ work_filter st' = work_filter st)
  /\ (forall fuel st event v st',
         filter_by_uuid fuel st event = Done (v, st') ->
         st' = st
         \/ (v = ACCEPT
             /\ hci_event_filter st' = hci_event_filter st
             /\ work_filter st' = work_filter st
             /\ exists buffer,
                  decoded_report event buffer
                  /\ ((advertisment_report_incomplete st = false
                       /\ Z.testbit (uint16_at buffer OFFSET_event_type) 5
                          = true
                       /\ advertisment_report_incomplete st' = true)
                      \/ (advertisment_report_incomplete st = true
                          /\ Z.testbit (uint16_at buffer OFFSET_event_type) 5
                             = false
                          /\ advertisment_report_incomplete st' = false))))
  /\ (forall cap16 cap32 st filter hcimsg,
         advertisment_report_incomplete
           (snd (sl_btctrl_hci_event_configure_filtering cap16 cap32
                   st filter))
         = advertisment_report_incomplete st
         /\ advertisment_report_incomplete
              (snd (hci_configure_filter_command cap16 cap32 st hcimsg))
            = advertisment_report_incomplete st).
Proof.
  split; [intros; split; reflexivity |].
  split; [| split; [| split]].
  - intros fuel st event buffer Hen Hdec Hbit Hidle.
    rewrite (filter_by_uuid_decoded fuel st event buffer Hen Hdec).
    unfold filter_report_by_uuid.
    rewrite incomplete_flag_is_bit_5, Hbit, Hidle. cbn [negb andb].
    eexists. split; [reflexivity |]. repeat split.
  - intros fuel st event buffer Hen Hdec Hbit Hchain.
    rewrite (filter_by_uuid_decoded fuel st event buffer Hen Hdec).
    unfold filter_report_by_uuid.
    rewrite incomplete_flag_is_bit_5, Hbit, Hchain. cbn [negb andb].
    eexists. split; [reflexivity |]. repeat split.
  - intros fuel st event v st' E.
    destruct (filter_by_uuid_cases fuel st event)
      as [[v0 E0] | [E0 | (_ & buffer & Hdec & E0)]].
    + rewrite E0 in E. injection E as <- <-. left. reflexivity.
    + rewrite E0 in E. discriminate.
    + rewrite E0 in E. apply filter_report_by_uuid_state in E.
      destruct E as [E | (Hv & E)]; [left; exact E | right].
      split; [exact Hv |].
      rewrite incomplete_flag_is_bit_5 in E.
      destruct E as [(Ht & Hb & ->) | (Ht & Hb & ->)];
        (split; [reflexivity |]); (split; [reflexivity |]);
        exists buffer; (split; [exact Hdec |]).
      * left. repeat split; assumption.
      * right. repeat split; assumption.
  - intros cap16 cap32 st filter hcimsg. split.
    + unfold sl_btctrl_hci_event_configure_filtering.
      destruct filter as [o |]; [| reflexivity]. cbv zeta.
      repeat match goal with
             | |- context [if ?c then _ else _] => destruct c
             end; reflexivity.
    + unfold hci_configure_filter_command.
      destruct (message_opcode hcimsg) as [opcode |]; [| reflexivity].
      destruct (negb _); [reflexivity |].
      destruct (message_length hcimsg) as [len |]; [| reflexivity].
      destruct (_ || _); [reflexivity |].
      destruct (sl_btctrl_hci_message_get_parameters _ _ _) as [w |];
        [| reflexivity].
      match goal with
      | |- context [sl_btctrl_hci_event_configure_filtering ?a ?b ?s ?f] =>
          pose proof (configure_filtering_failure a b s f) as Hf;
          destruct (sl_btctrl_hci_event_configure_filtering a b s f)
            as [status st2] eqn:E
      end.
      cbn [fst snd] in *.
      destruct status.
      * apply configure_filtering_ok in E. destruct E as (_ & _ & ->).
        reflexivity.
      * rewrite Hf by discriminate. reflexivity.
      * rewrite Hf by discriminate. reflexivity.
Qed.

Lemma fragment_tracker_machine_witness :
  (exists st',
      filter_by_uuid 8 battery_state (report_event 32 0 3 [2; 0x16; 0x99])
      = Done (ACCEPT, st')
      /\ advertisment_report_incomplete st' = true
      /\ hci_event_filter st' = hci_event_filter battery_state
      /\ work_filter st' = work_filter battery_state)
  /\ (exists st',
         filter_by_uuid 8
           {| hci_event_filter := hci_event_filter battery_state;
              work_filter := work_filter battery_state;
              advertisment_report_incomplete := true |}
           (report_event 0 0 3 [2; 0x16; 0x99])
         = Done (ACCEPT, st')
         /\ advertisment_report_incomplete st' = false
         /\ hci_event_filter st' = hci_event_filter battery_state
         /\ work_filter st' = work_filter battery_state).
Proof.
  pose proof fragment_tracker_machine as (_ & Hset & Hclear & _).
  split.
  - apply Hset
      with (buffer := buffer_after_copy
                        (report_header 29 32 0 3 ++ [2; 0x16; 0x99])).
    + reflexivity.
    + exists 29, (report_header 29 32 0 3 ++ [2; 0x16; 0x99]).
      repeat split; try reflexivity; vm_compute; discriminate.
    + reflexivity.
    + reflexivity.
  - apply (Hclear 8%nat
             {| hci_event_filter := hci_event_filter battery_state;
                work_filter := work_filter battery_state;
                advertisment_report_incomplete := true |}
             (report_event 0 0 3 [2; 0x16; 0x99])
             (buffer_after_copy
                (report_header 29 0 0 3 ++ [2; 0x16; 0x99]))).
    + reflexivity.
    + exists 29, (report_header 29 0 0 3 ++ [2; 0x16; 0x99]).
      repeat split; try reflexivity; vm_compute; discriminate.
    + reflexivity.
    + reflexivity.
Defined.

(** ** One AD structure *)

Lemma load_range obj i v : load obj i = Some v -> 0 <= v < 256.
Proof.
  unfold load. destruct (i <? 0); [discriminate |].
  destruct (nth_error obj (Z.to_nat i)); [| discriminate].
  cbn [option_map]. intro E. injection E as <-. apply to_uint8_range.
Qed.

Lemma bind_assoc {A B C : Type} (m : outcome A)
    (f : A -> outcome B) (g : B -> outcome C) :
  bind (bind m f) g = bind m (fun a => bind (f a) g).
Proof. destruct m; reflexivity. Qed.

Ltac case_ad_type ty c :=
  destruct (Z.eqb_spec ty c) as [-> | ?].

(** The cascade of [filter_ad_structure], fed with the six type flags of
    the scan loop, is the rule table: the rule of the structure's type,
    when enabled, decides; anything else discards. *)
Lemma filter_ad_structure_rule_table st mfuel data len ty payload :
  (if is_ad_type ty SL_BT_HCI_AD_TYPE_SERVICE_DATA_UUID_16_BIT
      || is_ad_type ty SL_BT_HCI_AD_TYPE_SERVICE_DATA_UUID_32_BIT
      || is_ad_type ty
           SL_BT_HCI_AD_TYPE_INCOMPLETE_SERVICE_CLASS_UUID_16_BIT
      || is_ad_type ty
           SL_BT_HCI_AD_TYPE_COMPLETE_SERVICE_CLASS_UUID_16_BIT
      || is_ad_type ty
           SL_BT_HCI_AD_TYPE_INCOMPLETE_SERVICE_CLASS_UUID_32_BIT
      || is_ad_type ty
           SL_BT_HCI_AD_TYPE_COMPLETE_SERVICE_CLASS_UUID_32_BIT
   then filter_ad_structure st mfuel
          (is_ad_type ty SL_BT_HCI_AD_TYPE_SERVICE_DATA_UUID_16_BIT)
          (is_ad_type ty SL_BT_HCI_AD_TYPE_SERVICE_DATA_UUID_32_BIT)
          (is_ad_type ty
             SL_BT_HCI_AD_TYPE_INCOMPLETE_SERVICE_CLASS_UUID_16_BIT)
          (is_ad_type ty
             SL_BT_HCI_AD_TYPE_COMPLETE_SERVICE_CLASS_UUID_16_BIT)
          (is_ad_type ty
             SL_BT_HCI_AD_TYPE_INCOMPLETE_SERVICE_CLASS_UUID_32_BIT)
          (is_ad_type ty
             SL_BT_HCI_AD_TYPE_COMPLETE_SERVICE_CLASS_UUID_32_BIT)
          len (Some (data, payload))
   else Done DISCARD)
  = (matched <- ad_structure_matches st mfuel data
                  {| ad_length := len; ad_type := ty;
                     ad_payload := payload |} ;;
     Done (accepted_status matched)).
Proof.
  unfold ad_structure_matches, rule_of_ad_type, filter_ad_structure,
    is_ad_type, filter_16bit_service, filter_32bit_service,
    filter_16bit_list, filter_32bit_list, configured_list.
  cbn [ad_type ad_length ad_payload].
  unfold SL_BT_HCI_AD_TYPE_SERVICE_DATA_UUID_16_BIT,
    SL_BT_HCI_AD_TYPE_SERVICE_DATA_UUID_32_BIT,
    SL_BT_HCI_AD_TYPE_INCOMPLETE_SERVICE_CLASS_UUID_16_BIT,
    SL_BT_HCI_AD_TYPE_COMPLETE_SERVICE_CLASS_UUID_16_BIT,
    SL_BT_HCI_AD_TYPE_INCOMPLETE_SERVICE_CLASS_UUID_32_BIT,
    SL_BT_HCI_AD_TYPE_COMPLETE_SERVICE_CLASS_UUID_32_BIT,
    SL_BT_HCI_FILTER_CONFIG_SERVICE_DATA_UUID_16_BIT_ENABLE,
    SL_BT_HCI_FILTER_CONFIG_SERVICE_DATA_UUID_32_BIT_ENABLE,
    SL_BT_HCI_FILTER_CONFIG_INCOMPLETE_UUID_16_BIT_ENABLE,
    SL_BT_HCI_FILTER_CONFIG_COMPLETE_UUID_16_BIT_ENABLE,
    SL_BT_HCI_FILTER_CONFIG_INCOMPLETE_UUID_32_BIT_ENABLE,
    SL_BT_HCI_FILTER_CONFIG_COMPLETE_UUID_32_BIT_ENABLE.
  set (config := filter_config (hci_event_filter st)).
  case_ad_type ty 22;
    [| case_ad_type ty 2;
       [| case_ad_type ty 3;
          [| case_ad_type ty 32;
             [| case_ad_type ty 4;
                [| case_ad_type ty 5 ]]]]].
  all: cbn [Z.eqb Pos.eqb orb andb].
  all: rewrite ?andb_false_r, ?andb_true_r.
  all: destruct (config_bit config 1), (config_bit config 2),
         (config_bit config 3), (config_bit config 4),
         (config_bit config 5), (config_bit config 6);
       reflexivity.
Qed.

(** One turn of the scan loop on a structure that passes the length
    check: a match accepts, anything else moves on by [ad_len + 1]. *)
Lemma scan_ad_structures_step fuel mfuel st data data_len idx len ty :
  data_len <> 0 ->
  load data idx = Some len ->
  load data (idx + 1) = Some ty ->
  len <= data_len ->
  scan_ad_structures (S fuel) mfuel st data data_len idx
  = (matched <- ad_structure_matches st mfuel data
                  {| ad_length := len; ad_type := ty;
                     ad_payload := idx + 2 |} ;;
     if matched : bool then Done ACCEPT
     else scan_ad_structures fuel mfuel st data
            (to_uint8 (data_len - (len + 1)))
            (to_uint8 (idx + (len + 1)))).
Proof.
  intros Hd Hl Ht Hle.
  cbn [scan_ad_structures].
  destruct (Z.eqb_spec data_len 0) as [| _]; [contradiction |].
  rewrite Hl, Ht. cbn [of_option bind].
  destruct (Z.gtb_spec len data_len) as [| _]; [lia |].
  rewrite filter_ad_structure_rule_table.
  rewrite bind_assoc.
  destruct (ad_structure_matches _ _ _ _) as [[|] | |]; reflexivity.
Qed.

(** The length check as it is: a length byte greater than the remaining
    length discards, once both the length and the type byte were read. *)
Lemma scan_ad_structures_overlong fuel mfuel st data data_len idx len ty :
  data_len <> 0 ->
  load data idx = Some len ->
  load data (idx + 1) = Some ty ->
  data_len < len ->
  scan_ad_structures (S fuel) mfuel st data data_len idx = Done DISCARD.
Proof.
  intros Hd Hl Ht Hlt.
  cbn [scan_ad_structures].
  destruct (Z.eqb_spec data_len 0) as [| _]; [contradiction |].
  rewrite Hl, Ht. cbn [of_option bind].
  destruct (Z.gtb_spec len data_len) as [_ |]; [reflexivity | lia].
Qed.

(** ** The union of the enabled rules *)

Lemma lor_eqb_0 a b : (Z.lor a b =? 0) = (a =? 0) && (b =? 0).
Proof.
  destruct (Z.eqb_spec (Z.lor a b) 0) as [H | H].
  - apply Z.lor_eq_0_iff in H. destruct H as [-> ->]. reflexivity.
  - destruct (Z.eqb_spec a 0) as [-> | _]; [| reflexivity].
    destruct (Z.eqb_spec b 0) as [-> | _]; [| reflexivity].
    contradiction H. reflexivity.
Qed.

Lemma uuid_rules_enabled_bits st :
  let config := filter_config (hci_event_filter st) in
  uuid_rules_enabled st
  = config_bit config 1 || config_bit config 2 || config_bit config 3
    || config_bit config 4 || config_bit config 5 || config_bit config 6.
Proof.
  cbv zeta. unfold uuid_rules_enabled, config_bit.
  set (c := filter_config (hci_event_filter st)).
  change (Z.land SL_BT_HCI_FILTER_CONFIG_MASK
            (Z.lnot SL_BT_HCI_FILTER_CONFIG_RSSI_ENABLE_MASK))
    with (Z.lor (Z.shiftl 1 1) (Z.lor (Z.shiftl 1 2) (Z.lor (Z.shiftl 1 3)
           (Z.lor (Z.shiftl 1 4) (Z.lor (Z.shiftl 1 5) (Z.shiftl 1 6)))))).
  rewrite !Z.land_lor_distr_r, !lor_eqb_0.
  destruct (Z.land c (Z.shiftl 1 1) =? 0), (Z.land c (Z.shiftl 1 2) =? 0),
    (Z.land c (Z.shiftl 1 3) =? 0), (Z.land c (Z.shiftl 1 4) =? 0),
    (Z.land c (Z.shiftl 1 5) =? 0), (Z.land c (Z.shiftl 1 6) =? 0);
    reflexivity.
Qed.

Lemma scan_ad_prefix st mfuel data pos remaining ads pos' remaining' :
  ad_prefix data pos remaining ads pos' remaining' ->
  0 <= pos -> 0 <= remaining -> pos + remaining <= 255 ->
  Forall (fun a => ad_structure_matches st mfuel data a = Done false) ads ->
  (forall fuel,
      scan_ad_structures (length ads + fuel) mfuel st data remaining pos
      = scan_ad_structures fuel mfuel st data remaining' pos')
  /\ 0 <= pos' /\ 0 <= remaining' /\ pos' + remaining' <= 255.
Proof.
  induction 1 as [| pos remaining len ty rest pos' remaining'
                    Hpos Hl Ht Hfit _ IH];
    intros H0 Hr Hmax Hall.
  - split; [intro fuel; reflexivity | repeat split; assumption].
  - pose proof (load_range _ _ _ Hl) as Rl.
    inversion Hall as [| a l Ha Hrest]; subst.
    destruct IH as (IH & Hp' & Hr' & Hm'); try lia; [exact Hrest |].
    split; [| repeat split; assumption].
    intro fuel. cbn [length Nat.add].
    rewrite (scan_ad_structures_step _ mfuel st data remaining pos len ty)
      by (assumption || lia).
    rewrite Ha. cbn [bind].
    rewrite !to_uint8_small by lia.
    apply IH.
Qed.

(** What the stage makes of a decoded report that reaches the scan,
    once the leading structures [ads] of its blob, none of which
    matches, are behind it. *)
Lemma filter_by_uuid_after_prefix fuel st event buffer ads pos remaining :
  uuid_rules_enabled st = true ->
  decoded_report event buffer ->
  advertisment_report_incomplete st = incomplete_flag buffer ->
  ad_prefix (report_data buffer) 0 (report_data_length buffer) ads
    pos remaining ->
  Forall (fun a => ad_structure_matches st fuel (report_data buffer) a
                   = Done false) ads ->
  forall rest,
    fuel = (length ads + rest)%nat ->
    filter_by_uuid fuel st event
    = (status <- scan_ad_structures rest fuel st (report_data buffer)
                   remaining pos ;;
       Done (status, st)).
Proof.
  intros Hen Hdec Htr Hpre Hall rest ->.
  rewrite (filter_by_uuid_decoded _ st event buffer Hen Hdec).
  unfold filter_report_by_uuid. rewrite Htr.
  rewrite andb_negb_l, andb_negb_r.
  pose proof (byte_at_range buffer OFFSET_data_length) as R.
  fold (report_data_length buffer) in R.
  destruct (scan_ad_prefix st (length ads + rest) (report_data buffer) 0
              (report_data_length buffer) ads pos remaining
              Hpre ltac:(lia) ltac:(lia) ltac:(lia) Hall)
    as (Hscan & _).
  rewrite Hscan. reflexivity.
Qed.

(** C5 on the code.  With none of the six UUID rule bits enabled the
    stage accepts at once.  Otherwise, for a decoded report that the
    fragment tracker does not let through, let [ads] be leading AD
    structures of the blob, each inside the declared length and none
    matching.  If the next structure lies inside the blob, falls under an
    enabled rule and matches, the stage accepts, whatever follows.  If
    nothing remains after [ads], or the next length byte exceeds what
    remains, the stage discards.  The case left is a next length byte
    equal to what remains, a structure that ends one byte behind the
    blob: there the discard of the claim fails.  The report whose blob
    is the single byte 1 holds no AD structure at all, and the stage
    accepts it on the strength of bytes that follow the blob in the
    packet. *)
Theorem uuid_stage_union_and_exact_fit :
  (forall fuel st event,
      (forall bit, 1 <= bit <= 6 ->
                   config_bit (filter_config (hci_event_filter st)) bit
                   = false) ->
      filter_by_uuid fuel st event = Done (ACCEPT, st))
  /\ (forall fuel st event buffer ads pos remaining,
         uuid_rules_enabled st = true ->
         decoded_report event buffer ->
         advertisment_report_incomplete st = incomplete_flag buffer ->
         ad_prefix (report_data buffer) 0 (report_data_length buffer) ads
           pos remaining ->
         (length ads < fuel)%nat ->
         let matches :=
           ad_structure_matches st fuel (report_data buffer) in
         Forall (fun a => matches a = Done false) ads ->
         (forall len ty,
             load (report_data buffer) pos = Some len ->
             load (report_data buffer) (pos + 1) = Some ty ->
             len + 1 <= remaining ->
             matches {| ad_length := len; ad_type := ty;
                        ad_payload := pos + 2 |} = Done true ->
             filter_by_uuid fuel st event = Done (ACCEPT, st))
         /\ (remaining = 0 ->
             filter_by_uuid fuel st event = Done (DISCARD, st))
         /\ (forall len ty,
                load (report_data buffer) pos = Some len ->
                load (report_data buffer) (pos + 1) = Some ty ->
                remaining < len ->
                filter_by_uuid fuel st event = Done (DISCARD, st)))
  /\ (uuid_rules_enabled battery_state = true
      /\ (exists buffer,
             decoded_report overrun_accept_event buffer
             /\ advertisment_report_incomplete battery_state
                = incomplete_flag buffer
             /\ report_data_length buffer = 1
             /\ load (report_data buffer) 0 = Some 1
             /\ (forall ads pos remaining,
                    ad_prefix (report_data buffer) 0
                      (report_data_length buffer) ads pos remaining ->
                    ads = []))
      /\ filter_by_uuid 8 battery_state overrun_accept_event
         = Done (ACCEPT, battery_state)).
Proof.
  split; [| split].
  - intros fuel st event Hbits.
    apply filter_by_uuid_disabled.
    rewrite uuid_rules_enabled_bits. cbv zeta.
    rewrite !Hbits by lia. reflexivity.
  - intros fuel st event buffer ads pos remaining
      Hen Hdec Htr Hpre Hfuel matches Hall.
    assert (Hrest : exists rest, fuel = (length ads + S rest)%nat).
    { exists (fuel - length ads - 1)%nat. lia. }
    destruct Hrest as [rest Hrest].
    pose proof (filter_by_uuid_after_prefix fuel st event buffer ads pos
                  remaining Hen Hdec Htr Hpre Hall (S rest) Hrest) as E.
    pose proof (byte_at_range buffer OFFSET_data_length) as R.
    fold (report_data_length buffer) in R.
    destruct (scan_ad_prefix st fuel (report_data buffer) 0
                (report_data_length buffer) ads pos remaining
                Hpre ltac:(lia) ltac:(lia) ltac:(lia) Hall)
      as (_ & Hpos & Hrem & _).
    split; [| split].
    + intros len ty Hl Ht Hfit Hmatch.
      pose proof (load_range _ _ _ Hl) as Rl.
      rewrite E.
      rewrite (scan_ad_structures_step rest fuel st _ remaining pos len ty)
        by (assumption || lia).
      fold matches. rewrite Hmatch. reflexivity.
    + intros ->. rewrite E. reflexivity.
    + intros len ty Hl Ht Hlong.
      rewrite E.
      destruct (Z.eq_dec remaining 0) as [-> | Hne]; [reflexivity |].
      rewrite (scan_ad_structures_overlong rest fuel st _ remaining pos
                 len ty) by assumption.
      reflexivity.
  - split; [reflexivity |]. split; [| reflexivity].
    exists (buffer_after_copy
              (report_header 32 0 0 1 ++ [1; 0; 3; 0x16; 0x0F; 0x18])).
    split; [| split; [| split; [| split]]]; try reflexivity.
    + exists 32, (report_header 32 0 0 1 ++ [1; 0; 3; 0x16; 0x0F; 0x18]).
      repeat split; try reflexivity; vm_compute; discriminate.
    + intros ads pos remaining Hpre.
      inversion Hpre as [| ? ? len ty rest ? ? _ Hl _ Hfit _];
        [reflexivity |].
      exfalso.
      change (report_data_length _) with 1 in Hfit.
      change (load _ 0) with (Some 1) in Hl.
      injection Hl as <-. lia.
Qed.

Lemma uuid_stage_union_and_exact_fit_witness :
  filter_by_uuid 8 (sli_bt_hci_filter_init (static_state 0 0))
    (report_event 0 0 4 [3; 0x16; 0x0F; 0x18])
  = Done (ACCEPT, sli_bt_hci_filter_init (static_state 0 0))
  /\ filter_by_uuid 8 battery_state
       (report_event 0 0 7 [1; 0x01; 3; 0x16; 0x0F; 0x18; 9])
     = Done (ACCEPT, battery_state)
  /\ filter_by_uuid 8 battery_state
       (report_event 0 0 6 [1; 0x01; 3; 0x16; 0x0A; 0x18])
     = Done (DISCARD, battery_state)
  /\ filter_by_uuid 8 battery_state
       (report_event 0 0 6 [1; 0x01; 9; 0x16; 0x0F; 0x18])
     = Done (DISCARD, battery_state).
Proof.
  pose proof uuid_stage_union_and_exact_fit as (Hoff & Hon & _).
  split; [| split; [| split]].
  - apply Hoff. intros bit Hbit.
    assert (bit = 1 \/ bit = 2 \/ bit = 3 \/ bit = 4 \/ bit = 5 \/ bit = 6)
      as [-> | [-> | [-> | [-> | [-> | ->]]]]] by lia; reflexivity.
  - refine (proj1 (Hon 8%nat battery_state _
                     (buffer_after_copy
                        (report_header 33 0 0 7
                         ++ [1; 0x01; 3; 0x16; 0x0F; 0x18; 9]))
                     [ {| ad_length := 1; ad_type := 1; ad_payload := 2 |} ]
                     2 5 eq_refl _ eq_refl _ _ _)
                  3 0x16 eq_refl eq_refl _ eq_refl).
    + exists 33, (report_header 33 0 0 7
                  ++ [1; 0x01; 3; 0x16; 0x0F; 0x18; 9]).
      repeat split; try reflexivity; vm_compute; discriminate.
    + apply (ad_prefix_cons _ 0 7 1 1); try reflexivity; try lia.
      apply ad_prefix_nil.
    + cbn. lia.
    + constructor; [reflexivity | constructor].
    + lia.
  - refine (proj1 (proj2 (Hon 8%nat battery_state _
                     (buffer_after_copy
                        (report_header 32 0 0 6
                         ++ [1; 0x01; 3; 0x16; 0x0A; 0x18]))
                     [ {| ad_length := 1; ad_type := 1; ad_payload := 2 |};
                       {| ad_length := 3; ad_type := 0x16; ad_payload := 4 |} ]
                     6 0 eq_refl _ eq_refl _ _ _)) eq_refl).
    + exists 32, (report_header 32 0 0 6 ++ [1; 0x01; 3; 0x16; 0x0A; 0x18]).
      repeat split; try reflexivity; vm_compute; discriminate.
    + apply (ad_prefix_cons _ 0 6 1 1); try reflexivity; try lia.
      apply (ad_prefix_cons _ 2 4 3 0x16); try reflexivity; try lia.
      apply ad_prefix_nil.
    + cbn. lia.
    + constructor; [reflexivity | constructor; [reflexivity | constructor]].
  - refine (proj2 (proj2 (Hon 8%nat battery_state _
                     (buffer_after_copy
                        (report_header 32 0 0 6
                         ++ [1; 0x01; 9; 0x16; 0x0F; 0x18]))
                     [ {| ad_length := 1; ad_type := 1; ad_payload := 2 |} ]
                     2 4 eq_refl _ eq_refl _ _ _))
                  9 0x16 eq_refl eq_refl _).
    + exists 32, (report_header 32 0 0 6 ++ [1; 0x01; 9; 0x16; 0x0F; 0x18]).
      repeat split; try reflexivity; vm_compute; discriminate.
    + apply (ad_prefix_cons _ 0 6 1 1); try reflexivity; try lia.
      apply ad_prefix_nil.
    + cbn. lia.
    + constructor; [reflexivity | constructor].
    + lia.
Defined.

(** ** Empty UUID lists *)

(** A matcher loop whose body never finds anything returns [false],
    provided its counter cannot step past 255 before it reaches the
    bound. *)
Lemma for_uint8_no_match body bound step :
  0 < step -> bound + step <= 256 ->
  (forall i, body i = Done false) ->
  forall fuel i,
    0 <= i -> Z.max 0 (bound - i) < Z.of_nat fuel ->
    for_uint8 fuel i bound step body = Done false.
Proof.
  intros Hstep Hbound Hbody.
  induction fuel as [| fuel IH]; intros i Hi Hfuel; [lia |].
  cbn [for_uint8].
  destruct (Z.ltb_spec i bound) as [Hlt | _]; [| reflexivity].
  rewrite Hbody. cbn [bind].
  rewrite to_uint8_small by lia.
  apply IH; lia.
Qed.

(** With the counter stepping by 4 and a bound of 253 or more the
    counter wraps from 252 to 0 and the loop never ends. *)
Lemma for_uint8_wraps body bound :
  252 < bound ->
  (forall i, body i = Done false) ->
  forall fuel i,
    0 <= i < 256 -> i mod 4 = 0 ->
    for_uint8 fuel i bound 4 body = Timeout.
Proof.
  intros Hbound Hbody.
  induction fuel as [| fuel IH]; intros i Hi Hmod; [reflexivity |].
  cbn [for_uint8].
  assert (i <= 252).
  { pose proof (Z.div_mod i 4 ltac:(lia)). lia. }
  destruct (Z.ltb_spec i bound) as [_ | ?]; [| lia].
  rewrite Hbody. cbn [bind].
  apply IH.
  - apply to_uint8_range.
  - unfold to_uint8.
    rewrite (Z.mod_mod_divide (i + 4) 256 4)
      by (exists 64; reflexivity).
    rewrite <- Z.add_mod_idemp_l by lia. rewrite Hmod. reflexivity.
Qed.

Lemma service_data_empty_list fuel uuid_size ad_data uuid_array :
  (0 < fuel)%nat ->
  filter_service_data_uuid fuel uuid_size ad_data 0 uuid_array = Done false.
Proof.
  intro H. destruct fuel as [| fuel]; [lia |]. reflexivity.
Qed.

Lemma service_class_list_empty_list fuel uuid_size ad_len ad_data uuid_array :
  0 < uuid_size -> ad_len - 1 + uuid_size <= 256 ->
  (Z.to_nat ad_len <= fuel)%nat -> (0 < fuel)%nat ->
  sl_filter_list_of_service_class_uuids fuel uuid_size ad_len ad_data
    0 uuid_array = Done false.
Proof.
  intros Hsize Hlen Hfuel Hpos.
  unfold sl_filter_list_of_service_class_uuids.
  apply for_uint8_no_match; try assumption; try lia.
  intro i. destruct fuel as [| fuel]; [lia |]. reflexivity.
Qed.

Lemma empty_list_rule_no_match st fuel data ad :
  under_empty_list_rule st ad ->
  0 <= ad_length ad <= 253 ->
  (255 <= fuel)%nat ->
  ad_structure_matches st fuel data ad = Done false.
Proof.
  unfold under_empty_list_rule, ad_structure_matches, rule_of_ad_type.
  intros Hrule Hlen Hfuel.
  repeat match goal with
         | |- context [ad_type ad =? ?c] => destruct (ad_type ad =? c)
         end;
    try reflexivity;
    (destruct (config_bit _ _); [| reflexivity];
     rewrite (Hrule eq_refl);
     first [ apply service_data_empty_list; lia
           | apply service_class_list_empty_list; lia ]).
Qed.

Lemma for_uint8_never_true body bound step :
  (forall i, body i <> Done true) ->
  forall fuel i, for_uint8 fuel i bound step body <> Done true.
Proof.
  intro Hbody. induction fuel as [| fuel IH]; intro i; [discriminate |].
  cbn [for_uint8]. destruct (i <? bound); [| discriminate].
  specialize (Hbody i).
  destruct (body i) as [[|] | |]; cbn [bind];
    [contradiction | apply IH | discriminate | discriminate].
Qed.

Lemma for_uint8_empty_never_true fuel step body :
  for_uint8 fuel 0 0 step body <> Done true.
Proof. destruct fuel; discriminate. Qed.

(** With both configured lists empty no AD structure ever matches,
    whatever the bytes and however the scan got to it. *)
Lemma empty_lists_never_match st fuel data ad :
  uuid_array_length (uuids_16bit (hci_event_filter st)) = 0 ->
  uuid_array_length (uuids_32bit (hci_event_filter st)) = 0 ->
  ad_structure_matches st fuel data ad <> Done true.
Proof.
  intros H16 H32.
  unfold ad_structure_matches, rule_of_ad_type, configured_list.
  repeat match goal with
         | |- context [ad_type ad =? ?c] => destruct (ad_type ad =? c)
         end;
    try discriminate;
    (destruct (config_bit _ _); [| discriminate]);
    cbn [Z.eqb Pos.eqb]; rewrite ?H16, ?H32;
    first [ apply for_uint8_empty_never_true
          | apply for_uint8_never_true; intro i;
            apply for_uint8_empty_never_true ].
Qed.

Lemma scan_empty_lists_never_accepts st mfuel data :
  uuid_array_length (uuids_16bit (hci_event_filter st)) = 0 ->
  uuid_array_length (uuids_32bit (hci_event_filter st)) = 0 ->
  forall fuel data_len idx,
    scan_ad_structures fuel mfuel st data data_len idx <> Done ACCEPT.
Proof.
  intros H16 H32.
  induction fuel as [| fuel IH]; intros data_len idx; [discriminate |].
  cbn [scan_ad_structures].
  destruct (data_len =? 0); [discriminate |].
  destruct (load data idx) as [len |]; cbn [of_option bind];
    [| discriminate].
  destruct (load data (idx + 1)) as [ty |]; cbn [of_option bind];
    [| discriminate].
  destruct (len >? data_len); [discriminate |].
  rewrite filter_ad_structure_rule_table, bind_assoc.
  pose proof (empty_lists_never_match st mfuel data
                {| ad_length := len; ad_type := ty; ad_payload := idx + 2 |}
                H16 H32) as Hno.
  destruct (ad_structure_matches _ _ _ _) as [[|] | |]; cbn [bind];
    [contradiction | apply IH | discriminate | discriminate].
Qed.

Lemma ad_prefix_structures data pos remaining ads pos' remaining' :
  ad_prefix data pos remaining ads pos' remaining' ->
  0 <= remaining <= 254 ->
  Z.of_nat (length ads) <= remaining
  /\ Forall (fun a => 0 <= ad_length a <= 253) ads.
Proof.
  induction 1 as [| pos remaining len ty rest pos' remaining'
                    Hpos Hl Ht Hfit _ IH]; intro Hmax.
  - split; [cbn; lia | constructor].
  - pose proof (load_range _ _ _ Hl).
    destruct IH as [IHn IHl]; [lia |].
    split; [cbn [length]; lia |].
    constructor; [cbn [ad_length]; lia | exact IHl].
Qed.

(** On a structure of 254 or 255 bytes the 4-byte list matcher never
    returns, even over an empty list: its 8-bit counter wraps from 252
    to 0 before it reaches the bound. *)
Lemma service_class_list_counter_wraps fuel ad_len ad_data uuid_array :
  254 <= ad_len ->
  sl_filter_list_of_service_class_uuids fuel 4 ad_len ad_data 0 uuid_array
  = Timeout.
Proof.
  intro Hlen. destruct fuel as [| fuel]; [reflexivity |].
  unfold sl_filter_list_of_service_class_uuids.
  apply for_uint8_wraps.
  - lia.
  - intro i. reflexivity.
  - lia.
  - reflexivity.
Qed.

Lemma empty_list_state_is_configured :
  sl_btctrl_hci_event_configure_filtering 0 0 (static_state 0 0)
    (Some (CALLER_FILTER [2; 0; 0; 0; 0; 0; 0]))
  = (SL_STATUS_OK, empty_list_state).
Proof. reflexivity. Qed.

(** ** Running the stages twice *)

(** C9, as stated, fails: the first fragment of a chain is accepted on
    the first run, which moves the tracker, and discarded on the
    second. *)
Lemma stages_are_not_idempotent : ~ stages_idempotent.
Proof.
  intro H.
  specialize (H 8%nat battery_state first_fragment_event
                ACCEPT (set_incomplete battery_state true)
                DISCARD (set_incomplete battery_state true)
                eq_refl eq_refl).
  discriminate H.
Qed.

Lemma filter_by_rssi_reads_filter st st' event :
  hci_event_filter st' = hci_event_filter st ->
  filter_by_rssi st' event = filter_by_rssi st event.
Proof. intro E. unfold filter_by_rssi. rewrite E. reflexivity. Qed.

Lemma filter_by_uuid_keeps_configuration fuel st event v st' :
  filter_by_uuid fuel st event = Done (v, st') ->
  hci_event_filter st' = hci_event_filter st
  /\ work_filter st' = work_filter st.
Proof.
  intro E.
  destruct (filter_by_uuid_cases fuel st event)
    as [[v0 E0] | [E0 | (_ & buffer & _ & E0)]].
  - rewrite E0 in E. injection E as <- <-. split; reflexivity.
  - rewrite E0 in E. discriminate.
  - rewrite E0 in E. apply filter_report_by_uuid_state in E.
    destruct E as [-> | (_ & [(_ & _ & ->) | (_ & _ & ->)])];
      split; reflexivity.
Qed.

(** C9, amended: a run of both stages changes nothing but the fragment
    tracker; the RSSI verdict of a second run on the same report is that
    of the first; and when the first run left the tracker where it was,
    the second run returns the same verdict and state as the first. *)
Theorem stages_idempotent_unless_tracker_moves fuel st event v1 st1 :
  filter_event fuel st event = Done (v1, st1) ->
  hci_event_filter st1 = hci_event_filter st
  /\ work_filter st1 = work_filter st
  /\ filter_by_rssi st1 event = filter_by_rssi st event
  /\ (advertisment_report_incomplete st1 = advertisment_report_incomplete st ->
      filter_event fuel st1 event = Done (v1, st1)).
Proof.
  unfold filter_event. intro E.
  destruct (filter_by_uuid fuel st event) as [[v st'] | |] eqn:Eu;
    cbn [bind fst snd] in E; try discriminate.
  injection E as Ev <-.
  destruct (filter_by_uuid_keeps_configuration _ _ _ _ _ Eu) as [Hf Hw].
  repeat split; try assumption.
  - apply filter_by_rssi_reads_filter. exact Hf.
  - intro Ht.
    assert (st' = st) as ->.
    { destruct st, st'; cbn in *; subst; reflexivity. }
    rewrite Eu. cbn [bind fst snd]. rewrite Ev. reflexivity.
Qed.

Lemma stages_idempotent_unless_tracker_moves_witness :
  filter_event 8 battery_state (report_event 0 0 4 [3; 0x16; 0x0F; 0x18])
  = Done (ACCEPT, battery_state).
Proof.
  exact (proj2 (proj2 (proj2
           (stages_idempotent_unless_tracker_moves 8 battery_state
              (report_event 0 0 4 [3; 0x16; 0x0F; 0x18])
              ACCEPT battery_state eq_refl)))
           eq_refl).
Defined.

(** ** The bounds check of the scan *)

(** C1 on the code: the loop reads the type byte before it looks at the
    length, so on a blob of one byte it reads index 1; and the check
    [ad_len > data_len] lets a structure through that is one byte longer
    than what remains, after which the remaining length wraps to 255.
    With the AD data declared as the single byte 1, the verdict is then
    decided by the bytes that follow the blob in the packet (accept or
    discard), and with nothing but the zeroed buffer after it the scan
    runs off the end of the buffer. *)
Theorem scan_reads_past_data_length :
  (forall fuel mfuel st b,
      scan_ad_structures (S fuel) mfuel st [b] 1 0 = Fault)
  /\ filter_by_uuid 8 battery_state overrun_accept_event
     = Done (ACCEPT, battery_state)
  /\ filter_by_uuid 8 battery_state overrun_discard_event
     = Done (DISCARD, battery_state)
  /\ filter_by_uuid 300 battery_state overrun_event = Fault.
Proof.
  split; [| split; [| split]].
  - intros fuel mfuel st b. reflexivity.
  - reflexivity.
  - reflexivity.
  - vm_compute. reflexivity.
Qed.

(** ** Termination of the scan *)

Lemma overrun_spin_decoded :
  decoded_report overrun_spin_event
    (buffer_after_copy (report_header 30 0 0 1 ++ [1; 0; 255; 0])).
Proof.
  exists 30, (report_header 30 0 0 1 ++ [1; 0; 255; 0]).
  repeat split; try reflexivity; vm_compute; discriminate.
Qed.

Lemma overrun_spin_fixpoint mfuel fuel :
  scan_ad_structures fuel mfuel battery_state
    (report_data
       (buffer_after_copy (report_header 30 0 0 1 ++ [1; 0; 255; 0])))
    255 2
  = Timeout.
Proof.
  induction fuel as [| fuel IH]; [reflexivity |].
  rewrite (scan_ad_structures_step fuel mfuel battery_state _ 255 2 255 0)
    by (reflexivity || lia).
  change (ad_structure_matches _ _ _ _) with (@Done bool false).
  cbn [bind].
  change (to_uint8 (255 - (255 + 1))) with 255.
  change (to_uint8 (2 + (255 + 1))) with 2.
  exact IH.
Qed.

Lemma full_length_spin_decoded :
  decoded_report full_length_spin_event
    (buffer_after_copy (report_header 28 0 0 255 ++ [255; 0])).
Proof.
  exists 28, (report_header 28 0 0 255 ++ [255; 0]).
  repeat split; try reflexivity; vm_compute; discriminate.
Qed.

Lemma full_length_spin_fixpoint mfuel fuel :
  scan_ad_structures fuel mfuel battery_state
    (report_data (buffer_after_copy (report_header 28 0 0 255 ++ [255; 0])))
    255 0
  = Timeout.
Proof.
  induction fuel as [| fuel IH]; [reflexivity |].
  rewrite (scan_ad_structures_step fuel mfuel battery_state _ 255 0 255 0)
    by (reflexivity || lia).
  change (ad_structure_matches _ _ _ _) with (@Done bool false).
  cbn [bind].
  change (to_uint8 (255 - (255 + 1))) with 255.
  change (to_uint8 (0 + (255 + 1))) with 0.
  exact IH.
Qed.

(** C3 on the code: the scan loop does not always end.  A report that
    declares 255 bytes of AD data beginning with the length byte 255
    keeps the loop at remaining length 255 and index 0; a report that
    declares one byte of AD data, the length byte 1, in a packet that
    goes on with the bytes 0, 255, 0 keeps it at remaining length 255 and
    index 2.  No amount of fuel yields a verdict for either. *)
Theorem scan_does_not_terminate fuel :
  filter_by_uuid fuel battery_state full_length_spin_event = Timeout
  /\ filter_by_uuid fuel battery_state overrun_spin_event = Timeout.
Proof.
  split.
  { rewrite (filter_by_uuid_decoded fuel battery_state
               full_length_spin_event _ eq_refl full_length_spin_decoded).
    unfold filter_report_by_uuid.
    change (advertisment_report_incomplete battery_state) with false.
    change (incomplete_flag _) with false.
    cbn [negb andb].
    change (report_data_length _) with 255.
    rewrite full_length_spin_fixpoint. reflexivity. }
  rewrite (filter_by_uuid_decoded fuel battery_state overrun_spin_event _
             eq_refl overrun_spin_decoded).
  unfold filter_report_by_uuid.
  change (advertisment_report_incomplete battery_state) with false.
  change (incomplete_flag _) with false.
  cbn [negb andb].
  destruct fuel as [| fuel]; [reflexivity |].
  rewrite (scan_ad_structures_step fuel (S fuel) battery_state _ 1 0 1 0)
    by (reflexivity || lia).
  change (ad_structure_matches _ _ _ _) with (@Done bool false).
  cbn [bind].
  change (to_uint8 (1 - (1 + 1))) with 255.
  change (to_uint8 (0 + (1 + 1))) with 2.
  rewrite overrun_spin_fixpoint. reflexivity.
Qed.

(** ** Empty lists and the scan *)

Lemma full_length_spin_empty_lists mfuel fuel :
  scan_ad_structures fuel mfuel empty_list_state
    (report_data (buffer_after_copy (report_header 28 0 0 255 ++ [255; 0])))
    255 0
  = Timeout.
Proof.
  induction fuel as [| fuel IH]; [reflexivity |].
  rewrite (scan_ad_structures_step fuel mfuel empty_list_state _ 255 0 255 0)
    by (reflexivity || lia).
  change (ad_structure_matches _ _ _ _) with (@Done bool false).
  cbn [bind].
  change (to_uint8 (255 - (255 + 1))) with 255.
  change (to_uint8 (0 + (255 + 1))) with 0.
  exact IH.
Qed.

(** C10 on the code.  Over an empty configured list the service-data
    matcher returns no match for every payload, and the
    service-class-list matcher never returns a match: it returns no
    match for every AD structure with 2-byte entries and for every AD
    structure of up to 253 bytes with 4-byte entries, and does not
    return at all on one of 254 or 255 bytes with 4-byte entries.  With
    both lists empty no report that reaches the scan is accepted.  The
    discard holds where the scan stops by itself: after leading
    structures inside a blob of at most 254 bytes, all under empty-list
    rules or under no enabled rule, when nothing remains or the next
    length byte exceeds what remains.  It fails where the scan does not
    stop: configured with the 16-bit service-data rule and both lists
    empty, the stage never returns on the report that declares 255
    bytes beginning with the length byte 255, a blob that holds no AD
    structure, and reads past its buffer on the report whose blob is
    the single byte 1; neither report is discarded. *)
Theorem empty_list_rules_never_accept :
  (forall fuel uuid_size ad_data uuid_array,
      (0 < fuel)%nat ->
      filter_service_data_uuid fuel uuid_size ad_data 0 uuid_array
      = Done false)
  /\ (forall fuel uuid_size ad_len ad_data uuid_array,
         sl_filter_list_of_service_class_uuids fuel uuid_size ad_len ad_data
           0 uuid_array <> Done true)
  /\ (forall fuel ad_len ad_data uuid_array,
         ad_len <= 255 ->
         (255 <= fuel)%nat ->
         sl_filter_list_of_service_class_uuids fuel 2 ad_len ad_data
           0 uuid_array = Done false)
  /\ (forall fuel ad_len ad_data uuid_array,
         ad_len <= 253 ->
         (255 <= fuel)%nat ->
         sl_filter_list_of_service_class_uuids fuel 4 ad_len ad_data
           0 uuid_array = Done false)
  /\ (forall fuel ad_len ad_data uuid_array,
         254 <= ad_len ->
         sl_filter_list_of_service_class_uuids fuel 4 ad_len ad_data
           0 uuid_array = Timeout)
  /\ (forall fuel st event buffer st',
         uuid_rules_enabled st = true ->
         decoded_report event buffer ->
         advertisment_report_incomplete st = incomplete_flag buffer ->
         uuid_array_length (uuids_16bit (hci_event_filter st)) = 0 ->
         uuid_array_length (uuids_32bit (hci_event_filter st)) = 0 ->
         filter_by_uuid fuel st event <> Done (ACCEPT, st'))
  /\ (forall fuel st event buffer ads pos remaining,
         uuid_rules_enabled st = true ->
         decoded_report event buffer ->
         advertisment_report_incomplete st = incomplete_flag buffer ->
         ad_prefix (report_data buffer) 0 (report_data_length buffer) ads
           pos remaining ->
         report_data_length buffer <= 254 ->
         Forall (under_empty_list_rule st) ads ->
         (255 <= fuel)%nat ->
         (remaining = 0 ->
          filter_by_uuid fuel st event = Done (DISCARD, st))
         /\ (forall len ty,
                load (report_data buffer) pos = Some len ->
                load (report_data buffer) (pos + 1) = Some ty ->
                remaining < len ->
                filter_by_uuid fuel st event = Done (DISCARD, st)))
  /\ (uuid_rules_enabled empty_list_state = true
      /\ (exists buffer,
             decoded_report full_length_spin_event buffer
             /\ advertisment_report_incomplete empty_list_state
                = incomplete_flag buffer
             /\ report_data_length buffer = 255
             /\ load (report_data buffer) 0 = Some 255
             /\ (forall ads pos remaining,
                    ad_prefix (report_data buffer) 0
                      (report_data_length buffer) ads pos remaining ->
                    ads = []))
      /\ (forall fuel,
             filter_by_uuid fuel empty_list_state full_length_spin_event
             = Timeout)
      /\ filter_by_uuid 300 empty_list_state overrun_event = Fault).
Proof.
  split; [| split; [| split; [| split; [| split; [| split; [| split]]]]]].
  - intros. apply service_data_empty_list. assumption.
  - intros fuel uuid_size ad_len ad_data uuid_array.
    unfold sl_filter_list_of_service_class_uuids.
    apply for_uint8_never_true. intro i.
    apply for_uint8_empty_never_true.
  - intros fuel ad_len ad_data uuid_array Hlen Hfuel.
    apply service_class_list_empty_list; lia.
  - intros fuel ad_len ad_data uuid_array Hlen Hfuel.
    apply service_class_list_empty_list; lia.
  - intros fuel ad_len ad_data uuid_array Hlen.
    apply service_class_list_counter_wraps. exact Hlen.
  - intros fuel st event buffer st' Hen Hdec Htr H16 H32.
    rewrite (filter_by_uuid_decoded fuel st event buffer Hen Hdec).
    unfold filter_report_by_uuid. rewrite Htr.
    rewrite andb_negb_l, andb_negb_r.
    pose proof (scan_empty_lists_never_accepts st fuel (report_data buffer)
                  H16 H32 fuel (report_data_length buffer) 0) as Hno.
    destruct (scan_ad_structures _ _ _ _ _ _) as [[|] | |]; cbn [bind];
      [contradiction | discriminate | discriminate | discriminate].
  - intros fuel st event buffer ads pos remaining
      Hen Hdec Htr Hpre Hmax Hall Hfuel.
    pose proof (byte_at_range buffer OFFSET_data_length) as R.
    fold (report_data_length buffer) in R.
    destruct (ad_prefix_structures _ _ _ _ _ _ Hpre ltac:(lia))
      as [Hn Hlens].
    assert (Hno : Forall (fun a => ad_structure_matches st fuel
                                     (report_data buffer) a = Done false)
                    ads).
    { clear - Hall Hlens Hfuel.
      induction Hall as [| a ads Ha _ IH]; constructor.
      - inversion Hlens; subst.
        apply empty_list_rule_no_match; assumption.
      - inversion Hlens; subst. apply IH. assumption. }
    assert (Hrest : exists rest, fuel = (length ads + S rest)%nat).
    { exists (fuel - length ads - 1)%nat. lia. }
    destruct Hrest as [rest Hrest].
    pose proof (filter_by_uuid_after_prefix fuel st event buffer ads pos
                  remaining Hen Hdec Htr Hpre Hno (S rest) Hrest) as E.
    split.
    + intros ->. rewrite E. reflexivity.
    + intros len ty Hl Ht Hlong.
      rewrite E.
      destruct (Z.eq_dec remaining 0) as [-> | Hne]; [reflexivity |].
      rewrite (scan_ad_structures_overlong rest fuel st _ remaining pos
                 len ty) by assumption.
      reflexivity.
  - split; [reflexivity |]. split; [| split; [| vm_compute; reflexivity]].
    { exists (buffer_after_copy (report_header 28 0 0 255 ++ [255; 0])).
      split; [exact full_length_spin_decoded |].
      split; [reflexivity |]. split; [reflexivity |].
      split; [reflexivity |].
      intros ads pos remaining Hpre.
      inversion Hpre as [| ? ? len ty rest ? ? _ Hl _ Hfit _];
        [reflexivity |].
      exfalso.
      change (report_data_length _) with 255 in Hfit.
      change (load _ 0) with (Some 255) in Hl.
      injection Hl as <-. lia. }
    intro fuel.
    rewrite (filter_by_uuid_decoded fuel empty_list_state
               full_length_spin_event _ eq_refl full_length_spin_decoded).
    unfold filter_report_by_uuid.
    change (advertisment_report_incomplete empty_list_state) with false.
    change (incomplete_flag _) with false.
    cbn [negb andb].
    change (report_data_length _) with 255.
    rewrite full_length_spin_empty_lists. reflexivity.
Qed.

Lemma empty_list_rules_never_accept_witness :
  filter_by_uuid 255 empty_list_state
    (report_event 0 0 4 [3; 0x16; 0x0F; 0x18])
  = Done (DISCARD, empty_list_state)
  /\ sl_filter_list_of_service_class_uuids 255 2 255 None 0 None
     = Done false.
Proof.
  pose proof empty_list_rules_never_accept
    as (_ & _ & Hlist & _ & _ & _ & Hscan & _).
  split.
  - refine (proj1 (Hscan 255%nat empty_list_state _
                     (buffer_after_copy
                        (report_header 30 0 0 4 ++ [3; 0x16; 0x0F; 0x18]))
                     [ {| ad_length := 3; ad_type := 0x16;
                          ad_payload := 2 |} ]
                     4 0 eq_refl _ eq_refl _ _ _ _) eq_refl).
    + exists 30, (report_header 30 0 0 4 ++ [3; 0x16; 0x0F; 0x18]).
      repeat split; try reflexivity; vm_compute; discriminate.
    + apply (ad_prefix_cons _ 0 4 3 0x16); try reflexivity; try lia.
      apply ad_prefix_nil.
    + vm_compute. discriminate.
    + constructor; [| constructor]. intros _. reflexivity.
    + lia.
  - apply Hlist; lia.
Defined.

(* ================================================================== *)
(** * Further properties of the configuration path *)

Lemma uint32_at_nonneg b i : 0 <= uint32_at b i.
Proof.
  unfold uint32_at.
  pose proof (byte_at_range b i). pose proof (byte_at_range b (i + 1)).
  pose proof (byte_at_range b (i + 2)). pose proof (byte_at_range b (i + 3)).
  lia.
Qed.

Lemma land_lnot_mask_0 c :
  0 <= c ->
  (Z.land c (Z.lnot SL_BT_HCI_FILTER_CONFIG_MASK) = 0
   <-> c <= SL_BT_HCI_FILTER_CONFIG_MASK).
Proof.
  intro Hc. change SL_BT_HCI_FILTER_CONFIG_MASK with (Z.ones 7).
  rewrite <- Z.ldiff_land, Z.ldiff_ones_r by lia.
  rewrite Z.shiftl_mul_pow2, Z.shiftr_div_pow2 by lia.
  change (2 ^ 7) with 128. change (Z.ones 7) with 127.
  split; intro H.
  - assert (c / 128 = 0) by lia.
    apply Z.div_small_iff in H0; lia.
  - rewrite Z.div_small by lia. reflexivity.
Qed.

Lemma configure_filtering_status cap16 cap32 st o :
  let b := object_bytes st o in
  (acceptable_filter cap16 cap32 b
   /\ fst (sl_btctrl_hci_event_configure_filtering cap16 cap32 st (Some o))
      = SL_STATUS_OK)
  \/ (~ acceptable_filter cap16 cap32 b
      /\ sl_btctrl_hci_event_configure_filtering cap16 cap32 st (Some o)
         = (SL_STATUS_INVALID_PARAMETER, st)).
Proof.
  intro b. unfold acceptable_filter,
    sl_btctrl_hci_event_configure_filtering. cbv zeta. fold b.
  destruct (Z.eqb_spec (Z.land (user_config b)
              (Z.lnot SL_BT_HCI_FILTER_CONFIG_MASK)) 0) as [Hm | Hm];
    cbn [negb]; [| right; split; [tauto | reflexivity]].
  destruct (Z.eqb_spec (Z.land (user_config b)
              SL_BT_HCI_FILTER_CONFIG_RSSI_ENABLE_MASK) 0) as [Hr | Hr];
    cbn [negb andb].
  - unfold user_data, OFFSET_work_data.
    change (5 + Z.to_nat 0)%nat with 5%nat.
    pose proof (byte_at_range b 5) as R.
    replace (5 + Z.to_nat (byte_at b 5 + 1))%nat
      with (6 + Z.to_nat (byte_at b 5))%nat
      by (rewrite Z2Nat.inj_add by lia; simpl (Z.to_nat 1); lia).
    destruct (Z.gtb_spec (byte_at b 5) cap16) as [H16 | H16];
      [right; split; [lia | reflexivity] |].
    destruct (Z.gtb_spec (byte_at b (6 + Z.to_nat (byte_at b 5))) cap32)
      as [H32 | H32]; [right; split; [lia | reflexivity] |].
    left. split; [| reflexivity]. repeat split; try assumption.
    all: contradiction.
  - destruct (Z.ltb_spec (user_rssi_threshold b) SL_BT_HCI_FILTER_RSSI_MIN)
      as [Hlo | Hlo]; cbn [orb];
      [right; split; [intros (_ & H & _); specialize (H Hr); lia
                     | reflexivity] |].
    destruct (Z.gtb_spec (user_rssi_threshold b) SL_BT_HCI_FILTER_RSSI_MAX)
      as [Hhi | Hhi];
      [right; split; [intros (_ & H & _); specialize (H Hr); lia
                     | reflexivity] |].
    unfold user_data, OFFSET_work_data.
    change (5 + Z.to_nat 0)%nat with 5%nat.
    pose proof (byte_at_range b 5) as R.
    replace (5 + Z.to_nat (byte_at b 5 + 1))%nat
      with (6 + Z.to_nat (byte_at b 5))%nat
      by (rewrite Z2Nat.inj_add by lia; simpl (Z.to_nat 1); lia).
    destruct (Z.gtb_spec (byte_at b 5) cap16) as [H16 | H16];
      [right; split; [lia | reflexivity] |].
    destruct (Z.gtb_spec (byte_at b (6 + Z.to_nat (byte_at b 5))) cap32)
      as [H32 | H32]; [right; split; [lia | reflexivity] |].
    left. split; [| reflexivity]. repeat split; try assumption; lia.
Qed.

(** X1: the validator's decision table.  It answers
    [SL_STATUS_NULL_POINTER] exactly for the null pointer.  For a buffer
    that holds all the bytes the validator may read (seven bytes and the
    first list), it answers [SL_STATUS_OK] exactly when the bit mask has
    no bit outside the seven rule bits, the threshold lies in
    [-120, -30] when the RSSI rule is enabled (any threshold passes when
    it is not), and the two list lengths are within the capacities;
    everything else is [SL_STATUS_INVALID_PARAMETER]. *)
Theorem configure_filtering_decision cap16 cap32 st filter :
  (forall o, filter = Some o -> filter_readable (object_bytes st o)) ->
  let status :=
    fst (sl_btctrl_hci_event_configure_filtering cap16 cap32 st filter) in
  (status = SL_STATUS_NULL_POINTER <-> filter = None)
  /\ (status = SL_STATUS_OK
      <-> exists o, filter = Some o
                    /\ filter_readable (object_bytes st o)
                    /\ acceptable_filter cap16 cap32 (object_bytes st o))
  /\ (status = SL_STATUS_INVALID_PARAMETER
      <-> exists o, filter = Some o
                    /\ filter_readable (object_bytes st o)
                    /\ ~ acceptable_filter cap16 cap32 (object_bytes st o)).
Proof.
  intro Hread. cbv zeta. destruct filter as [o |].
  - specialize (Hread o eq_refl).
    destruct (configure_filtering_status cap16 cap32 st o)
      as [[Ha Hs] | [Hn Hs]]; rewrite Hs; cbn [fst].
    + split; [split; discriminate |].
      split; split; try discriminate.
      * intros _. exists o. split; [reflexivity | split; assumption].
      * reflexivity.
      * intros (o' & E & _ & Hn). injection E as <-. contradiction.
    + split; [split; discriminate |].
      split; split; try discriminate.
      * intros (o' & E & _ & Ha). injection E as <-. contradiction.
      * intros _. exists o. split; [reflexivity | split; assumption].
      * reflexivity.
  - cbn. split; [split; reflexivity |].
    split; split; try discriminate.
    + intros (o & E & _). discriminate.
    + intros (o & E & _). discriminate.
Qed.

Lemma configure_filtering_decision_witness :
  fst (sl_btctrl_hci_event_configure_filtering 2 4 (static_state 2 4)
         (Some (CALLER_FILTER battery_filter)))
  = SL_STATUS_OK
  <-> exists o,
        Some (CALLER_FILTER battery_filter) = Some o
        /\ filter_readable (object_bytes (static_state 2 4) o)
        /\ acceptable_filter 2 4 (object_bytes (static_state 2 4) o).
Proof.
  refine (proj1 (proj2 (configure_filtering_decision 2 4 (static_state 2 4)
                          (Some (CALLER_FILTER battery_filter)) _))).
  intros o E. injection E as <-. unfold filter_readable. cbn. lia.
Defined.

(** ** The installed filter record *)

Lemma configure_filtering_ok_valid cap16 cap32 st o st' :
  0 <= cap16 -> 0 <= cap32 ->
  sl_btctrl_hci_event_configure_filtering cap16 cap32 st (Some o)
  = (SL_STATUS_OK, st') ->
  filter_valid cap16 cap32 (hci_event_filter st')
  /\ work_filter st' = work_filter st.
Proof.
  intros H16 H32 E.
  destruct (configure_filtering_status cap16 cap32 st o)
    as [[Ha _] | [_ Hs]]; [| rewrite Hs in E; discriminate].
  destruct Ha as (Hm & Hr & _ & _).
  destruct (configure_filtering_ok _ _ _ _ _ E) as (Hn16 & Hn32 & ->).
  cbn [hci_event_filter work_filter]. split; [| reflexivity].
  set (b := object_bytes st o) in *.
  pose proof (byte_at_range b 5) as R16.
  pose proof (byte_at_range b (6 + Z.to_nat (byte_at b 5))) as R32.
  unfold filter_valid, list_view_at.
  cbn [filter_config rssi_threshold uuids_16bit uuids_32bit
       uuid_array_length uuid_array].
  unfold SIZEOF_sli_work_filter, WORK_MEMORY.
  repeat split; try lia.
  - apply uint32_at_nonneg.
  - apply land_lnot_mask_0; [apply uint32_at_nonneg | exact Hm].
  - apply Hr. assumption.
  - apply Hr. assumption.
  - destruct (Z.gtb_spec (byte_at b 5) 0) as [Hpos | Hz].
    + right. split; [lia | exists o; reflexivity].
    + left. split; [lia | reflexivity].
  - destruct (Z.gtb_spec (byte_at b (6 + Z.to_nat (byte_at b 5))) 0)
      as [Hpos | Hz].
    + right. split; [lia | exists o; reflexivity].
    + left. split; [lia | reflexivity].
Qed.

Lemma configure_filtering_keeps_valid cap16 cap32 st filter :
  0 <= cap16 -> 0 <= cap32 ->
  filter_valid cap16 cap32 (hci_event_filter st) ->
  filter_valid cap16 cap32
    (hci_event_filter
       (snd (sl_btctrl_hci_event_configure_filtering cap16 cap32 st filter)))
  /\ work_filter
       (snd (sl_btctrl_hci_event_configure_filtering cap16 cap32 st filter))
     = work_filter st.
Proof.
  intros H16 H32 Hv.
  destruct (sl_btctrl_hci_event_configure_filtering cap16 cap32 st filter)
    as [status st'] eqn:E.
  cbn [snd].
  destruct status.
  - destruct filter as [o |]; [| discriminate].
    apply (configure_filtering_ok_valid _ _ _ _ _ H16 H32 E).
  - pose proof (configure_filtering_failure cap16 cap32 st filter) as F.
    rewrite E in F. cbn [fst snd] in F. rewrite F by discriminate.
    split; [exact Hv | reflexivity].
  - pose proof (configure_filtering_failure cap16 cap32 st filter) as F.
    rewrite E in F. cbn [fst snd] in F. rewrite F by discriminate.
    split; [exact Hv | reflexivity].
Qed.

Lemma get_parameters_keeps_size hcimsg dst length dst' :
  sl_btctrl_hci_message_get_parameters hcimsg dst length = Some dst' ->
  length <= Z.of_nat (List.length dst) ->
  List.length dst' = List.length dst.
Proof.
  unfold sl_btctrl_hci_message_get_parameters.
  destruct (message_parameters hcimsg) as [params |]; [| discriminate].
  intros E Hlen. injection E as <-.
  rewrite length_app, length_skipn.
  pose proof (firstn_le_length (Z.to_nat length) params). lia.
Qed.

Lemma hci_configure_filter_command_keeps_valid cap16 cap32 st hcimsg :
  0 <= cap16 -> 0 <= cap32 ->
  filter_valid cap16 cap32 (hci_event_filter st) ->
  List.length (work_filter st)
  = Z.to_nat (SIZEOF_sli_work_filter cap16 cap32) ->
  let st' := snd (hci_configure_filter_command cap16 cap32 st hcimsg) in
  filter_valid cap16 cap32 (hci_event_filter st')
  /\ List.length (work_filter st')
     = Z.to_nat (SIZEOF_sli_work_filter cap16 cap32).
Proof.
  intros H16 H32 Hv Hsize. cbv zeta.
  unfold hci_configure_filter_command.
  destruct (message_opcode hcimsg) as [opcode |]; [| split; assumption].
  destruct (negb _); [split; assumption |].
  destruct (message_length hcimsg) as [len |]; [| split; assumption].
  destruct (Z.ltb_spec len (to_uint8 (4 + 1))) as [| Hmin]; cbn [orb];
    [split; assumption |].
  destruct (Z.gtb_spec len (to_uint8 (SIZEOF_sli_work_filter cap16 cap32)))
    as [| Hmax]; [split; assumption |].
  destruct (sl_btctrl_hci_message_get_parameters hcimsg (work_filter st) len)
    as [w |] eqn:Ecopy; [| split; assumption].
  assert (Hw : List.length w
               = Z.to_nat (SIZEOF_sli_work_filter cap16 cap32)).
  { rewrite <- Hsize. apply (get_parameters_keeps_size _ _ _ _ Ecopy).
    rewrite Hsize.
    assert (0 <= SIZEOF_sli_work_filter cap16 cap32)
      by (unfold SIZEOF_sli_work_filter, WORK_MEMORY; lia).
    unfold to_uint8 in Hmax.
    pose proof (Z.mod_le (SIZEOF_sli_work_filter cap16 cap32) 256
                  ltac:(lia) ltac:(lia)).
    lia. }
  match goal with
  | |- context [sl_btctrl_hci_event_configure_filtering _ _ ?s ?f] =>
      pose proof (configure_filtering_keeps_valid cap16 cap32 s f
                    H16 H32 Hv) as [Hv' Hw'];
      destruct (sl_btctrl_hci_event_configure_filtering cap16 cap32 s f)
        as [status st2]
  end.
  cbn [snd fst work_filter] in *. split; [exact Hv' |].
  rewrite Hw'. exact Hw.
Qed.

(** X2: whatever sequence of validator calls, configuration commands and
    filtered events follows start-up, the active filter record has no bit
    outside the seven rule bits, a threshold in [-120, -30] whenever the
    RSSI rule is enabled, list lengths within the capacities, a null list
    pointer exactly for an empty list and otherwise pointers at offsets 6
    and 7 + the 16-bit length, with both lists ending inside the size of
    the work filter; and [work_filter] keeps its size. *)
Theorem reachable_filter_is_valid cap16 cap32 st :
  0 <= cap16 -> 0 <= cap32 ->
  reachable cap16 cap32 st ->
  filter_valid cap16 cap32 (hci_event_filter st)
  /\ List.length (work_filter st)
     = Z.to_nat (SIZEOF_sli_work_filter cap16 cap32).
Proof.
  intros H16 H32. induction 1 as [| st op st' _ [Hv Hsize] Hstep].
  - split.
    + unfold filter_valid, list_view_at, SIZEOF_sli_work_filter, WORK_MEMORY.
      cbn [sli_bt_hci_filter_init static_state hci_event_filter
           filter_config rssi_threshold uuids_16bit uuids_32bit
           uuid_array_length uuid_array].
      unfold SL_BT_HCI_FILTER_CONFIG, SL_BT_HCI_FILTER_RSSI_THRESHOLD,
        SL_BT_HCI_FILTER_RSSI_MIN, SL_BT_HCI_FILTER_RSSI_MAX.
      change SL_BT_HCI_FILTER_CONFIG_MASK with 127.
      repeat split; try lia.
      all: left; split; reflexivity.
    + cbn [sli_bt_hci_filter_init static_state work_filter].
      unfold zeros. apply repeat_length.
  - destruct Hstep as [filter | hcimsg | fuel event verdict st' E].
    + destruct (configure_filtering_keeps_valid cap16 cap32 st filter
                  H16 H32 Hv) as [Hv' Hw'].
      split; [exact Hv' | rewrite Hw'; exact Hsize].
    + apply hci_configure_filter_command_keeps_valid; assumption.
    + destruct (filter_by_uuid_keeps_configuration _ _ _ _ _ E) as [Hf Hw].
      rewrite Hf, Hw. split; assumption.
Qed.

Lemma reachable_filter_is_valid_witness :
  filter_valid 2 4
    (hci_event_filter
       (snd (hci_configure_filter_command 2 4
               (sli_bt_hci_filter_init (static_state 2 4))
               {| message_opcode := Some SL_BT_HCI_CONFIGURE_FILTERING_OPCODE;
                  message_length := Some 9;
                  message_parameters :=
                    Some [3; 0; 0; 0; 0xB0; 2; 0x0F; 0x18; 0] |}))).
Proof.
  refine (proj1 (reachable_filter_is_valid 2 4 _
                   ltac:(lia) ltac:(lia) _)).
  eapply reachable_step.
  - apply reachable_init.
  - apply step_command.
Defined.

(** ** The command handler *)

(** X3: the handler answers only commands with its own opcode.  For any
    other opcode, or when the opcode cannot be read, it returns [false],
    sets no response and leaves the statics alone.  For its own opcode it
    returns [true] with the response [BT_OK] or [BT_ERR_INVALID], and
    [BT_OK] exactly when the length is readable and between 5 and the
    (8-bit) size of the work filter, the parameters are readable, and the
    work filter as overwritten by them passes the validator; on
    [BT_ERR_INVALID] the filter record and the tracker are unchanged. *)
Theorem hci_configure_filter_command_response cap16 cap32 st hcimsg :
  ((message_opcode hcimsg = None
    \/ exists opcode, message_opcode hcimsg = Some opcode
                      /\ opcode <> SL_BT_HCI_CONFIGURE_FILTERING_OPCODE) ->
   hci_configure_filter_command cap16 cap32 st hcimsg = (false, None, st))
  /\ (message_opcode hcimsg = Some SL_BT_HCI_CONFIGURE_FILTERING_OPCODE ->
      exists code st',
        hci_configure_filter_command cap16 cap32 st hcimsg
        = (true, Some code, st')
        /\ (code = BT_OK \/ code = BT_ERR_INVALID)
        /\ (code = BT_OK
            <-> exists length work_filter',
                  message_length hcimsg = Some length
                  /\ 5 <= length
                     <= to_uint8 (SIZEOF_sli_work_filter cap16 cap32)
                  /\ sl_btctrl_hci_message_get_parameters hcimsg
                       (work_filter st) length = Some work_filter'
                  /\ acceptable_filter cap16 cap32 work_filter')
        /\ (code = BT_ERR_INVALID ->
            hci_event_filter st' = hci_event_filter st
            /\ advertisment_report_incomplete st'
               = advertisment_report_incomplete st)).
Proof.
  split.
  - intros [Hnone | (opcode & Hop & Hne)];
      unfold hci_configure_filter_command.
    + rewrite Hnone. reflexivity.
    + rewrite Hop. destruct (Z.eqb_spec opcode
        SL_BT_HCI_CONFIGURE_FILTERING_OPCODE); [contradiction | reflexivity].
  - intro Hop. unfold hci_configure_filter_command. rewrite Hop.
    rewrite Z.eqb_refl. cbn [negb].
    change (to_uint8 (4 + 1)) with 5.
    assert (Hne : BT_OK <> BT_ERR_INVALID) by discriminate.
    assert (Herr : forall st0 : filter_state,
               hci_event_filter st0 = hci_event_filter st ->
               advertisment_report_incomplete st0
               = advertisment_report_incomplete st ->
               ~ (exists length work_filter',
                     message_length hcimsg = Some length
                     /\ 5 <= length
                        <= to_uint8 (SIZEOF_sli_work_filter cap16 cap32)
                     /\ sl_btctrl_hci_message_get_parameters hcimsg
                          (work_filter st) length = Some work_filter'
                     /\ acceptable_filter cap16 cap32 work_filter') ->
               exists code st',
                 (true, Some BT_ERR_INVALID, st0) = (true, Some code, st')
                 /\ (code = BT_OK \/ code = BT_ERR_INVALID)
                 /\ (code = BT_OK
                     <-> exists length work_filter',
                           message_length hcimsg = Some length
                           /\ 5 <= length
                              <= to_uint8
                                   (SIZEOF_sli_work_filter cap16 cap32)
                           /\ sl_btctrl_hci_message_get_parameters hcimsg
                                (work_filter st) length = Some work_filter'
                           /\ acceptable_filter cap16 cap32 work_filter')
                 /\ (code = BT_ERR_INVALID ->
                     hci_event_filter st' = hci_event_filter st
                     /\ advertisment_report_incomplete st'
                        = advertisment_report_incomplete st)).
    { intros st0 Hf Ht Hno. exists BT_ERR_INVALID, st0.
      split; [reflexivity |]. split; [right; reflexivity |].
      split; [split | intros _; split; assumption].
      - intro H. exfalso. apply Hne. symmetry. exact H.
      - intro H. contradiction. }
    destruct (message_length hcimsg) as [len |] eqn:Hlen.
    2:{ apply Herr; try reflexivity.
        intros (l & w & E & _). discriminate. }
    destruct (Z.ltb_spec len 5) as [Hshort | Hmin]; cbn [orb].
    { apply Herr; try reflexivity.
      intros (l & w & E & Hr & _). injection E as <-. lia. }
    destruct (Z.gtb_spec len (to_uint8 (SIZEOF_sli_work_filter cap16 cap32)))
      as [Hlong | Hmax].
    { apply Herr; try reflexivity.
      intros (l & w & E & Hr & _). injection E as <-. lia. }
    destruct (sl_btctrl_hci_message_get_parameters hcimsg (work_filter st) len)
      as [w |] eqn:Ecopy.
    2:{ apply Herr; try reflexivity.
        intros (l & w & E & _ & Ec & _). injection E as <-.
        rewrite Ecopy in Ec. discriminate. }
    set (st1 := {| hci_event_filter := hci_event_filter st;
                   work_filter := w;
                   advertisment_report_incomplete :=
                     advertisment_report_incomplete st |}).
    destruct (configure_filtering_status cap16 cap32 st1 WORK_FILTER)
      as [[Ha Hs] | [Hn Hs]]; cbn [object_bytes st1 work_filter] in *.
    + destruct (sl_btctrl_hci_event_configure_filtering cap16 cap32 st1
                  (Some WORK_FILTER)) as [status st2] eqn:E.
      cbn [fst] in Hs. subst status.
      exists BT_OK, st2.
      split; [reflexivity |]. split; [left; reflexivity |].
      split; [split |].
      * intros _. exists len, w.
        split; [reflexivity |]. split; [lia |].
        split; [exact Ecopy | exact Ha].
      * reflexivity.
      * intro H. contradiction.
    + rewrite Hs. apply Herr; try reflexivity.
      intros (l & w' & E & _ & Ec & Ha). injection E as <-.
      rewrite Ecopy in Ec. injection Ec as <-. contradiction.
Qed.

Lemma hci_configure_filter_command_response_witness :
  hci_configure_filter_command 2 4 (static_state 2 4)
    {| message_opcode := Some 0x0c03;
       message_length := Some 0;
       message_parameters := Some [] |}
  = (false, None, static_state 2 4).
Proof.
  apply (proj1 (hci_configure_filter_command_response 2 4
                  (static_state 2 4) _)).
  right. exists 0x0c03. split; [reflexivity | discriminate].
Defined.

Lemma byte_at_app a c i :
  (i < length a)%nat -> byte_at (a ++ c) i = byte_at a i.
Proof. intro H. unfold byte_at. rewrite app_nth1 by exact H. reflexivity. Qed.

Lemma firstn_skipn_app (a c : list Z) off n :
  (off + n <= length a)%nat ->
  firstn n (skipn off (a ++ c)) = firstn n (skipn off a).
Proof.
  intro H. rewrite skipn_app, firstn_app.
  rewrite length_skipn.
  replace (n - (length a - off))%nat with 0%nat by lia.
  cbn [firstn]. apply app_nil_r.
Qed.

Lemma acceptable_filter_app cap16 cap32 a c :
  (7 + Z.to_nat (byte_at a 5) <= length a)%nat ->
  acceptable_filter cap16 cap32 a ->
  acceptable_filter cap16 cap32 (a ++ c).
Proof.
  intros Hlen. unfold acceptable_filter, user_config, user_rssi_threshold,
    uint32_at.
  rewrite !byte_at_app by lia.
  tauto.
Qed.

(** X4: a complete, valid command is installed as it stands.  When the
    work filter fits the handler's 8-bit length bound and a command with
    the handler's opcode holds exactly the 7 + n16 + n32 bytes its length
    bytes announce and passes the validator's checks, the handler answers
    [BT_OK] and the active configuration is the one the command encodes:
    its bit mask, its threshold, and for each width the announced bytes
    of the command as the active UUID list. *)
Theorem accepted_command_round_trip cap16 cap32 st hcimsg params :
  0 <= cap16 -> 0 <= cap32 ->
  SIZEOF_sli_work_filter cap16 cap32 <= 255 ->
  message_opcode hcimsg = Some SL_BT_HCI_CONFIGURE_FILTERING_OPCODE ->
  message_length hcimsg = Some (Z.of_nat (length params)) ->
  message_parameters hcimsg = Some params ->
  acceptable_filter cap16 cap32 params ->
  let n16 := Z.to_nat (byte_at params 5) in
  let n32 := Z.to_nat (byte_at params (6 + n16)) in
  length params = (7 + n16 + n32)%nat ->
  exists st',
    hci_configure_filter_command cap16 cap32 st hcimsg
    = (true, Some BT_OK, st')
    /\ filter_config (hci_event_filter st') = user_config params
    /\ rssi_threshold (hci_event_filter st') = user_rssi_threshold params
    /\ uuid_list_bytes st' (uuids_16bit (hci_event_filter st'))
       = Some (map to_uint8 (firstn n16 (skipn 6 params)))
    /\ uuid_list_bytes st' (uuids_32bit (hci_event_filter st'))
       = Some (map to_uint8 (firstn n32 (skipn (7 + n16) params))).
Proof.
  intros H16 H32 Hsize Hop Hlen Hpar Hacc n16 n32 Hcomplete.
  pose proof (byte_at_range params 5) as R16.
  pose proof (byte_at_range params (6 + n16)) as R32.
  destruct Hacc as (Hm & Hr & Hc16 & Hc32). fold n16 in Hc32.
  unfold hci_configure_filter_command. rewrite Hop, Hlen.
  rewrite Z.eqb_refl. cbn [negb].
  change (to_uint8 (4 + 1)) with 5.
  assert (Hs : SIZEOF_sli_work_filter cap16 cap32 = 7 + cap16 + cap32)
    by (unfold SIZEOF_sli_work_filter, WORK_MEMORY; lia).
  rewrite (to_uint8_small (SIZEOF_sli_work_filter cap16 cap32)) by lia.
  destruct (Z.ltb_spec (Z.of_nat (length params)) 5) as [| _]; [lia |].
  destruct (Z.gtb_spec (Z.of_nat (length params))
              (SIZEOF_sli_work_filter cap16 cap32)) as [| _];
    [subst n16 n32; lia |].
  cbn [orb].
  unfold sl_btctrl_hci_message_get_parameters. rewrite Hpar.
  rewrite Nat2Z.id, firstn_all.
  set (w := params ++ skipn (length params) (work_filter st)).
  set (st1 := {| hci_event_filter := hci_event_filter st;
                 work_filter := w;
                 advertisment_report_incomplete :=
                   advertisment_report_incomplete st |}).
  assert (Haccw : acceptable_filter cap16 cap32 w).
  { apply acceptable_filter_app; [fold n16; lia |].
    unfold acceptable_filter. fold n16. tauto. }
  destruct (configure_filtering_status cap16 cap32 st1 WORK_FILTER)
    as [[_ Hst] | [Hn _]]; [| contradiction].
  destruct (sl_btctrl_hci_event_configure_filtering cap16 cap32 st1
              (Some WORK_FILTER)) as [status st2] eqn:E.
  cbn [fst] in Hst. subst status.
  exists st2. split; [reflexivity |].
  pose proof (configure_filtering_ok _ _ _ _ _ E) as (_ & _ & ->).
  cbn [object_bytes st1 work_filter hci_event_filter filter_config
       rssi_threshold uuids_16bit uuids_32bit].
  assert (B5 : byte_at w 5 = byte_at params 5)
    by (apply byte_at_app; lia).
  assert (B6 : byte_at w (6 + Z.to_nat (byte_at w 5))
               = byte_at params (6 + n16)).
  { rewrite B5. fold n16. apply byte_at_app. lia. }
  split; [| split; [| split]].
  - unfold user_config, uint32_at. cbn [Nat.add].
    unfold w. rewrite !byte_at_app by lia. reflexivity.
  - unfold user_rssi_threshold, w. rewrite byte_at_app by lia. reflexivity.
  - unfold uuid_list_bytes. cbn [uuid_array_length uuid_array].
    rewrite B5.
    destruct (Z.eqb_spec (byte_at params 5) 0) as [E0 | Hn0].
    + subst n16. rewrite E0. reflexivity.
    + destruct (Z.gtb_spec (byte_at params 5) 0) as [_ |]; [| lia].
      cbn [resolve object_bytes work_filter deref_bytes].
      change 6 with (Z.of_nat 6). fold n16.
      rewrite load_bytes_in_range by (unfold w; rewrite length_app; lia).
      unfold w. rewrite firstn_skipn_app by lia. reflexivity.
  - unfold uuid_list_bytes. cbn [uuid_array_length uuid_array].
    rewrite B6, B5.
    destruct (Z.eqb_spec (byte_at params (6 + n16)) 0) as [E0 | Hn0].
    + subst n32. rewrite E0. reflexivity.
    + destruct (Z.gtb_spec (byte_at params (6 + n16)) 0) as [_ |]; [| lia].
      cbn [resolve object_bytes work_filter deref_bytes].
      replace (7 + byte_at params 5) with (Z.of_nat (7 + n16))
        by (subst n16; lia).
      fold n32.
      rewrite load_bytes_in_range by (unfold w; rewrite length_app; lia).
      unfold w. rewrite firstn_skipn_app by lia. reflexivity.
Qed.

Lemma accepted_command_round_trip_witness :
  exists st',
    hci_configure_filter_command 2 4 (static_state 2 4)
      {| message_opcode := Some SL_BT_HCI_CONFIGURE_FILTERING_OPCODE;
         message_length := Some 13;
         message_parameters :=
           Some [0x13; 0; 0; 0; 0xB0; 2; 0x0F; 0x18; 4; 0x0A; 0x18; 0; 0] |}
    = (true, Some BT_OK, st')
    /\ filter_config (hci_event_filter st') = 0x13
    /\ rssi_threshold (hci_event_filter st') = -80
    /\ uuid_list_bytes st' (uuids_16bit (hci_event_filter st'))
       = Some [0x0F; 0x18]
    /\ uuid_list_bytes st' (uuids_32bit (hci_event_filter st'))
       = Some [0x0A; 0x18; 0; 0].
Proof.
  refine (accepted_command_round_trip 2 4 (static_state 2 4)
            {| message_opcode := Some SL_BT_HCI_CONFIGURE_FILTERING_OPCODE;
               message_length := Some 13;
               message_parameters :=
                 Some [0x13; 0; 0; 0; 0xB0; 2; 0x0F; 0x18; 4;
                       0x0A; 0x18; 0; 0] |}
            [0x13; 0; 0; 0; 0xB0; 2; 0x0F; 0x18; 4; 0x0A; 0x18; 0; 0]
            ltac:(lia) ltac:(lia) ltac:(vm_compute; discriminate)
            eq_refl eq_refl eq_refl _ eq_refl).
  unfold acceptable_filter. vm_compute.
  repeat split; try discriminate; try reflexivity.
Defined.

(* ================================================================== *)
(** * Further properties of the matchers *)

(** A matcher loop whose counter cannot wrap returns, and returns [true]
    exactly when its body does at one of the counter's values. *)
Lemma for_uint8_decides body bound step :
  0 < step -> bound + step <= 256 ->
  forall fuel i,
    0 <= i ->
    (forall j, 0 <= j -> i + j * step < bound ->
               exists b, body (i + j * step) = Done b) ->
    Z.max 0 (bound - i) < Z.of_nat fuel ->
    exists r,
      for_uint8 fuel i bound step body = Done r
      /\ (r = true
          <-> exists j, 0 <= j /\ i + j * step < bound
                        /\ body (i + j * step) = Done true).
Proof.
  intros Hstep Hbound.
  induction fuel as [| fuel IH]; intros i Hi Hbody Hfuel; [lia |].
  cbn [for_uint8].
  destruct (Z.ltb_spec i bound) as [Hlt | Hge].
  - destruct (Hbody 0 ltac:(lia) ltac:(lia)) as [b Hb].
    replace (i + 0 * step) with i in Hb by lia.
    rewrite Hb. cbn [bind]. destruct b.
    + exists true. split; [reflexivity |]. split; [| reflexivity].
      intros _. exists 0. replace (i + 0 * step) with i by lia.
      repeat split; try lia. exact Hb.
    + rewrite to_uint8_small by lia.
      destruct (IH (i + step)) as (r & Hr & Hiff).
      * lia.
      * intros j Hj Hjb.
        replace (i + step + j * step) with (i + (j + 1) * step) by lia.
        apply Hbody; lia.
      * lia.
      * exists r. split; [exact Hr |]. rewrite Hiff. split.
        -- intros (j & Hj & Hjb & Hjt). exists (j + 1).
           replace (i + (j + 1) * step) with (i + step + j * step) by lia.
           repeat split; try lia. exact Hjt.
        -- intros (j & Hj & Hjb & Hjt).
           destruct (Z.eq_dec j 0) as [-> | Hnz].
           ++ replace (i + 0 * step) with i in Hjt by lia.
              rewrite Hb in Hjt. discriminate.
           ++ exists (j - 1).
              replace (i + step + (j - 1) * step) with (i + j * step) by lia.
              repeat split; try lia. exact Hjt.
  - exists false. split; [reflexivity |]. split; [discriminate |].
    intros (j & Hj & Hjb & _). nia.
Qed.

Lemma bytes_eqb_eq a b : bytes_eqb a b = true <-> a = b.
Proof.
  unfold bytes_eqb. destruct (list_eq_dec Z.eq_dec a b); split;
    congruence.
Qed.

Lemma memcmp_eq0_uuid p q uuid_size j u e :
  deref_bytes p uuid_size = Some u ->
  uuid_at q uuid_size j = Some e ->
  memcmp_eq0 p (ptr_add q (j * uuid_size)) uuid_size = Done (bytes_eqb u e).
Proof.
  unfold uuid_at, memcmp_eq0. intros -> ->. reflexivity.
Qed.

(** The search of the configured list for one UUID [u] read at [p]: the
    inner loop of both matchers. *)
Lemma uuid_list_search fuel uuid_size p uuid_array_length uuid_array u :
  0 < uuid_size ->
  uuid_array_length + uuid_size <= 256 ->
  deref_bytes p uuid_size = Some u ->
  (forall j, 0 <= j -> j * uuid_size < uuid_array_length ->
             uuid_at uuid_array uuid_size j <> None) ->
  Z.max 0 uuid_array_length < Z.of_nat fuel ->
  exists r,
    for_uint8 fuel 0 uuid_array_length uuid_size
      (fun j => memcmp_eq0 p (ptr_add uuid_array j) uuid_size) = Done r
    /\ (r = true
        <-> exists j, 0 <= j /\ j * uuid_size < uuid_array_length
                      /\ uuid_at uuid_array uuid_size j = Some u).
Proof.
  intros Hsize Hlen Hu Hread Hfuel.
  destruct (for_uint8_decides
              (fun i => memcmp_eq0 p (ptr_add uuid_array i) uuid_size)
              uuid_array_length uuid_size Hsize Hlen fuel 0)
    as (r & Hr & Hiff).
  - lia.
  - intros j Hj Hjb. cbn [Z.add] in *.
    destruct (uuid_at uuid_array uuid_size j) as [e |] eqn:He;
      [| exfalso; apply (Hread j Hj Hjb); exact He].
    exists (bytes_eqb u e). apply (memcmp_eq0_uuid _ _ _ _ _ _ Hu He).
  - lia.
  - exists r. split; [exact Hr |]. rewrite Hiff. cbn [Z.add].
    split; intros (j & Hj & Hjb & Hjt); exists j; repeat split; try lia.
    + destruct (uuid_at uuid_array uuid_size j) as [e |] eqn:He;
        [| exfalso; apply (Hread j Hj Hjb); exact He].
      rewrite (memcmp_eq0_uuid _ _ _ _ _ _ Hu He) in Hjt.
      injection Hjt as Hjt. apply bytes_eqb_eq in Hjt. subst e. reflexivity.
    + rewrite (memcmp_eq0_uuid _ _ _ _ _ _ Hu Hjt).
      f_equal. apply bytes_eqb_eq. reflexivity.
Qed.

(** X5: the service-data matcher.  When the leading [uuid_size] bytes of
    the AD payload and every [uuid_size]-byte entry that starts inside
    the configured list are readable, and the list is short enough for
    the 8-bit counter not to wrap, the matcher returns, and it returns
    [true] exactly when the leading bytes equal one of those entries. *)
Theorem service_data_match fuel uuid_size ad_data uuid_array_length
    uuid_array u :
  0 < uuid_size ->
  uuid_array_length + uuid_size <= 256 ->
  deref_bytes ad_data uuid_size = Some u ->
  (forall j, 0 <= j -> j * uuid_size < uuid_array_length ->
             uuid_at uuid_array uuid_size j <> None) ->
  Z.max 0 uuid_array_length < Z.of_nat fuel ->
  exists r,
    filter_service_data_uuid fuel uuid_size ad_data uuid_array_length
      uuid_array = Done r
    /\ (r = true
        <-> exists j, 0 <= j /\ j * uuid_size < uuid_array_length
                      /\ uuid_at uuid_array uuid_size j = Some u).
Proof.
  intros Hsize Hlen Hu Hread Hfuel.
  unfold filter_service_data_uuid.
  destruct (uuid_list_search fuel uuid_size ad_data uuid_array_length
              uuid_array u Hsize Hlen Hu Hread Hfuel) as (r & Hr & Hiff).
  exists r. split.
  - exact Hr.
  - exact Hiff.
Qed.

Lemma service_data_match_witness :
  exists r,
    filter_service_data_uuid 5 2 (Some ([0x0F; 0x18; 0x64], 0)) 4
      (Some ([0x0A; 0x18; 0x0F; 0x18], 0)) = Done r
    /\ (r = true
        <-> exists j, 0 <= j /\ j * 2 < 4
                      /\ uuid_at (Some ([0x0A; 0x18; 0x0F; 0x18], 0)) 2 j
                         = Some [0x0F; 0x18]).
Proof.
  apply (service_data_match 5 2 (Some ([0x0F; 0x18; 0x64], 0)) 4
           (Some ([0x0A; 0x18; 0x0F; 0x18], 0)) [0x0F; 0x18]).
  - lia.
  - lia.
  - reflexivity.
  - intros j Hj Hjb.
    assert (j = 0 \/ j = 1) as [-> | ->] by lia; discriminate.
  - cbn. lia.
Defined.

(** The double loop of the list matcher. *)
Lemma service_class_list_search fuel uuid_size ad_len ad_data
    uuid_array_length uuid_array :
  0 < uuid_size ->
  ad_len - 1 + uuid_size <= 256 ->
  uuid_array_length + uuid_size <= 256 ->
  (forall i, 0 <= i -> i * uuid_size < ad_len - 1 ->
             uuid_at ad_data uuid_size i <> None) ->
  (forall j, 0 <= j -> j * uuid_size < uuid_array_length ->
             uuid_at uuid_array uuid_size j <> None) ->
  Z.max 0 (Z.max (ad_len - 1) uuid_array_length) < Z.of_nat fuel ->
  exists r,
    sl_filter_list_of_service_class_uuids fuel uuid_size ad_len ad_data
      uuid_array_length uuid_array = Done r
    /\ (r = true
        <-> exists i j u,
              0 <= i /\ i * uuid_size < ad_len - 1
              /\ 0 <= j /\ j * uuid_size < uuid_array_length
              /\ uuid_at ad_data uuid_size i = Some u
              /\ uuid_at uuid_array uuid_size j = Some u).
Proof.
  intros Hsize Hpay Hlen Hrp Hrl Hfuel.
  unfold sl_filter_list_of_service_class_uuids.
  assert (Hinner : forall i, 0 <= i -> i * uuid_size < ad_len - 1 ->
            exists r,
              for_uint8 fuel 0 uuid_array_length uuid_size
                (fun j => memcmp_eq0 (ptr_add ad_data (0 + i * uuid_size))
                            (ptr_add uuid_array j) uuid_size) = Done r
              /\ (r = true
                  <-> exists j u,
                        0 <= j /\ j * uuid_size < uuid_array_length
                        /\ uuid_at ad_data uuid_size i = Some u
                        /\ uuid_at uuid_array uuid_size j = Some u)).
  { intros i Hi Hib.
    destruct (uuid_at ad_data uuid_size i) as [u |] eqn:Hu;
      [| exfalso; apply (Hrp i Hi Hib); exact Hu].
    pose proof (uuid_list_search fuel uuid_size
                  (ptr_add ad_data (i * uuid_size)) uuid_array_length
                  uuid_array u Hsize Hlen Hu Hrl ltac:(lia))
      as (r & Hr & Hiff).
    exists r. split; [exact Hr |]. rewrite Hiff.
    split.
    - intros (j & Hj & Hjb & Hjt). exists j, u. repeat split; assumption.
    - intros (j & u' & Hj & Hjb & Hu' & Hjt). injection Hu' as <-.
      exists j. repeat split; assumption. }
  destruct (for_uint8_decides
              (fun i =>
                 for_uint8 fuel 0 uuid_array_length uuid_size
                   (fun j => memcmp_eq0 (ptr_add ad_data i)
                               (ptr_add uuid_array j) uuid_size))
              (ad_len - 1) uuid_size Hsize Hpay fuel 0)
    as (r & Hr & Hiff).
  - lia.
  - intros i Hi Hib. destruct (Hinner i Hi ltac:(lia)) as (b & Hb & _).
    exists b. exact Hb.
  - lia.
  - exists r. split; [exact Hr |]. rewrite Hiff. split.
    + intros (i & Hi & Hib & Hit).
      destruct (Hinner i Hi ltac:(lia)) as (b & Hb & Hbiff).
      rewrite Hb in Hit. injection Hit as ->.
      destruct (proj1 Hbiff eq_refl) as (j & u & Hj & Hjb & Hu & Hl).
      exists i, j, u. repeat split; try assumption; lia.
    + intros (i & j & u & Hi & Hib & Hj & Hjb & Hu & Hl).
      exists i. split; [exact Hi |]. split; [lia |].
      destruct (Hinner i Hi Hib) as (b & Hb & Hbiff).
      rewrite Hb. f_equal. apply Hbiff. exists j, u.
      repeat split; assumption.
Qed.


(** X6: the service-class-list matcher.  When every [uuid_size]-byte
    entry that starts inside the AD payload ([ad_len - 1] bytes) and
    every entry that starts inside the configured list are readable, and
    neither 8-bit counter can wrap, the matcher returns, and it returns
    [true] exactly when some entry of the payload equals some entry of
    the list. *)
Theorem service_class_list_match fuel uuid_size ad_len ad_data
    uuid_array_length uuid_array :
  0 < uuid_size ->
  ad_len - 1 + uuid_size <= 256 ->
  uuid_array_length + uuid_size <= 256 ->
  (forall i, 0 <= i -> i * uuid_size < ad_len - 1 ->
             uuid_at ad_data uuid_size i <> None) ->
  (forall j, 0 <= j -> j * uuid_size < uuid_array_length ->
             uuid_at uuid_array uuid_size j <> None) ->
  Z.max 0 (Z.max (ad_len - 1) uuid_array_length) < Z.of_nat fuel ->
  exists r,
    sl_filter_list_of_service_class_uuids fuel uuid_size ad_len ad_data
      uuid_array_length uuid_array = Done r
    /\ (r = true
        <-> exists i j u,
              0 <= i /\ i * uuid_size < ad_len - 1
              /\ 0 <= j /\ j * uuid_size < uuid_array_length
              /\ uuid_at ad_data uuid_size i = Some u
              /\ uuid_at uuid_array uuid_size j = Some u).
Proof.
  intros Hsize Hpay Hlen Hrp Hrl Hfuel.
  destruct (service_class_list_search fuel uuid_size ad_len ad_data
              uuid_array_length uuid_array Hsize Hpay Hlen Hrp Hrl Hfuel)
    as (r & Hr & Hiff).
  exists r. split.
  - exact Hr.
  - exact Hiff.
Qed.

Lemma service_class_list_match_witness :
  exists r,
    sl_filter_list_of_service_class_uuids 9 4 9
      (Some ([0x01; 0; 0; 0; 0x0A; 0x18; 0; 0], 0)) 4
      (Some ([0x0A; 0x18; 0; 0], 0)) = Done r
    /\ (r = true
        <-> exists i j u,
              0 <= i /\ i * 4 < 9 - 1 /\ 0 <= j /\ j * 4 < 4
              /\ uuid_at (Some ([0x01; 0; 0; 0; 0x0A; 0x18; 0; 0], 0)) 4 i
                 = Some u
              /\ uuid_at (Some ([0x0A; 0x18; 0; 0], 0)) 4 j = Some u).
Proof.
  apply (service_class_list_match 9 4 9
           (Some ([0x01; 0; 0; 0; 0x0A; 0x18; 0; 0], 0)) 4
           (Some ([0x0A; 0x18; 0; 0], 0))).
  - lia.
  - lia.
  - lia.
  - intros i Hi Hib.
    assert (i = 0 \/ i = 1) as [-> | ->] by lia; discriminate.
  - intros j Hj Hjb. assert (j = 0) as -> by lia. discriminate.
  - cbn. lia.
Defined.

(* ================================================================== *)
(** * Further properties of the two stages *)

Lemma filter_by_rssi_decoded st event len pkt :
  Z.land (filter_config (hci_event_filter st))
         SL_BT_HCI_FILTER_CONFIG_RSSI_ENABLE_MASK <> 0 ->
  event_opcode event
  = Some (HCI_EVENT_LE_META_EVENT, HCI_EVENT_LE_EXTENDED_ADVERTISING_REPORT) ->
  event_length event = Some len ->
  RSSI_OFFSET <= len ->
  event_parameters event = Some pkt ->
  RSSI_OFFSET <= Z.of_nat (length pkt) ->
  filter_by_rssi st event
  = if to_int8 (byte_at pkt OFFSET_rssi) <? rssi_threshold (hci_event_filter st)
    then DISCARD else ACCEPT.
Proof.
  intros Hen Hop Hlen Hl Hpar Hp.
  unfold filter_by_rssi.
  destruct (Z.eqb_spec (Z.land (filter_config (hci_event_filter st))
              SL_BT_HCI_FILTER_CONFIG_RSSI_ENABLE_MASK) 0) as [H0 | _];
    [contradiction |].
  rewrite Hop. change (is_extended_advertising_report _ _) with true.
  cbn [negb]. rewrite Hlen.
  destruct (Z.ltb_spec len RSSI_OFFSET) as [| _]; [lia |].
  unfold sl_btctrl_hci_event_get_parameters. rewrite Hpar.
  cbn [option_map]. rewrite Nat2Z.id.
  unfold RSSI_OFFSET, OFFSET_periodic_advertising_interval in *.
  destruct (Z.ltb_spec
              (Z.of_nat (length (firstn HCI_ADV_REPORT_MAX_LEN pkt)))
              (Z.of_nat 18 + 2)) as [Hshort | _].
  { rewrite length_firstn in Hshort. unfold HCI_ADV_REPORT_MAX_LEN,
      SIZEOF_hci_le_extended_advertising_report_t in Hshort. lia. }
  unfold report_rssi.
  rewrite byte_at_buffer_after_copy.
  - reflexivity.
  - unfold OFFSET_rssi, HCI_ADV_REPORT_MAX_LEN,
      SIZEOF_hci_le_extended_advertising_report_t. lia.
  - unfold OFFSET_rssi. lia.
Qed.

Lemma filter_by_rssi_undecodable st event :
  Z.land (filter_config (hci_event_filter st))
         SL_BT_HCI_FILTER_CONFIG_RSSI_ENABLE_MASK <> 0 ->
  event_opcode event
  = Some (HCI_EVENT_LE_META_EVENT, HCI_EVENT_LE_EXTENDED_ADVERTISING_REPORT) ->
  rssi_undecodable event ->
  filter_by_rssi st event = DISCARD.
Proof.
  intros Hen Hop Hun. unfold filter_by_rssi.
  destruct (Z.eqb_spec (Z.land (filter_config (hci_event_filter st))
              SL_BT_HCI_FILTER_CONFIG_RSSI_ENABLE_MASK) 0) as [H0 | _];
    [contradiction |].
  rewrite Hop. change (is_extended_advertising_report _ _) with true.
  cbn [negb].
  destruct (event_length event) as [len |] eqn:Hlen; [| reflexivity].
  destruct (Z.ltb_spec len RSSI_OFFSET) as [| Hl]; [reflexivity |].
  unfold sl_btctrl_hci_event_get_parameters.
  destruct (event_parameters event) as [pkt |] eqn:Hpar; [| reflexivity].
  cbn [option_map].
  destruct (Z.ltb_spec
              (Z.of_nat (length (firstn (Z.to_nat
                                           (Z.of_nat HCI_ADV_REPORT_MAX_LEN))
                                   pkt))) RSSI_OFFSET) as [| Hc];
    [reflexivity |].
  exfalso.
  destruct Hun as [E | [(l & E & Hs) | [E | (p & E & Hs)]]].
  - congruence.
  - assert (l = len) by congruence. subst l. lia.
  - congruence.
  - assert (p = pkt) by congruence. subst p.
    rewrite length_firstn in Hc. lia.
Qed.

(** X7: the RSSI stage discards exactly when the RSSI rule is enabled
    and either the opcode cannot be read, or the event is an Extended
    Advertising Report that cannot be decoded (length or bytes
    unavailable, or either shorter than [RSSI_OFFSET]) or whose RSSI is
    below the threshold.  In every other case, in particular for every
    event with another opcode, it accepts. *)
Theorem filter_by_rssi_discards_iff st event :
  filter_by_rssi st event = DISCARD
  <-> Z.land (filter_config (hci_event_filter st))
             SL_BT_HCI_FILTER_CONFIG_RSSI_ENABLE_MASK <> 0
      /\ (event_opcode event = None
          \/ (event_opcode event
              = Some (HCI_EVENT_LE_META_EVENT,
                      HCI_EVENT_LE_EXTENDED_ADVERTISING_REPORT)
              /\ (rssi_undecodable event
                  \/ exists pkt,
                       event_parameters event = Some pkt
                       /\ to_int8 (byte_at pkt OFFSET_rssi)
                          < rssi_threshold (hci_event_filter st)))).
Proof.
  split.
  - intro Hd.
    destruct (Z.eq_dec (Z.land (filter_config (hci_event_filter st))
                SL_BT_HCI_FILTER_CONFIG_RSSI_ENABLE_MASK) 0) as [H0 | Hen].
    { unfold filter_by_rssi in Hd. rewrite H0 in Hd. discriminate. }
    split; [exact Hen |].
    destruct (event_opcode event) as [[opcode sub] |] eqn:Hop;
      [| left; reflexivity].
    right.
    destruct (is_extended_advertising_report opcode sub) eqn:Hext.
    2:{ unfold filter_by_rssi in Hd.
        destruct (_ =? 0); [discriminate |].
        rewrite Hop, Hext in Hd. discriminate. }
    unfold is_extended_advertising_report in Hext.
    apply andb_prop in Hext. destruct Hext as [H1 H2].
    apply Z.eqb_eq in H1, H2. subst opcode sub.
    split; [reflexivity |].
    destruct (event_length event) as [len |] eqn:Hlen;
      [| left; left; exact Hlen].
    destruct (Z.lt_ge_cases len RSSI_OFFSET) as [Hs | Hl];
      [left; right; left; exists len; split; [exact Hlen | exact Hs] |].
    destruct (event_parameters event) as [pkt |] eqn:Hpar;
      [| left; right; right; left; exact Hpar].
    destruct (Z.lt_ge_cases (Z.of_nat (length pkt)) RSSI_OFFSET)
      as [Hs | Hp];
      [left; right; right; right; exists pkt;
       split; [exact Hpar | exact Hs] |].
    right. exists pkt. split; [reflexivity |].
    rewrite (filter_by_rssi_decoded st event len pkt Hen Hop Hlen Hl Hpar Hp)
      in Hd.
    destruct (Z.ltb_spec (to_int8 (byte_at pkt OFFSET_rssi))
                (rssi_threshold (hci_event_filter st)));
      [assumption | discriminate].
  - intros (Hen & [Hnone | (Hop & [Hun | (pkt & Hpar & Hlt)])]).
    + unfold filter_by_rssi.
      destruct (Z.eqb_spec (Z.land (filter_config (hci_event_filter st))
                  SL_BT_HCI_FILTER_CONFIG_RSSI_ENABLE_MASK) 0);
        [contradiction |].
      rewrite Hnone. reflexivity.
    + apply filter_by_rssi_undecodable; assumption.
    + destruct (event_length event) as [len |] eqn:Hlen.
      2:{ apply filter_by_rssi_undecodable; try assumption.
          left. exact Hlen. }
      destruct (Z.lt_ge_cases len RSSI_OFFSET) as [Hs | Hl].
      { apply filter_by_rssi_undecodable; try assumption.
        right. left. exists len. split; assumption. }
      destruct (Z.lt_ge_cases (Z.of_nat (length pkt)) RSSI_OFFSET)
        as [Hs | Hp].
      { apply filter_by_rssi_undecodable; try assumption.
        right. right. right. exists pkt. split; assumption. }
      rewrite (filter_by_rssi_decoded st event len pkt Hen Hop Hlen Hl
                 Hpar Hp).
      destruct (Z.ltb_spec (to_int8 (byte_at pkt OFFSET_rssi))
                  (rssi_threshold (hci_event_filter st)));
        [reflexivity | lia].
Qed.

(** X8: the UUID stage before the scan.  With a UUID rule enabled it
    discards an event whose opcode cannot be read, accepts every event
    that is not an Extended Advertising Report, and discards an Extended
    Advertising Report that cannot be decoded; in all three cases the
    fragment tracker and the configuration stay as they were. *)
Theorem filter_by_uuid_before_scan fuel st event :
  uuid_rules_enabled st = true ->
  (event_opcode event = None ->
   filter_by_uuid fuel st event = Done (DISCARD, st))
  /\ (forall opcode subevent_opcode,
         event_opcode event = Some (opcode, subevent_opcode) ->
         opcode <> HCI_EVENT_LE_META_EVENT
         \/ subevent_opcode <> HCI_EVENT_LE_EXTENDED_ADVERTISING_REPORT ->
         filter_by_uuid fuel st event = Done (ACCEPT, st))
  /\ (event_opcode event
      = Some (HCI_EVENT_LE_META_EVENT,
              HCI_EVENT_LE_EXTENDED_ADVERTISING_REPORT) ->
      uuid_undecodable event ->
      filter_by_uuid fuel st event = Done (DISCARD, st)).
Proof.
  intro Hen. unfold uuid_rules_enabled in Hen.
  unfold filter_by_uuid. cbv zeta.
  destruct (_ =? 0); [discriminate |].
  split; [| split].
  - intro Hop. rewrite Hop. reflexivity.
  - intros opcode sub Hop Hne. rewrite Hop.
    unfold is_extended_advertising_report.
    destruct (Z.eqb_spec opcode HCI_EVENT_LE_META_EVENT),
             (Z.eqb_spec sub HCI_EVENT_LE_EXTENDED_ADVERTISING_REPORT);
      cbn [andb negb]; try reflexivity.
    destruct Hne; contradiction.
  - intros Hop Hun. rewrite Hop.
    change (is_extended_advertising_report _ _) with true. cbn [negb].
    unfold sl_btctrl_hci_event_get_parameters.
    destruct Hun as [E | [(len & E & Ep) | (len & pkt & E & Ep & Hbad)]];
      rewrite E; [reflexivity | rewrite Ep; reflexivity |].
    rewrite Ep. cbn [option_map]. unfold fill_buffer.
    destruct (Nat.ltb_spec HCI_ADV_REPORT_MAX_LEN
                (length (firstn (Z.to_nat (len + 2)) pkt))) as [Hover | _].
    { rewrite length_firstn in Hover. destruct Hbad as [Hneg | [_ Hfit]]; lia. }
    cbn [bind].
    destruct (Z.eqb_spec (Z.of_nat (length (firstn (Z.to_nat (len + 2)) pkt)))
                (len + 2)) as [Heq | _]; [| reflexivity].
    rewrite length_firstn in Heq. lia.
Qed.

Lemma filter_by_uuid_before_scan_witness :
  filter_by_uuid 8 battery_state
    {| event_opcode := Some (0x0e, 0);
       event_length := Some 4;
       event_parameters := Some [0x0e; 4; 1; 3; 0x0c; 0] |}
  = Done (ACCEPT, battery_state)
  /\ filter_by_uuid 8 battery_state
       {| event_opcode :=
            Some (HCI_EVENT_LE_META_EVENT,
                  HCI_EVENT_LE_EXTENDED_ADVERTISING_REPORT);
          event_length := Some 40;
          event_parameters := Some (report_header 40 0 0 4 ++ [3; 0x16]) |}
     = Done (DISCARD, battery_state).
Proof.
  split.
  - apply (proj1 (proj2 (filter_by_uuid_before_scan 8 battery_state
                           {| event_opcode := Some (0x0e, 0);
                              event_length := Some 4;
                              event_parameters :=
                                Some [0x0e; 4; 1; 3; 0x0c; 0] |}
                           eq_refl)) 0x0e 0 eq_refl).
    left. discriminate.
  - apply (proj2 (proj2 (filter_by_uuid_before_scan 8 battery_state
                           {| event_opcode :=
                                Some (HCI_EVENT_LE_META_EVENT,
                                      HCI_EVENT_LE_EXTENDED_ADVERTISING_REPORT);
                              event_length := Some 40;
                              event_parameters :=
                                Some (report_header 40 0 0 4 ++ [3; 0x16]) |}
                           eq_refl)) eq_refl).
    right. right.
    exists 40, (report_header 40 0 0 4 ++ [3; 0x16]).
    split; [reflexivity |]. split; [reflexivity |].
    right. split; [cbn; lia | vm_compute; lia].
Defined.

(** X9: the tracker mirrors the last decoded report.  After the UUID
    stage has decoded a report and returned, the tracker equals that
    report's incomplete flag; the verdict is the unconditional accept of
    the bypass when the flag differs from what the tracker was, and the
    verdict of the scan when it is the same.  Hence a report is scanned
    exactly when its flag equals the flag of the decoded report before
    it. *)
Theorem tracker_mirrors_incomplete_flag fuel st event buffer :
  uuid_rules_enabled st = true ->
  decoded_report event buffer ->
  (advertisment_report_incomplete st <> incomplete_flag buffer ->
   filter_by_uuid fuel st event
   = Done (ACCEPT, set_incomplete st (incomplete_flag buffer)))
  /\ (advertisment_report_incomplete st = incomplete_flag buffer ->
      filter_by_uuid fuel st event
      = (status <- scan_ad_structures fuel fuel st (report_data buffer)
                     (report_data_length buffer) 0 ;;
         Done (status, st)))
  /\ (forall verdict st',
         filter_by_uuid fuel st event = Done (verdict, st') ->
         advertisment_report_incomplete st' = incomplete_flag buffer
         /\ uuid_rules_enabled st' = true).
Proof.
  intros Hen Hdec.
  rewrite (filter_by_uuid_decoded fuel st event buffer Hen Hdec).
  unfold filter_report_by_uuid.
  destruct (advertisment_report_incomplete st) eqn:Ht,
           (incomplete_flag buffer) eqn:Hf; cbn [negb andb].
  - split; [intro H; contradiction H; reflexivity |].
    split; [reflexivity |].
    intros verdict st' E.
    destruct (scan_ad_structures _ _ _ _ _ _); cbn [bind] in E;
      try discriminate.
    injection E as _ <-. split; assumption.
  - split; [reflexivity |].
    split; [intro H; discriminate H |].
    intros verdict st' E. injection E as _ <-.
    split; [reflexivity | exact Hen].
  - split; [reflexivity |].
    split; [intro H; discriminate H |].
    intros verdict st' E. injection E as _ <-.
    split; [reflexivity | exact Hen].
  - split; [intro H; contradiction H; reflexivity |].
    split; [reflexivity |].
    intros verdict st' E.
    destruct (scan_ad_structures _ _ _ _ _ _); cbn [bind] in E;
      try discriminate.
    injection E as _ <-. split; assumption.
Qed.

Lemma tracker_mirrors_incomplete_flag_witness :
  filter_by_uuid 8 battery_state first_fragment_event
  = Done (ACCEPT, set_incomplete battery_state true).
Proof.
  refine (proj1 (tracker_mirrors_incomplete_flag 8 battery_state
                   first_fragment_event
                   (buffer_after_copy
                      (report_header 30 32 0 4 ++ [3; 0x16; 0x0A; 0x18]))
                   eq_refl _) _).
  - exists 30, (report_header 30 32 0 4 ++ [3; 0x16; 0x0A; 0x18]).
    repeat split; try reflexivity; vm_compute; discriminate.
  - discriminate.
Defined.

(** X10: the policy at start-up.  Until a configuration is installed the
    UUID stage accepts every event without touching the tracker, so the
    verdict of both stages is that of the RSSI stage, which accepts a
    decodable Extended Advertising Report exactly when its RSSI is at
    least -80. *)
Theorem default_policy cap16 cap32 fuel event :
  let init := sli_bt_hci_filter_init (static_state cap16 cap32) in
  filter_by_uuid fuel init event = Done (ACCEPT, init)
  /\ filter_event fuel init event = Done (filter_by_rssi init event, init)
  /\ (forall len pkt,
         event_opcode event
         = Some (HCI_EVENT_LE_META_EVENT,
                 HCI_EVENT_LE_EXTENDED_ADVERTISING_REPORT) ->
         event_length event = Some len -> RSSI_OFFSET <= len ->
         event_parameters event = Some pkt ->
         RSSI_OFFSET <= Z.of_nat (length pkt) ->
         (filter_by_rssi init event = ACCEPT
          <-> -80 <= to_int8 (byte_at pkt OFFSET_rssi))).
Proof.
  cbv zeta.
  assert (Hu : filter_by_uuid fuel
                 (sli_bt_hci_filter_init (static_state cap16 cap32)) event
               = Done (ACCEPT,
                       sli_bt_hci_filter_init (static_state cap16 cap32))).
  { apply filter_by_uuid_disabled. reflexivity. }
  split; [exact Hu |]. split.
  - unfold filter_event. rewrite Hu. cbn [bind fst snd].
    destruct (filter_by_rssi _ event); reflexivity.
  - intros len pkt Hop Hlen Hl Hpar Hp.
    assert (Hen : Z.land
                    (filter_config
                       (hci_event_filter
                          (sli_bt_hci_filter_init
                             (static_state cap16 cap32))))
                    SL_BT_HCI_FILTER_CONFIG_RSSI_ENABLE_MASK <> 0)
      by (intro H0; vm_compute in H0; discriminate H0).
    rewrite (filter_by_rssi_decoded _ event len pkt Hen Hop Hlen Hl Hpar Hp).
    cbn [sli_bt_hci_filter_init hci_event_filter rssi_threshold].
    unfold SL_BT_HCI_FILTER_RSSI_THRESHOLD.
    destruct (Z.ltb_spec (to_int8 (byte_at pkt OFFSET_rssi)) (-80))
      as [Hlt | Hge]; split; intro Hx;
      try discriminate; try lia; reflexivity.
Qed.

(** ** The scan, one structure after the other *)

(** X11: what the scan makes of a structure that follows structures
    without a match.  If its length byte exceeds the remaining length
    the report is discarded; if it fits and matches, the report is
    accepted, whatever bytes come after it. *)
Theorem scan_after_unmatched_prefix
    fuel mfuel st data data_length ads pos remaining len ty :
  ad_prefix data 0 data_length ads pos remaining ->
  0 <= data_length <= 255 ->
  Forall (fun a => ad_structure_matches st mfuel data a = Done false) ads ->
  remaining <> 0 ->
  load data pos = Some len ->
  load data (pos + 1) = Some ty ->
  (remaining < len ->
   scan_ad_structures (length ads + S fuel) mfuel st data data_length 0
   = Done DISCARD)
  /\ (len <= remaining ->
      ad_structure_matches st mfuel data
        {| ad_length := len; ad_type := ty; ad_payload := pos + 2 |}
      = Done true ->
      scan_ad_structures (length ads + S fuel) mfuel st data data_length 0
      = Done ACCEPT).
Proof.
  intros Hpre Hrange Hall Hrem Hl Ht.
  destruct (scan_ad_prefix st mfuel data 0 data_length ads pos remaining
              Hpre ltac:(lia) ltac:(lia) ltac:(lia) Hall)
    as (Hscan & _ & _ & _).
  split.
  - intro Hlong. rewrite Hscan.
    apply (scan_ad_structures_overlong fuel mfuel st data remaining pos
             len ty); assumption.
  - intros Hfit Hmatch. rewrite Hscan.
    rewrite (scan_ad_structures_step fuel mfuel st data remaining pos len ty)
      by assumption.
    rewrite Hmatch. reflexivity.
Qed.

Lemma scan_after_unmatched_prefix_witness :
  scan_ad_structures 2 8 battery_state [1; 0x01; 9; 0x16; 0x0F; 0x18] 6 0
  = Done DISCARD
  /\ scan_ad_structures 2 8 battery_state [1; 0x01; 3; 0x16; 0x0F; 0x18; 77]
       7 0
     = Done ACCEPT.
Proof.
  split.
  - refine (proj1 (scan_after_unmatched_prefix 0 8 battery_state
                     [1; 0x01; 9; 0x16; 0x0F; 0x18] 6
                     [ {| ad_length := 1; ad_type := 1; ad_payload := 2 |} ]
                     2 4 9 0x16 _ ltac:(lia) _ ltac:(lia) eq_refl eq_refl)
              ltac:(lia)).
    + apply (ad_prefix_cons _ 0 6 1 1); try reflexivity; try lia.
      apply ad_prefix_nil.
    + constructor; [reflexivity | constructor].
  - refine (proj2 (scan_after_unmatched_prefix 0 8 battery_state
                     [1; 0x01; 3; 0x16; 0x0F; 0x18; 77] 7
                     [ {| ad_length := 1; ad_type := 1; ad_payload := 2 |} ]
                     2 5 3 0x16 _ ltac:(lia) _ ltac:(lia) eq_refl eq_refl)
              ltac:(lia) eq_refl).
    + apply (ad_prefix_cons _ 0 7 1 1); try reflexivity; try lia.
      apply ad_prefix_nil.
    + constructor; [reflexivity | constructor].
Defined.

(** ** From a configured UUID to an accepted report *)

Lemma rule_bit_enables_uuid_rules st ty bit width shape :
  rule_of_ad_type ty = Some (bit, width, shape) ->
  config_bit (filter_config (hci_event_filter st)) bit = true ->
  uuid_rules_enabled st = true /\ (width = 2 \/ width = 4).
Proof.
  unfold rule_of_ad_type. intros Hrule Hbit.
  rewrite uuid_rules_enabled_bits. cbv zeta.
  repeat match type of Hrule with
         | (if ?c then _ else _) = _ => destruct c
         end;
    try discriminate; injection Hrule as <- <- _; rewrite Hbit;
    rewrite ?orb_true_r; split; try reflexivity; lia.
Qed.

Lemma filter_by_uuid_first_structure fuel st event buffer len ty :
  uuid_rules_enabled st = true ->
  decoded_report event buffer ->
  advertisment_report_incomplete st = incomplete_flag buffer ->
  report_data_length buffer <> 0 ->
  load (report_data buffer) 0 = Some len ->
  load (report_data buffer) 1 = Some ty ->
  len <= report_data_length buffer ->
  ad_structure_matches st (S fuel) (report_data buffer)
    {| ad_length := len; ad_type := ty; ad_payload := 2 |} = Done true ->
  filter_by_uuid (S fuel) st event = Done (ACCEPT, st).
Proof.
  intros Hen Hdec Htr Hnz Hl Ht Hfit Hmatch.
  rewrite (filter_by_uuid_decoded (S fuel) st event buffer Hen Hdec).
  unfold filter_report_by_uuid. rewrite Htr.
  rewrite andb_negb_l, andb_negb_r.
  rewrite (scan_ad_structures_step fuel (S fuel) st (report_data buffer)
             (report_data_length buffer) 0 len ty) by assumption.
  change (0 + 2) with 2. rewrite Hmatch. reflexivity.
Qed.

(** X12: a configured service-data UUID lets the report through.  When
    the first AD structure of a decoded report that reaches the scan is a
    service-data structure (type 0x16 or 0x20) whose rule is enabled and
    whose leading UUID equals an entry of the configured list of that
    width, the report is accepted. *)
Theorem configured_service_data_uuid_accepts
    fuel st event buffer len ty bit width u j :
  rule_of_ad_type ty = Some (bit, width, ServiceData) ->
  config_bit (filter_config (hci_event_filter st)) bit = true ->
  decoded_report event buffer ->
  advertisment_report_incomplete st = incomplete_flag buffer ->
  report_data_length buffer <> 0 ->
  load (report_data buffer) 0 = Some len ->
  load (report_data buffer) 1 = Some ty ->
  len <= report_data_length buffer ->
  deref_bytes (Some (report_data buffer, 2)) width = Some u ->
  let list := configured_list st width in
  let uuid_array := resolve st (uuid_array list) in
  uuid_array_length list + width <= 256 ->
  (forall k, 0 <= k -> k * width < uuid_array_length list ->
             uuid_at uuid_array width k <> None) ->
  0 <= j -> j * width < uuid_array_length list ->
  uuid_at uuid_array width j = Some u ->
  (256 <= fuel)%nat ->
  filter_by_uuid fuel st event = Done (ACCEPT, st).
Proof.
  intros Hrule Hbit Hdec Htr Hnz Hl Ht Hfit Hu list arr Hlen Hread Hj Hjb
    Hin Hfuel.
  destruct (rule_bit_enables_uuid_rules st ty bit width ServiceData
              Hrule Hbit) as [Hen Hw].
  destruct fuel as [| fuel]; [lia |].
  apply (filter_by_uuid_first_structure fuel st event buffer len ty);
    try assumption.
  unfold ad_structure_matches. cbn [ad_type ad_payload ad_length].
  rewrite Hrule, Hbit. fold list. fold arr.
  unfold filter_service_data_uuid.
  destruct (uuid_list_search (S fuel) width (Some (report_data buffer, 2))
              (uuid_array_length list) arr u ltac:(lia) Hlen Hu Hread
              ltac:(lia)) as (r & Hr & Hiff).
  rewrite Hr. f_equal. apply Hiff. exists j. repeat split; assumption.
Qed.

Lemma configured_service_data_uuid_accepts_witness :
  filter_by_uuid 256 battery_state
    (report_event 0 0 5 [4; 0x16; 0x0F; 0x18; 0x64])
  = Done (ACCEPT, battery_state).
Proof.
  refine (configured_service_data_uuid_accepts 256 battery_state _
            (buffer_after_copy
               (report_header 31 0 0 5 ++ [4; 0x16; 0x0F; 0x18; 0x64]))
            4 0x16 1 2 [0x0F; 0x18] 0
            eq_refl eq_refl _ eq_refl _ eq_refl eq_refl _ eq_refl
            _ _ ltac:(lia) _ eq_refl ltac:(lia)).
  - exists 31, (report_header 31 0 0 5 ++ [4; 0x16; 0x0F; 0x18; 0x64]).
    repeat split; try reflexivity; vm_compute; discriminate.
  - vm_compute. discriminate.
  - vm_compute. discriminate.
  - vm_compute. discriminate.
  - intros k Hk Hkb. assert (k = 0) as -> by (cbn in Hkb; lia).
    discriminate.
  - cbn. lia.
Defined.

(** X13: a configured service-class UUID lets the report through.  When
    the first AD structure of a decoded report that reaches the scan is a
    list of service-class UUIDs (types 0x02 to 0x05) whose rule is
    enabled, and one entry of its payload equals an entry of the
    configured list of that width, the report is accepted, wherever in
    the payload and in the list the two entries are. *)
Theorem configured_service_class_uuid_accepts
    fuel st event buffer len ty bit width u i j :
  rule_of_ad_type ty = Some (bit, width, ServiceClassList) ->
  config_bit (filter_config (hci_event_filter st)) bit = true ->
  decoded_report event buffer ->
  advertisment_report_incomplete st = incomplete_flag buffer ->
  report_data_length buffer <> 0 ->
  load (report_data buffer) 0 = Some len ->
  load (report_data buffer) 1 = Some ty ->
  len <= report_data_length buffer ->
  let payload : pointer := Some (report_data buffer, 2) in
  let list := configured_list st width in
  let uuid_array := resolve st (uuid_array list) in
  len - 1 + width <= 256 ->
  uuid_array_length list + width <= 256 ->
  (forall k, 0 <= k -> k * width < len - 1 ->
             uuid_at payload width k <> None) ->
  (forall k, 0 <= k -> k * width < uuid_array_length list ->
             uuid_at uuid_array width k <> None) ->
  0 <= i -> i * width < len - 1 -> uuid_at payload width i = Some u ->
  0 <= j -> j * width < uuid_array_length list ->
  uuid_at uuid_array width j = Some u ->
  (256 <= fuel)%nat ->
  filter_by_uuid fuel st event = Done (ACCEPT, st).
Proof.
  intros Hrule Hbit Hdec Htr Hnz Hl Ht Hfit payload list arr Hpay Hlen
    Hrp Hrl Hi Hib Hpi Hj Hjb Hlj Hfuel.
  destruct (rule_bit_enables_uuid_rules st ty bit width ServiceClassList
              Hrule Hbit) as [Hen Hw].
  pose proof (load_range _ _ _ Hl) as Rl.
  destruct fuel as [| fuel]; [lia |].
  apply (filter_by_uuid_first_structure fuel st event buffer len ty);
    try assumption.
  unfold ad_structure_matches. cbn [ad_type ad_payload ad_length].
  rewrite Hrule, Hbit. fold list. fold arr. fold payload.
  destruct (service_class_list_search (S fuel) width len payload
              (uuid_array_length list) arr ltac:(lia) Hpay Hlen Hrp Hrl
              ltac:(lia)) as (r & Hr & Hiff).
  rewrite Hr. f_equal. apply Hiff. exists i, j, u.
  repeat split; assumption.
Qed.

Lemma configured_service_class_uuid_accepts_witness :
  filter_by_uuid 256 device_information_state
    (report_event 0 0 10 [9; 0x05; 0x01; 0; 0; 0; 0x0A; 0x18; 0; 0])
  = Done (ACCEPT, device_information_state).
Proof.
  refine (configured_service_class_uuid_accepts 256
            device_information_state _
            (buffer_after_copy
               (report_header 36 0 0 10
                ++ [9; 0x05; 0x01; 0; 0; 0; 0x0A; 0x18; 0; 0]))
            9 0x05 6 4 [0x0A; 0x18; 0; 0] 1 0
            eq_refl eq_refl _ eq_refl _ eq_refl eq_refl _
            _ _ _ _ ltac:(lia) _ eq_refl ltac:(lia) _ eq_refl ltac:(lia)).
  - exists 36, (report_header 36 0 0 10
                ++ [9; 0x05; 0x01; 0; 0; 0; 0x0A; 0x18; 0; 0]).
    repeat split; try reflexivity; vm_compute; discriminate.
  - vm_compute. discriminate.
  - vm_compute. discriminate.
  - lia.
  - vm_compute. discriminate.
  - intros k Hk Hkb. assert (k = 0 \/ k = 1) as [-> | ->] by lia;
      discriminate.
  - intros k Hk Hkb.
    change (uuid_array_length
              (configured_list device_information_state 4)) with 4 in Hkb.
    assert (k = 0) as -> by lia.
    discriminate.
  - lia.
  - change (uuid_array_length
              (configured_list device_information_state 4)) with 4.
    lia.
Defined.

(* ================================================================== *)
(** * The circular queue *)

Lemma succ_mod n a :
  0 <= a < n -> (a + 1) mod n = if a + 1 =? n then 0 else a + 1.
Proof.
  intro H. destruct (Z.eqb_spec (a + 1) n) as [E | E].
  - rewrite E. apply Z_mod_same_full.
  - apply Z.mod_small. lia.
Qed.

Lemma sub_mod n a b :
  0 <= a < n -> 0 <= b < n ->
  (a - b) mod n = if b <=? a then a - b else a - b + n.
Proof.
  intros Ha Hb. destruct (Z.leb_spec b a).
  - apply Z.mod_small. lia.
  - symmetry. apply (Z.mod_unique _ _ (-1)); lia.
Qed.

Lemma add_mod n a k :
  0 <= a < n -> 0 <= k < n ->
  (a + k) mod n = if a + k <? n then a + k else a + k - n.
Proof.
  intros Ha Hk. destruct (Z.ltb_spec (a + k) n).
  - apply Z.mod_small. lia.
  - symmetry. apply (Z.mod_unique _ _ 1); lia.
Qed.

Lemma in_use_count_range q :
  queue_wf q -> 0 <= in_use_count q <= maxSize q.
Proof.
  intros (Hn & Hh & Ht & Hf). unfold in_use_count, CIRCULAR_QUEUE_SIZE_MIN in *.
  destruct (isFull q); [lia |].
  pose proof (Z.mod_pos_bound (head q - tail q) (maxSize q) ltac:(lia)). lia.
Qed.

Lemma in_use_NoDup q : queue_wf q -> NoDup (in_use q).
Proof.
  intro Hwf. pose proof (in_use_count_range q Hwf) as Hc.
  destruct Hwf as (Hn & Hh & Ht & Hf). unfold CIRCULAR_QUEUE_SIZE_MIN in *.
  unfold in_use. apply NoDup_map_NoDup_ForallPairs; [| apply seq_NoDup].
  intros a b Ha Hb E. apply in_seq in Ha, Hb.
  rewrite !add_mod in E by lia.
  destruct (Z.ltb_spec (tail q + Z.of_nat a) (maxSize q)),
           (Z.ltb_spec (tail q + Z.of_nat b) (maxSize q)); lia.
Qed.

Lemma in_use_bounds q i :
  queue_wf q -> In i (in_use q) -> 0 <= i < maxSize q.
Proof.
  intros (Hn & _) Hin. unfold in_use, CIRCULAR_QUEUE_SIZE_MIN in *.
  apply in_map_iff in Hin. destruct Hin as (k & <- & _).
  apply Z.mod_pos_bound. lia.
Qed.

(** X14: initialisation.  [efr32CircularQueueInit] passes its assertion
    exactly for sizes of at least 2, and the queue it sets up is well
    formed, empty, not full, and has no index in use. *)
Theorem queue_init_empty aQueueSize :
  0 <= aQueueSize <= 255 ->
  (efr32CircularQueueInit aQueueSize = None
   <-> aQueueSize < CIRCULAR_QUEUE_SIZE_MIN)
  /\ (forall q,
         efr32CircularQueueInit aQueueSize = Some q ->
         queue_wf q
         /\ maxSize q = aQueueSize
         /\ efr32CircularQueueIsEmpty q = true
         /\ efr32CircularQueueIsFull q = false
         /\ in_use q = []
         /\ efr32CircularQueueGetNextInuseIndex q
            = EFR32_INVALID_QUEUE_INDEX).
Proof.
  intro Hrange. unfold efr32CircularQueueInit.
  rewrite to_uint8_small by lia.
  unfold CIRCULAR_QUEUE_SIZE_MIN.
  destruct (Z.ltb_spec aQueueSize 2) as [Hlt | Hge].
  - split; [split; [intros _; exact Hlt | reflexivity] |].
    intros q E. discriminate.
  - split; [split; [discriminate | lia] |].
    intros q E. injection E as <-.
    unfold queue_wf, CIRCULAR_QUEUE_SIZE_MIN, in_use, in_use_count.
    cbn [maxSize head tail isFull].
    rewrite Z.sub_diag, Z.mod_0_l by lia.
    repeat split; try lia; try reflexivity; discriminate.
Qed.

Lemma queue_init_empty_witness :
  efr32CircularQueueInit 1 = None
  /\ exists q, efr32CircularQueueInit 4 = Some q /\ in_use q = [].
Proof.
  split.
  - apply (proj1 (queue_init_empty 1 ltac:(lia))).
    unfold CIRCULAR_QUEUE_SIZE_MIN. lia.
  - eexists. split; [reflexivity |].
    apply (proj2 (queue_init_empty 4 ltac:(lia)) _ eq_refl).
Defined.

(** X15: taking an index.  On a well-formed queue that is full,
    [efr32CircularQueueGetFreeIndex] returns the invalid index and
    leaves the queue alone.  Otherwise it returns the head, which is a
    valid slot number below [maxSize], differs from the invalid index,
    is not in use, and becomes the newest index in use; the queue stays
    well formed and turns full exactly when all [maxSize] indices are in
    use. *)
Theorem queue_get_free_index q :
  queue_wf q ->
  let i := fst (efr32CircularQueueGetFreeIndex q) in
  let q' := snd (efr32CircularQueueGetFreeIndex q) in
  queue_wf q' /\ maxSize q' = maxSize q
  /\ (efr32CircularQueueIsFull q = true ->
      i = EFR32_INVALID_QUEUE_INDEX /\ q' = q)
  /\ (efr32CircularQueueIsFull q = false ->
      i = head q
      /\ 0 <= i < maxSize q
      /\ i <> EFR32_INVALID_QUEUE_INDEX
      /\ ~ In i (in_use q)
      /\ in_use q' = in_use q ++ [i]
      /\ (efr32CircularQueueIsFull q' = true
          <-> Z.of_nat (length (in_use q')) = maxSize q)).
Proof.
  intro Hwf. pose proof (in_use_count_range q Hwf) as Hc.
  pose proof Hwf as (Hn & Hh & Ht & Hf).
  unfold CIRCULAR_QUEUE_SIZE_MIN in *.
  unfold efr32CircularQueueGetFreeIndex, efr32CircularQueueIsFull,
    EFR32_INVALID_QUEUE_INDEX. cbv zeta.
  destruct (isFull q) eqn:Efull.
  - destruct (Z.ltb_spec 255 (maxSize q)) as [| _]; [lia |].
    cbn [fst snd]. repeat split; try assumption; try reflexivity;
      try discriminate; tauto.
  - destruct (Z.ltb_spec (head q) (maxSize q)) as [_ |]; [| lia].
    cbn [fst snd maxSize].
    rewrite succ_mod by lia.
    set (h' := if head q + 1 =? maxSize q then 0 else head q + 1).
    assert (Hh' : 0 <= h' < maxSize q)
      by (subst h'; destruct (Z.eqb_spec (head q + 1) (maxSize q)); lia).
    rewrite (to_uint8_small h') by lia.
    set (q' := {| maxSize := maxSize q; head := h'; tail := tail q;
                  isFull := h' =? tail q |}).
    assert (Hwf' : queue_wf q').
    { unfold queue_wf, CIRCULAR_QUEUE_SIZE_MIN, q'.
      cbn [maxSize head tail isFull].
      split; [lia |]. split; [lia |]. split; [lia |].
      intro E. apply Z.eqb_eq in E. exact E. }
    assert (Hcount : in_use_count q' = in_use_count q + 1).
    { unfold in_use_count, q'. cbn [maxSize head tail isFull].
      rewrite Efull. rewrite !sub_mod by lia. subst h'.
      destruct (Z.eqb_spec (head q + 1) (maxSize q)),
               (Z.leb_spec (tail q) (head q));
        repeat match goal with
               | |- context [?a =? ?b] => destruct (Z.eqb_spec a b)
               | |- context [?a <=? ?b] => destruct (Z.leb_spec a b)
               end; lia. }
    assert (Happ : in_use q' = in_use q ++ [head q]).
    { unfold in_use. rewrite Hcount.
      replace (Z.to_nat (in_use_count q + 1))
        with (S (Z.to_nat (in_use_count q))) by lia.
      rewrite seq_S, map_app. cbn [maxSize tail map Nat.add q'].
      f_equal. f_equal.
      rewrite Z2Nat.id by lia.
      unfold in_use_count. rewrite Efull.
      rewrite Zplus_mod_idemp_r.
      replace (tail q + (head q - tail q)) with (head q) by lia.
      apply Z.mod_small. lia. }
    split; [exact Hwf' |]. split; [reflexivity |].
    split; [discriminate |]. intros _.
    split; [reflexivity |]. split; [lia |]. split; [lia |].
    split; [| split; [exact Happ |]].
    + pose proof (in_use_NoDup q' Hwf') as Hnd.
      rewrite Happ in Hnd.
      apply NoDup_remove_2 in Hnd. rewrite app_nil_r in Hnd. exact Hnd.
    + unfold in_use at 1. rewrite length_map, length_seq.
      rewrite Z2Nat.id by (pose proof (in_use_count_range q' Hwf'); lia).
      unfold in_use_count at 1. unfold q' at 1. cbn [isFull maxSize].
      destruct (Z.eqb_spec h' (tail q)) as [E | E].
      * split; intros _; reflexivity.
      * split; [discriminate |].
        unfold q'. cbn [head tail maxSize]. intro Heq. exfalso.
        pose proof (Z.mod_pos_bound (h' - tail q) (maxSize q) ltac:(lia)).
        cbn [isFull] in Heq. lia.
Qed.

Lemma queue_get_free_index_witness :
  fst (efr32CircularQueueGetFreeIndex
         {| maxSize := 4; head := 3; tail := 1; isFull := false |}) = 3
  /\ in_use (snd (efr32CircularQueueGetFreeIndex
                    {| maxSize := 4; head := 3; tail := 1;
                       isFull := false |}))
     = [1; 2; 3].
Proof.
  assert (Hwf : queue_wf {| maxSize := 4; head := 3; tail := 1;
                            isFull := false |}).
  { unfold queue_wf, CIRCULAR_QUEUE_SIZE_MIN. cbn.
    repeat split; try lia; discriminate. }
  destruct (queue_get_free_index _ Hwf) as (_ & _ & _ & H).
  destruct (H eq_refl) as (Hi & _ & _ & _ & Happ & _).
  split; [exact Hi | exact Happ].
Defined.

Lemma in_use_length q :
  queue_wf q -> Z.of_nat (length (in_use q)) = in_use_count q.
Proof.
  intro Hwf. pose proof (in_use_count_range q Hwf).
  unfold in_use. rewrite length_map, length_seq. lia.
Qed.

(** X16: the view of a well-formed queue.  The indices in use are
    pairwise different slot numbers below [maxSize], none of them the
    invalid index, and at most [maxSize] many; the queue reports empty
    exactly when none is in use and full exactly when [maxSize] are; and
    [efr32CircularQueueGetNextInuseIndex] returns the oldest of them, or
    the invalid index when there is none. *)
Theorem queue_view q :
  queue_wf q ->
  NoDup (in_use q)
  /\ (forall i, In i (in_use q) ->
                0 <= i < maxSize q /\ i <> EFR32_INVALID_QUEUE_INDEX)
  /\ Z.of_nat (length (in_use q)) <= maxSize q
  /\ (efr32CircularQueueIsEmpty q = true <-> in_use q = [])
  /\ (efr32CircularQueueIsFull q = true
      <-> Z.of_nat (length (in_use q)) = maxSize q)
  /\ efr32CircularQueueGetNextInuseIndex q
     = hd EFR32_INVALID_QUEUE_INDEX (in_use q).
Proof.
  intro Hwf. pose proof (in_use_count_range q Hwf) as Hc.
  pose proof (in_use_length q Hwf) as Hlen.
  pose proof Hwf as (Hn & Hh & Ht & Hf).
  unfold CIRCULAR_QUEUE_SIZE_MIN in *.
  assert (Hcount : in_use_count q
                   = if isFull q then maxSize q
                     else if tail q <=? head q then head q - tail q
                          else head q - tail q + maxSize q).
  { unfold in_use_count. destruct (isFull q); [reflexivity |].
    apply sub_mod; lia. }
  split; [apply in_use_NoDup; exact Hwf |].
  split.
  { intros i Hin. pose proof (in_use_bounds q i Hwf Hin).
    unfold EFR32_INVALID_QUEUE_INDEX. lia. }
  split; [lia |].
  split; [| split].
  - unfold efr32CircularQueueIsEmpty, efr32CircularQueueIsFull.
    split.
    + intro E. apply andb_prop in E. destruct E as [E1 E2].
      apply Z.eqb_eq in E1. apply negb_true_iff in E2.
      rewrite E2 in Hcount.
      destruct (Z.leb_spec (tail q) (head q)); [| lia].
      destruct (in_use q); [reflexivity | cbn [length] in Hlen; lia].
    + intro E. rewrite E in Hlen. cbn [length] in Hlen.
      destruct (isFull q); [lia |].
      destruct (Z.leb_spec (tail q) (head q));
        destruct (Z.eqb_spec (head q) (tail q)); try reflexivity; lia.
  - unfold efr32CircularQueueIsFull. rewrite Hlen, Hcount.
    destruct (isFull q); [split; reflexivity |].
    split; [discriminate |].
    destruct (Z.leb_spec (tail q) (head q)); lia.
  - unfold efr32CircularQueueGetNextInuseIndex, efr32CircularQueueIsEmpty,
      efr32CircularQueueIsFull.
    unfold in_use.
    destruct (Z.to_nat (in_use_count q)) as [| c] eqn:Ec.
    + cbn [seq map hd].
      assert (in_use_count q = 0) as E0 by lia. rewrite E0 in Hcount.
      destruct (isFull q); [lia |].
      destruct (Z.leb_spec (tail q) (head q)); [| lia].
      destruct (Z.eqb_spec (head q) (tail q)); [reflexivity | lia].
    + cbn [seq map hd].
      change (Z.of_nat 0) with 0. rewrite Z.add_0_r, Z.mod_small by lia.
      destruct (isFull q) eqn:Efull;
        [rewrite andb_false_r; reflexivity |].
      destruct (Z.eqb_spec (head q) (tail q)) as [E |]; [| reflexivity].
      exfalso. rewrite E in Hcount.
      destruct (Z.leb_spec (tail q) (tail q)); lia.
Qed.

Lemma queue_view_witness :
  efr32CircularQueueGetNextInuseIndex
    {| maxSize := 4; head := 1; tail := 3; isFull := false |}
  = hd EFR32_INVALID_QUEUE_INDEX
       (in_use {| maxSize := 4; head := 1; tail := 3; isFull := false |}).
Proof.
  apply (queue_view {| maxSize := 4; head := 1; tail := 3;
                       isFull := false |}).
  unfold queue_wf, CIRCULAR_QUEUE_SIZE_MIN. cbn.
  repeat split; try lia; discriminate.
Defined.

(** X17: releasing an index.  On a well-formed queue that is not empty,
    [efr32CircularQueueFreeIndex] releases exactly the oldest index in
    use, the one [efr32CircularQueueGetNextInuseIndex] returns, and
    keeps the others in their order; the queue stays well formed and is
    not full afterwards.  Together with X15: indices are released in the
    order in which they were taken. *)
Theorem queue_free_index q :
  queue_wf q ->
  efr32CircularQueueIsEmpty q = false ->
  exists q',
    efr32CircularQueueFreeIndex q = Some q'
    /\ queue_wf q' /\ maxSize q' = maxSize q
    /\ in_use q = efr32CircularQueueGetNextInuseIndex q :: in_use q'
    /\ efr32CircularQueueIsFull q' = false.
Proof.
  intros Hwf Hne. pose proof (in_use_count_range q Hwf) as Hc.
  pose proof Hwf as (Hn & Hh & Ht & Hf).
  unfold CIRCULAR_QUEUE_SIZE_MIN in *.
  unfold efr32CircularQueueFreeIndex.
  destruct (Z.eqb_spec (maxSize q) 0) as [| _]; [lia |].
  rewrite succ_mod by lia.
  set (t' := if tail q + 1 =? maxSize q then 0 else tail q + 1).
  assert (Ht' : 0 <= t' < maxSize q)
    by (subst t'; destruct (Z.eqb_spec (tail q + 1) (maxSize q)); lia).
  rewrite (to_uint8_small t') by lia.
  set (q' := {| maxSize := maxSize q; head := head q; tail := t';
                isFull := false |}).
  exists q'. split; [reflexivity |].
  assert (Hwf' : queue_wf q').
  { unfold queue_wf, CIRCULAR_QUEUE_SIZE_MIN, q'.
    cbn [maxSize head tail isFull].
    split; [lia |]. split; [lia |]. split; [lia |]. discriminate. }
  split; [exact Hwf' |]. split; [reflexivity |].
  split; [| reflexivity].
  assert (Hcount : in_use_count q = in_use_count q' + 1).
  { unfold in_use_count, q'. cbn [maxSize head tail isFull].
    unfold efr32CircularQueueIsEmpty, efr32CircularQueueIsFull in Hne.
    rewrite !sub_mod by lia. subst t'.
    destruct (isFull q) eqn:Efull.
    - specialize (Hf eq_refl).
      destruct (Z.eqb_spec (tail q + 1) (maxSize q));
        repeat match goal with
               | |- context [?a <=? ?b] => destruct (Z.leb_spec a b)
               end; lia.
    - rewrite andb_true_r in Hne. apply Z.eqb_neq in Hne.
      destruct (Z.eqb_spec (tail q + 1) (maxSize q));
        repeat match goal with
               | |- context [?a <=? ?b] => destruct (Z.leb_spec a b)
               end; lia. }
  unfold efr32CircularQueueGetNextInuseIndex. rewrite Hne.
  pose proof (in_use_count_range q' Hwf') as Hc'.
  unfold in_use. rewrite Hcount.
  replace (Z.to_nat (in_use_count q' + 1))
    with (S (Z.to_nat (in_use_count q'))) by lia.
  cbn [seq map]. f_equal.
  - change (Z.of_nat 0) with 0. rewrite Z.add_0_r. apply Z.mod_small. lia.
  - rewrite <- seq_shift, map_map. apply map_ext. intro k.
    unfold q'. cbn [maxSize tail]. subst t'.
    rewrite <- (succ_mod (maxSize q) (tail q)) by lia.
    rewrite Zplus_mod_idemp_l. f_equal. lia.
Qed.

Lemma queue_free_index_witness :
  exists q',
    efr32CircularQueueFreeIndex
      {| maxSize := 4; head := 1; tail := 3; isFull := false |} = Some q'
    /\ in_use {| maxSize := 4; head := 1; tail := 3; isFull := false |}
       = 3 :: in_use q'.
Proof.
  destruct (queue_free_index
              {| maxSize := 4; head := 1; tail := 3; isFull := false |})
    as (q' & E & _ & _ & Hview & _).
  - unfold queue_wf, CIRCULAR_QUEUE_SIZE_MIN. cbn.
    repeat split; try lia; discriminate.
  - reflexivity.
  - exists q'. split; [exact E | exact Hview].
Defined.

(** X18: releasing on an empty queue is not guarded.  On a well-formed
    empty queue [efr32CircularQueueFreeIndex] still advances the tail:
    afterwards the queue is no longer empty and shows [maxSize - 1]
    indices in use, none of which was handed out. *)
Theorem queue_free_index_when_empty q :
  queue_wf q ->
  efr32CircularQueueIsEmpty q = true ->
  exists q',
    efr32CircularQueueFreeIndex q = Some q'
    /\ queue_wf q'
    /\ efr32CircularQueueIsEmpty q' = false
    /\ Z.of_nat (length (in_use q')) = maxSize q - 1
    /\ efr32CircularQueueGetNextInuseIndex q'
       <> EFR32_INVALID_QUEUE_INDEX.
Proof.
  intros Hwf He. pose proof Hwf as (Hn & Hh & Ht & Hf).
  unfold CIRCULAR_QUEUE_SIZE_MIN in *.
  unfold efr32CircularQueueIsEmpty, efr32CircularQueueIsFull in He.
  apply andb_prop in He. destruct He as [E1 E2].
  apply Z.eqb_eq in E1. apply negb_true_iff in E2.
  unfold efr32CircularQueueFreeIndex.
  destruct (Z.eqb_spec (maxSize q) 0) as [| _]; [lia |].
  rewrite succ_mod by lia.
  set (t' := if tail q + 1 =? maxSize q then 0 else tail q + 1).
  assert (Ht' : 0 <= t' < maxSize q /\ t' <> head q)
    by (subst t'; destruct (Z.eqb_spec (tail q + 1) (maxSize q)); lia).
  rewrite (to_uint8_small t') by lia.
  set (q' := {| maxSize := maxSize q; head := head q; tail := t';
                isFull := false |}).
  exists q'. split; [reflexivity |].
  assert (Hwf' : queue_wf q').
  { unfold queue_wf, CIRCULAR_QUEUE_SIZE_MIN, q'.
    cbn [maxSize head tail isFull].
    split; [lia |]. split; [lia |]. split; [lia |]. discriminate. }
  assert (Hempty' : efr32CircularQueueIsEmpty q' = false).
  { unfold efr32CircularQueueIsEmpty, efr32CircularQueueIsFull, q'.
    cbn [head tail isFull].
    destruct (Z.eqb_spec (head q) t'); [lia | reflexivity]. }
  split; [exact Hwf' |]. split; [exact Hempty' |]. split.
  - rewrite (in_use_length q' Hwf').
    unfold in_use_count, q'. cbn [maxSize head tail isFull].
    rewrite sub_mod by lia. subst t'.
    destruct (Z.eqb_spec (tail q + 1) (maxSize q));
      repeat match goal with
             | |- context [?a <=? ?b] => destruct (Z.leb_spec a b)
             end; lia.
  - unfold efr32CircularQueueGetNextInuseIndex. rewrite Hempty'.
    unfold q', EFR32_INVALID_QUEUE_INDEX. cbn [tail]. lia.
Qed.

Lemma queue_free_index_when_empty_witness :
  exists q',
    efr32CircularQueueFreeIndex
      {| maxSize := 4; head := 0; tail := 0; isFull := false |} = Some q'
    /\ Z.of_nat (length (in_use q')) = 3.
Proof.
  destruct (queue_free_index_when_empty
              {| maxSize := 4; head := 0; tail := 0; isFull := false |})
    as (q' & E & _ & _ & Hlen & _).
  - unfold queue_wf, CIRCULAR_QUEUE_SIZE_MIN. cbn.
    repeat split; try lia; discriminate.
  - reflexivity.
  - exists q'. split; [exact E | exact Hlen].
Defined.

(* ================================================================== *)
(** * Two consequences of how the code is written *)

(** X19: the length check is off by one.  When, after structures
    without a match, the scan meets a structure whose length byte equals
    the remaining length (so that the structure ends one byte behind the
    blob) and which does not match, it does not stop: the remaining
    length becomes 255 and the scan goes on behind the blob. *)
Theorem scan_exact_fit_wraps
    fuel mfuel st data data_length ads pos remaining ty :
  ad_prefix data 0 data_length ads pos remaining ->
  0 <= data_length <= 255 ->
  Forall (fun a => ad_structure_matches st mfuel data a = Done false) ads ->
  remaining <> 0 ->
  load data pos = Some remaining ->
  load data (pos + 1) = Some ty ->
  ad_structure_matches st mfuel data
    {| ad_length := remaining; ad_type := ty; ad_payload := pos + 2 |}
  = Done false ->
  scan_ad_structures (length ads + S fuel) mfuel st data data_length 0
  = scan_ad_structures fuel mfuel st data 255
      (to_uint8 (pos + (remaining + 1))).
Proof.
  intros Hpre Hrange Hall Hrem Hl Ht Hno.
  destruct (scan_ad_prefix st mfuel data 0 data_length ads pos remaining
              Hpre ltac:(lia) ltac:(lia) ltac:(lia) Hall)
    as (Hscan & _ & _ & _).
  rewrite Hscan.
  rewrite (scan_ad_structures_step fuel mfuel st data remaining pos
             remaining ty) by (assumption || lia).
  rewrite Hno. cbn [bind].
  replace (remaining - (remaining + 1)) with (-1) by lia.
  reflexivity.
Qed.

Lemma scan_exact_fit_wraps_witness :
  scan_ad_structures 3 8 battery_state [1; 0x01; 4; 0x09; 0x41; 0x42] 6 0
  = scan_ad_structures 1 8 battery_state [1; 0x01; 4; 0x09; 0x41; 0x42]
      255 7.
Proof.
  refine (scan_exact_fit_wraps 1 8 battery_state
            [1; 0x01; 4; 0x09; 0x41; 0x42] 6
            [ {| ad_length := 1; ad_type := 1; ad_payload := 2 |} ]
            2 4 9 _ ltac:(lia) _ ltac:(lia) eq_refl eq_refl eq_refl).
  - apply (ad_prefix_cons _ 0 6 1 1); try reflexivity; try lia.
    apply ad_prefix_nil.
  - constructor; [reflexivity | constructor].
Defined.

(** X20: a rejected command has been copied all the same.  When a
    command with the handler's opcode has a length between 5 and the
    8-bit size of the work filter and readable parameters, the handler
    writes it over [work_filter] before it validates it; if the
    validator then rejects it, the answer is [BT_ERR_INVALID], the
    filter record is unchanged, and [work_filter], into which the list
    pointers of a configuration installed by the handler point, holds
    the bytes of the rejected command. *)
Theorem rejected_command_is_copied cap16 cap32 st hcimsg length work_filter' :
  message_opcode hcimsg = Some SL_BT_HCI_CONFIGURE_FILTERING_OPCODE ->
  message_length hcimsg = Some length ->
  5 <= length <= to_uint8 (SIZEOF_sli_work_filter cap16 cap32) ->
  sl_btctrl_hci_message_get_parameters hcimsg (work_filter st) length
  = Some work_filter' ->
  ~ acceptable_filter cap16 cap32 work_filter' ->
  exists st',
    hci_configure_filter_command cap16 cap32 st hcimsg
    = (true, Some BT_ERR_INVALID, st')
    /\ hci_event_filter st' = hci_event_filter st
    /\ advertisment_report_incomplete st'
       = advertisment_report_incomplete st
    /\ work_filter st' = work_filter'
    /\ (forall u offset n,
           uuid_array u = Some (WORK_FILTER, offset) ->
           deref_bytes (resolve st' (uuid_array u)) n
           = load_bytes work_filter' offset (Z.to_nat n)).
Proof.
  intros Hop Hlen Hrange Hcopy Hbad.
  unfold hci_configure_filter_command. rewrite Hop, Hlen.
  rewrite Z.eqb_refl. cbn [negb].
  change (to_uint8 (4 + 1)) with 5.
  destruct (Z.ltb_spec length 5) as [| _]; [lia |].
  destruct (Z.gtb_spec length
              (to_uint8 (SIZEOF_sli_work_filter cap16 cap32))) as [| _];
    [lia |].
  cbn [orb]. rewrite Hcopy.
  set (st1 := {| hci_event_filter := hci_event_filter st;
                 work_filter := work_filter';
                 advertisment_report_incomplete :=
                   advertisment_report_incomplete st |}).
  destruct (configure_filtering_status cap16 cap32 st1 WORK_FILTER)
    as [[Ha _] | [_ Hs]]; [contradiction |].
  rewrite Hs. exists st1.
  split; [reflexivity |]. split; [reflexivity |]. split; [reflexivity |].
  split; [reflexivity |].
  intros u offset n Hu. rewrite Hu. reflexivity.
Qed.

Lemma rejected_command_is_copied_witness :
  exists st',
    hci_configure_filter_command 2 0 battery_state
      {| message_opcode := Some SL_BT_HCI_CONFIGURE_FILTERING_OPCODE;
         message_length := Some 9;
         message_parameters := Some [0x80; 0; 0; 0; 0; 2; 0x0A; 0x18; 0] |}
    = (true, Some BT_ERR_INVALID, st')
    /\ work_filter st' = [0x80; 0; 0; 0; 0; 2; 0x0A; 0x18; 0].
Proof.
  destruct (rejected_command_is_copied 2 0 battery_state
              {| message_opcode := Some SL_BT_HCI_CONFIGURE_FILTERING_OPCODE;
                 message_length := Some 9;
                 message_parameters :=
                   Some [0x80; 0; 0; 0; 0; 2; 0x0A; 0x18; 0] |}
              9 [0x80; 0; 0; 0; 0; 2; 0x0A; 0x18; 0]
              eq_refl eq_refl ltac:(vm_compute; split; discriminate)
              eq_refl)
    as (st' & E & _ & _ & Hw & _).
  - intros (Hm & _). vm_compute in Hm. discriminate Hm.
  - exists st'. split; [exact E | exact Hw].
Defined.

(* ================================================================== *)
(** * The millisecond ticks *)

Lemma sub_mod_mod a b n :
  0 < n -> 0 <= b - a < n -> (b mod n - a mod n) mod n = b - a.
Proof.
  intros Hn Hd. rewrite <- Zminus_mod. apply Z.mod_small. exact Hd.
Qed.

(** X21: tick differences survive the wrap-around.  For two readings of
    the monotonic clock, the later one less than 2^32 ms after the
    earlier, the difference of the two 32-bit ticks taken modulo 2^32 is
    the number of milliseconds between the readings; the same holds for
    the 16-bit ticks and 2^16 ms.  The quarter-second tick counts units
    of 256 ms: it is the 32-bit tick without its low 8 bits. *)
Theorem tick_difference ts1 ts2 t1 t2 :
  timespec_wf ts1 -> timespec_wf ts2 ->
  milliseconds ts1 <= milliseconds ts2 ->
  halCommonGetInt32uMillisecondTick (Some ts1) = Some t1 ->
  halCommonGetInt32uMillisecondTick (Some ts2) = Some t2 ->
  (milliseconds ts2 - milliseconds ts1 < 4294967296 ->
   to_uint32 (t2 - t1) = milliseconds ts2 - milliseconds ts1)
  /\ (milliseconds ts2 - milliseconds ts1 < 65536 ->
      forall m1 m2,
        halCommonGetInt16uMillisecondTick (Some ts1) = Some m1 ->
        halCommonGetInt16uMillisecondTick (Some ts2) = Some m2 ->
        to_uint16 (m2 - m1) = milliseconds ts2 - milliseconds ts1)
  /\ halCommonGetInt16uQuarterSecondTick (Some ts2)
     = Some ((milliseconds ts2 / 256) mod 65536).
Proof.
  intros ((Hs1 & _) & Hn1) ((Hs2 & _) & Hn2) Hle E1 E2.
  unfold halCommonGetInt32uMillisecondTick in E1, E2.
  rewrite Z.quot_div_nonneg in E1, E2 by lia.
  fold (milliseconds ts1) in E1. fold (milliseconds ts2) in E2.
  injection E1 as <-. injection E2 as <-.
  assert (Hm2 : 0 <= milliseconds ts2).
  { unfold milliseconds.
    pose proof (Z.div_pos (tv_nsec ts2) 1000000 ltac:(lia) ltac:(lia)). lia. }
  split; [| split].
  - intro Hd. unfold to_uint32. apply sub_mod_mod; lia.
  - intros Hd m1 m2 Em1 Em2.
    unfold halCommonGetInt16uMillisecondTick,
      halCommonGetInt32uMillisecondTick in Em1, Em2.
    rewrite Z.quot_div_nonneg in Em1, Em2 by lia.
    fold (milliseconds ts1) in Em1. fold (milliseconds ts2) in Em2.
    cbn [option_map] in Em1, Em2.
    injection Em1 as <-. injection Em2 as <-.
    unfold to_uint16, to_uint32.
    rewrite !(Z.mod_mod_divide _ 4294967296 65536)
      by (exists 65536; reflexivity).
    apply sub_mod_mod; lia.
  - unfold halCommonGetInt16uQuarterSecondTick,
      halCommonGetInt32uMillisecondTick.
    rewrite Z.quot_div_nonneg by lia. fold (milliseconds ts2).
    cbn [option_map]. f_equal.
    unfold to_uint16, to_uint32.
    rewrite Z.shiftr_div_pow2 by lia. change (2 ^ 8) with 256.
    set (m := milliseconds ts2) in *.
    change 4294967296 with (256 * 16777216).
    rewrite Z.rem_mul_r by lia.
    rewrite (Z.mul_comm 256), Z.div_add by lia.
    rewrite (Z.div_small (m mod 256) 256)
      by (apply Z.mod_pos_bound; lia).
    rewrite Z.add_0_l.
    change 16777216 with (65536 * 256).
    rewrite Z.rem_mul_r by lia.
    rewrite (Z.mul_comm 65536 (_ mod 256)), Z_mod_plus_full.
    apply Z.mod_mod. lia.
Qed.

Lemma tick_difference_witness :
  to_uint32 (704 - 4294967000)
  = milliseconds {| tv_sec := 4294968; tv_nsec := 0 |}
    - milliseconds {| tv_sec := 4294967; tv_nsec := 0 |}.
Proof.
  refine (proj1 (tick_difference
                   {| tv_sec := 4294967; tv_nsec := 0 |}
                   {| tv_sec := 4294968; tv_nsec := 0 |}
                   4294967000 704 _ _ _ eq_refl eq_refl) _).
  - unfold timespec_wf. cbn. lia.
  - unfold timespec_wf. cbn. lia.
  - vm_compute. discriminate.
  - vm_compute. reflexivity.
Defined.

(* ================================================================== *)
(** * The identify feedback plugin *)

Lemma identifyTable_store_some table ep v :
  0 <= ep < Z.of_nat (length table) ->
  identifyTable_store table ep v
  = Some (firstn (Z.to_nat ep) table ++ v :: skipn (S (Z.to_nat ep)) table).
Proof.
  intro H. unfold identifyTable_store.
  replace (0 <=? ep) with true by (symmetry; apply Z.leb_le; lia).
  replace (ep <? Z.of_nat (length table)) with true
    by (symmetry; apply Z.ltb_lt; lia).
  reflexivity.
Qed.

Lemma identifyTable_store_inv table ep v table' :
  identifyTable_store table ep v = Some table' ->
  0 <= ep < Z.of_nat (length table)
  /\ table'
     = firstn (Z.to_nat ep) table ++ v :: skipn (S (Z.to_nat ep)) table.
Proof.
  unfold identifyTable_store.
  destruct (0 <=? ep) eqn:E1; [| discriminate].
  destruct (ep <? Z.of_nat (length table)) eqn:E2; [| discriminate].
  cbn [andb]. intro H. injection H as <-.
  apply Z.leb_le in E1. apply Z.ltb_lt in E2. split; [lia | reflexivity].
Qed.

Lemma store_length (table : list bool) n v :
  (n < length table)%nat ->
  length (firstn n table ++ v :: skipn (S n) table) = length table.
Proof.
  intro H. rewrite length_app, length_firstn. cbn [length].
  rewrite length_skipn. lia.
Qed.

Lemma store_nth_same (table : list bool) n v :
  (n < length table)%nat ->
  nth_error (firstn n table ++ v :: skipn (S n) table) n = Some v.
Proof.
  intro H. rewrite nth_error_app2 by (rewrite length_firstn; lia).
  rewrite length_firstn. replace (n - Nat.min n (length table))%nat with 0%nat by lia.
  reflexivity.
Qed.

Lemma store_nth_other (table : list bool) n v j :
  (n < length table)%nat -> j <> n ->
  nth_error (firstn n table ++ v :: skipn (S n) table) j = nth_error table j.
Proof.
  revert n j. induction table as [| b rest IH]; intros n j H Hj.
  - cbn [length] in H. lia.
  - destruct n as [| n], j as [| j]; cbn [firstn skipn app nth_error].
    + contradiction Hj. reflexivity.
    + reflexivity.
    + reflexivity.
    + apply IH; [cbn [length] in H; lia | congruence].
Qed.

Lemma haveIdentifyingEndpoint_iff table :
  haveIdentifyingEndpoint table = true
  <-> exists j, nth_error table j = Some true.
Proof.
  induction table as [| b rest IH]; cbn [haveIdentifyingEndpoint].
  - split; [discriminate |]. intros [[| j] H]; discriminate H.
  - destruct b.
    + split; [| reflexivity]. intros _. exists 0%nat. reflexivity.
    + rewrite IH. split.
      * intros [j H]. exists (S j). exact H.
      * intros [[| j] H]; [discriminate H |]. exists j. exact H.
Qed.

Lemma haveIdentifyingEndpoint_repeat count :
  haveIdentifyingEndpoint (repeat false count) = false.
Proof.
  induction count as [| n IH]; [reflexivity | exact IH].
Qed.

(** X22: the feedback event follows the table.  In every state the
    plugin reaches from start-up by its two callbacks and its event
    handler, the table keeps its size and the last call issued on the
    feedback event armed it exactly when some endpoint is identifying:
    the event is never left running with no endpoint identifying, and
    never stopped while one still is. *)
Theorem feedback_event_follows_table mtps count st :
  feedback_reachable mtps count st ->
  length (identifyTable st) = count
  /\ armed (event_calls st) = haveIdentifyingEndpoint (identifyTable st).
Proof.
  induction 1 as [| st ep st' _ [IHl IHa] E | st ep st' _ [IHl IHa] E
                  | st _ [IHl IHa] Harmed].
  - cbn [feedback_init identifyTable event_calls armed].
    rewrite repeat_length, haveIdentifyingEndpoint_repeat. split; reflexivity.
  - unfold emberAfPluginIdentifyStartFeedbackCallback in E.
    destruct (ep =? 255); [injection E as <-; split; assumption |].
    destruct (identifyTable_store (identifyTable st) ep true)
      as [table |] eqn:Es; [| discriminate].
    injection E as <-. cbn [identifyTable event_calls].
    apply identifyTable_store_inv in Es. destruct Es as [Hep ->].
    split; [rewrite store_length; lia |].
    assert (Hhave : haveIdentifyingEndpoint
                      (firstn (Z.to_nat ep) (identifyTable st)
                       ++ true :: skipn (S (Z.to_nat ep)) (identifyTable st))
                    = true).
    { apply haveIdentifyingEndpoint_iff. exists (Z.to_nat ep).
      apply store_nth_same. lia. }
    rewrite Hhave.
    destruct (haveIdentifyingEndpoint (identifyTable st)); cbn [negb armed].
    + exact IHa.
    + reflexivity.
  - unfold emberAfPluginIdentifyStopFeedbackCallback in E.
    destruct (ep =? 255); [injection E as <-; split; assumption |].
    destruct (identifyTable_store (identifyTable st) ep false)
      as [table |] eqn:Es; [| discriminate].
    apply identifyTable_store_inv in Es. destruct Es as [Hep Etab].
    assert (Hlen : length table = length (identifyTable st))
      by (rewrite Etab; apply store_length; lia).
    assert (Hsame : nth_error table (Z.to_nat ep) = Some false)
      by (rewrite Etab; apply store_nth_same; lia).
    assert (Hother : forall j, j <> Z.to_nat ep ->
                       nth_error table j = nth_error (identifyTable st) j)
      by (intros j Hj; rewrite Etab; apply store_nth_other; [lia | exact Hj]).
    clear Etab.
    destruct (haveIdentifyingEndpoint table) eqn:Hhave;
      injection E as <-; cbn [identifyTable event_calls].
    + split; [lia |].
      rewrite Hhave, IHa.
      apply haveIdentifyingEndpoint_iff.
      apply haveIdentifyingEndpoint_iff in Hhave. destruct Hhave as [j Hj].
      exists j. destruct (Nat.eq_dec j (Z.to_nat ep)) as [-> | Hne].
      * rewrite Hsame in Hj. discriminate Hj.
      * rewrite Hother in Hj by exact Hne. exact Hj.
    + split; [lia |].
      rewrite Hhave. reflexivity.
  - cbn [emberAfPluginIdentifyFeedbackProvideFeedbackEventHandler
           identifyTable event_calls armed].
    split; [exact IHl |]. rewrite <- IHa. symmetry. exact Harmed.
Qed.

Lemma feedback_event_follows_table_witness :
  length [false; true; false] = 3%nat
  /\ armed [sl_zigbee_event_set_delay_ms 1000;
            sl_zigbee_event_set_delay_ms 1000]
     = haveIdentifyingEndpoint [false; true; false].
Proof.
  refine (feedback_event_follows_table 1000 3
            {| identifyTable := [false; true; false];
               event_calls := [sl_zigbee_event_set_delay_ms 1000;
                               sl_zigbee_event_set_delay_ms 1000] |} _).
  refine (feedback_reachable_stop 1000 3
            {| identifyTable := [true; true; false];
               event_calls := [sl_zigbee_event_set_delay_ms 1000;
                               sl_zigbee_event_set_delay_ms 1000] |}
            0 _ _ eq_refl).
  refine (feedback_reachable_start 1000 3
            {| identifyTable := [false; true; false];
               event_calls := [sl_zigbee_event_set_delay_ms 1000;
                               sl_zigbee_event_set_delay_ms 1000] |}
            0 _ _ eq_refl).
  refine (feedback_reachable_handler 1000 3
            {| identifyTable := [false; true; false];
               event_calls := [sl_zigbee_event_set_delay_ms 1000] |}
            _ eq_refl).
  refine (feedback_reachable_start 1000 3 (feedback_init 3) 1 _ _ eq_refl).
  apply feedback_reachable_init.
Defined.

(** X23: what the two callbacks do.  For an index inside the table,
    the start callback returns with that entry set and every other
    entry unchanged, and arms the feedback event exactly when no
    endpoint was identifying before; the stop callback returns with
    that entry cleared and every other entry unchanged, and stops the
    event exactly when no other endpoint is identifying.  For the
    index 0xFF of a failed lookup both callbacks change nothing and
    issue no call. *)
Theorem identify_callbacks mtps st ep :
  ep <> 255 -> 0 <= ep < Z.of_nat (length (identifyTable st)) ->
  (exists st',
     emberAfPluginIdentifyStartFeedbackCallback mtps ep st = Some st'
     /\ nth_error (identifyTable st') (Z.to_nat ep) = Some true
     /\ (forall j, j <> Z.to_nat ep ->
           nth_error (identifyTable st') j = nth_error (identifyTable st) j)
     /\ event_calls st'
        = if haveIdentifyingEndpoint (identifyTable st)
          then event_calls st
          else sl_zigbee_event_set_delay_ms mtps :: event_calls st)
  /\ (exists st',
        emberAfPluginIdentifyStopFeedbackCallback ep st = Some st'
        /\ nth_error (identifyTable st') (Z.to_nat ep) = Some false
        /\ (forall j, j <> Z.to_nat ep ->
              nth_error (identifyTable st') j = nth_error (identifyTable st) j)
        /\ ((exists j, j <> Z.to_nat ep
                       /\ nth_error (identifyTable st) j = Some true) ->
            event_calls st' = event_calls st)
        /\ ((forall j, j <> Z.to_nat ep ->
               nth_error (identifyTable st) j <> Some true) ->
            event_calls st' = sl_zigbee_event_set_inactive :: event_calls st))
  /\ emberAfPluginIdentifyStartFeedbackCallback mtps 255 st = Some st
  /\ emberAfPluginIdentifyStopFeedbackCallback 255 st = Some st.
Proof.
  intros Hne Hep.
  assert (Hn : (Z.to_nat ep < length (identifyTable st))%nat) by lia.
  split; [| split; [| split; reflexivity]].
  - unfold emberAfPluginIdentifyStartFeedbackCallback.
    replace (ep =? 255) with false by (symmetry; apply Z.eqb_neq; exact Hne).
    rewrite identifyTable_store_some by exact Hep.
    eexists. split; [reflexivity |]. cbn [identifyTable event_calls].
    split; [apply store_nth_same; exact Hn |].
    split; [intros j Hj; apply store_nth_other; assumption |].
    destruct (haveIdentifyingEndpoint (identifyTable st)); reflexivity.
  - unfold emberAfPluginIdentifyStopFeedbackCallback.
    replace (ep =? 255) with false by (symmetry; apply Z.eqb_neq; exact Hne).
    rewrite identifyTable_store_some by exact Hep.
    set (table' := firstn (Z.to_nat ep) (identifyTable st)
                   ++ false :: skipn (S (Z.to_nat ep)) (identifyTable st)).
    assert (Hsame : nth_error table' (Z.to_nat ep) = Some false)
      by (apply store_nth_same; exact Hn).
    assert (Hother : forall j, j <> Z.to_nat ep ->
                       nth_error table' j = nth_error (identifyTable st) j)
      by (intros j Hj; apply store_nth_other; assumption).
    destruct (haveIdentifyingEndpoint table') eqn:Hhave;
      eexists; (split; [reflexivity |]); cbn [identifyTable event_calls];
      (split; [exact Hsame |]); (split; [exact Hother |]).
    + split; [reflexivity |]. intro Hnone. exfalso.
      apply haveIdentifyingEndpoint_iff in Hhave. destruct Hhave as [j Hj].
      destruct (Nat.eq_dec j (Z.to_nat ep)) as [-> | Hj'].
      * rewrite Hsame in Hj. discriminate Hj.
      * rewrite Hother in Hj by exact Hj'. exact (Hnone j Hj' Hj).
    + split; [| reflexivity]. intros [j [Hj' Hj]]. exfalso.
      assert (Hyes : haveIdentifyingEndpoint table' = true).
      { apply haveIdentifyingEndpoint_iff. exists j.
        rewrite Hother by exact Hj'. exact Hj. }
      rewrite Hyes in Hhave. discriminate Hhave.
Qed.

Lemma identify_callbacks_witness :
  emberAfPluginIdentifyStopFeedbackCallback 255
    {| identifyTable := [false; true]; event_calls := [] |}
  = Some {| identifyTable := [false; true]; event_calls := [] |}.
Proof.
  refine (proj2 (proj2 (proj2 (identify_callbacks 1000
            {| identifyTable := [false; true]; event_calls := [] |} 0 _ _)))).
  - discriminate.
  - cbn. lia.
Defined.
